(** * NZDPU benchmarking and data-quality engine: a shallow embedding

  The TypeScript sources embedded here are
  - [knowledge/comparability.ts]  (comparability rules),
  - the benchmarking engine      ([calculatePeerStats], [calculatePercentileRank]),
  - [db/queries.ts]               ([getPeerStatistics], [benchmarkCompany],
                                   [compareCompanies], [assessDataQuality],
                                   [calculateOverallScore]),
  - the year comparison module    ([calculateCAGR], [calculatePercentChange],
                                   [compareYears], [getTimeSeries]),
  - the peer trend module         ([analyzeTrend], [getPeerTrend]),
  - the engine's peer helpers     ([getEmissionValue], [extractPeerValues],
                                   [createPeerComparison],
                                   [filterByScope2Methodology]),
  - the tool dispatcher           ([nzdpu_benchmark], modes single and compare).

  JavaScript numbers are modelled as exact rationals ([Q]); [null] and
  [undefined] as [None].  [Math.sqrt] and [Math.pow], which have no exact
  rational counterpart, are taken from a [MathLib] interface. *)

From Stdlib Require Import ZArith QArith Qabs Qround Lia Lqa Bool.
From Stdlib Require Import String Ascii List.
From stdpp Require Import base option list gmap strings.

Import ListNotations.
#[local] Open Scope Q_scope.

(* ------------------------------------------------------------------ *)
(** ** The JavaScript layer *)
(* ------------------------------------------------------------------ *)

Module JS.

(** The two [Math] functions that leave the rationals. *)
Class MathLib := {
  Math_sqrt : Q -> Q;
  Math_pow : Q -> Q -> Q
}.

(** A coarse executable instance, used to run the definitions on concrete
    inputs.  Every theorem below is stated for an arbitrary [MathLib]. *)
Definition coarseMath : MathLib := {|
  Math_sqrt := fun x => inject_Z (Z.sqrt (Qfloor x));
  Math_pow := fun x y =>
  if (Qden y =? 1)%positive then Qpower x (Qnum y) else 1 + y * (x - 1)
|}.

Definition Math_floor (x : Q) : Z := Qfloor x.

(** An integral number used as an array index. *)
Definition index (z : Z) : nat := Z.to_nat z.

(** [Math.round]: nearest integer, halves towards plus infinity. *)
Definition Math_round (x : Q) : Z := Qfloor (x + (1 # 2)).

Definition num (n : nat) : Q := inject_Z (Z.of_nat n).

(** Truthiness of [number | null]: [null] and [0] are falsy. *)
Definition truthy (v : option Q) : bool :=
  match v with
  | None => false
  | Some q => negb (Qeq_bool q 0)
  end.

(** Truthiness of [string | null | undefined]: the empty string is falsy. *)
Definition truthyS (s : option string) : bool :=
  match s with
  | None | Some EmptyString => false
  | Some _ => true
  end.

Definition Qlt_bool (a b : Q) : bool := negb (Qle_bool b a).

(** [arr[i]] on a numeric array.  The statistics code only reads inside a
    non-empty array (lemma [quartile_indices_in_range]); outside it the
    source yields [undefined], which this model does not represent. *)
Definition at_ (arr : list Q) (i : nat) : Q := nth i arr 0.

Definition sum (arr : list Q) : Q := fold_left Qplus arr 0.

(** [arr.sort((a, b) => a - b)]: a stable ascending sort. *)
Fixpoint insert (x : Q) (l : list Q) : list Q :=
  match l with
  | [] => [x]
  | y :: t => if Qle_bool x y then x :: y :: t else y :: insert x t
  end.

Fixpoint sort (l : list Q) : list Q :=
  match l with
  | [] => []
  | x :: t => insert x (sort t)
  end.

(** [s.toLowerCase()] on ASCII text. *)
Definition lowerAscii (c : ascii) : ascii :=
  let n := nat_of_ascii c in
  if (65 <=? n)%nat && (n <=? 90)%nat then ascii_of_nat (n + 32) else c.

Fixpoint toLowerCase (s : string) : string :=
  match s with
  | EmptyString => EmptyString
  | String c t => String (lowerAscii c) (toLowerCase t)
  end.

(** [hay.includes(needle)]. *)
Fixpoint includes (hay needle : string) : bool :=
  String.prefix needle hay ||
  match hay with
  | EmptyString => false
  | String _ t => includes t needle
  end.

(** [arr.includes(s)] on an array of strings. *)
Definition includesS (arr : list string) (s : string) : bool :=
  existsb (String.eqb s) arr.

End JS.

Export JS.

(* ------------------------------------------------------------------ *)
(** ** [types/index.ts] *)
(* ------------------------------------------------------------------ *)

Module Types.

Inductive Scope2Methodology := location_based | market_based.

Record Scope3Category := {
  category_number : Z;
  category_name : string;
  emissions : option Q;
  methodology : option string;
  relevancy : option string;
  exclusion_reason : option string
}.

Record EmissionsData := {
  company_id : Z;
  year : Z;
  scope1_emissions : option Q;
  scope1_methodology : option string;
  scope2_location_based : option Q;
  scope2_market_based : option Q;
  scope2_lb_methodology : option string;
  scope2_mb_methodology : option string;
  scope3_total : option Q;
  scope3_categories : option (list Scope3Category);
  organizational_boundary : option string;
  verification_status : option string
}.

Record PeerGroupStats := {
  count : nat;
  mean : Q;
  median : Q;
  stdDev : Q;
  min : Q;
  max : Q;
  percentile25 : Q;
  percentile75 : Q
}.

Inductive WarningType :=
| scope2_mismatch | methodology_mismatch | boundary_mismatch
| year_mismatch | data_quality.

Inductive Severity := error | warning | info.

(** The texts of a warning are template strings; a template is kept as a
    constructor carrying the interpolated values. *)
Inductive Message :=
| CannotCompareScope2
| DifferentReportingYears (y1 y2 : Z)
| DifferentBoundaries (b1 b2 : string)
| DifferentScope1Methodologies (m1 m2 : string)
| Scope2MismatchDetected
| MissingEmissionsData (ids : list Z)
| GenericScope2Requested
| OnlyReportsOther (requested : Scope2Methodology).

Inductive Education :=
| Scope2MismatchEducation
| YearEducation
| BoundaryEducation
| MethodologyEducation
| MissingDataEducation.

Inductive Suggestion :=
| RequestSameMethodology
| CompareSameYear
| ConsiderBoundary
| RequestSameScope2Type
| UseLbOrMb
| RequestOtherOrExclude (requested : Scope2Methodology)
| RequestEitherForBoth
| AddressErrorsFirst.

Record ComparabilityWarning := {
  type : WarningType;
  severity : Severity;
  message : Message;
  educationalContext : Education;
  suggestion : option Suggestion
}.

Inductive Explanation :=
| BothUse (m : Scope2Methodology)
| MethodologyDifferences
| DirectlyComparable
| Report (blocking caveats notes : list Message)
| MissingDataForSome
| Scope2Prevents
| ComparisonValid
| ComparisonWithCaveats.

Record ComparabilityCheck := {
  isComparable : bool;
  warnings : list ComparabilityWarning;
  explanation : Explanation;
  check_suggestion : option Suggestion
}.

Inductive QualityScore := HIGH | MEDIUM | LOW.
Inductive MethodQualityTier := PRIMARY | MODELED | UNKNOWN.

Definition SCOPE3_METHOD_QUALITY : list (string * MethodQualityTier) :=
  [ ("Supplier-specific method", PRIMARY);
    ("Hybrid method", PRIMARY);
    ("Asset-specific method", PRIMARY);
    ("Fuel-based method", PRIMARY);
    ("Average-data method", MODELED);
    ("Spend-based method", MODELED);
    ("Distance-based method", MODELED);
    ("Waste-type-specific method", MODELED);
    ("Site-specific method", PRIMARY);
    ("Average product method", MODELED);
    ("Lessor-specific method", PRIMARY);
    ("Lessee-specific method", PRIMARY);
    ("Franchise-specific method", PRIMARY);
    ("Investment-specific method", PRIMARY) ]%string.

Definition Severity_eqb (a b : Severity) : bool :=
  match a, b with
  | error, error | warning, warning | info, info => true
  | _, _ => false
  end.

End Types.

(* ------------------------------------------------------------------ *)
(** ** [knowledge/comparability.ts] *)
(* ------------------------------------------------------------------ *)

Module Comparability.
Import Types.

Definition Scope2Methodology_eqb (a b : Scope2Methodology) : bool :=
  match a, b with
  | location_based, location_based | market_based, market_based => true
  | _, _ => false
  end.

Definition checkScope2Comparability (methodology1 methodology2 : Scope2Methodology)
  : ComparabilityCheck :=
  let isComparable := Scope2Methodology_eqb methodology1 methodology2 in
  if isComparable then
    {| isComparable := true;
       warnings := [];
       explanation := BothUse methodology1;
       check_suggestion := None |}
  else
    let warning :=
      {| type := scope2_mismatch;
         severity := error;
         message := CannotCompareScope2;
         educationalContext := Scope2MismatchEducation;
         suggestion := Some RequestSameMethodology |} in
    {| isComparable := false;
       warnings := [warning];
       explanation := MethodologyDifferences;
       check_suggestion := Some RequestEitherForBoth |}.

Definition messagesOf (s : Severity) (ws : list ComparabilityWarning) : list Message :=
  map message (List.filter (fun w => Severity_eqb (severity w) s) ws).

Definition generateComparabilityExplanation
    (warnings : list ComparabilityWarning) (isComparable : bool) : Explanation :=
  if (length warnings =? 0)%nat then DirectlyComparable
  else
    let errors := messagesOf error warnings in
    let warningsOnly := messagesOf warning warnings in
    let infos := messagesOf info warnings in
    Report
      (if negb isComparable then errors else [])
      (if isComparable && (0 <? length warningsOnly)%nat then warningsOnly else [])
      (if (0 <? length infos)%nat && isComparable then infos else []).

Definition yearWarning (y1 y2 : Z) : ComparabilityWarning :=
  {| type := year_mismatch; severity := warning;
     message := DifferentReportingYears y1 y2;
     educationalContext := YearEducation;
     suggestion := Some CompareSameYear |}.

Definition boundaryWarning (b1 b2 : string) : ComparabilityWarning :=
  {| type := boundary_mismatch; severity := warning;
     message := DifferentBoundaries b1 b2;
     educationalContext := BoundaryEducation;
     suggestion := Some ConsiderBoundary |}.

Definition scope1MethodologyWarning (m1 m2 : string) : ComparabilityWarning :=
  {| type := methodology_mismatch; severity := info;
     message := DifferentScope1Methodologies m1 m2;
     educationalContext := MethodologyEducation;
     suggestion := None |}.

Definition scope2MixWarning : ComparabilityWarning :=
  {| type := scope2_mismatch; severity := error;
     message := Scope2MismatchDetected;
     educationalContext := Scope2MismatchEducation;
     suggestion := Some RequestSameScope2Type |}.

Definition optS_eqb (a b : option string) : bool :=
  match a, b with
  | None, None => true
  | Some x, Some y => String.eqb x y
  | _, _ => false
  end.

Definition isSome {A} (o : option A) : bool :=
  match o with Some _ => true | None => false end.

(** The four rule conditions of [checkEmissionsComparability]. *)
Definition yearRule (e1 e2 : EmissionsData) : bool :=
  negb (year e1 =? year e2)%Z.

Definition boundaryRule (e1 e2 : EmissionsData) : bool :=
  negb (optS_eqb (organizational_boundary e1) (organizational_boundary e2))
  && (truthyS (organizational_boundary e1) && truthyS (organizational_boundary e2)).

Definition scope1Rule (e1 e2 : EmissionsData) : bool :=
  (truthyS (scope1_methodology e1) && truthyS (scope1_methodology e2))
  && negb (optS_eqb (scope1_methodology e1) (scope1_methodology e2)).

Definition mixedComparison (e1 e2 : EmissionsData) : bool :=
  let hasScope2LB1 := isSome (scope2_location_based e1) in
  let hasScope2MB1 := isSome (scope2_market_based e1) in
  let hasScope2LB2 := isSome (scope2_location_based e2) in
  let hasScope2MB2 := isSome (scope2_market_based e2) in
  (hasScope2LB1 && negb hasScope2LB2 && hasScope2MB2)
  || (hasScope2MB1 && negb hasScope2MB2 && hasScope2LB2).

Definition textOf (s : option string) : string :=
  match s with Some x => x | None => EmptyString end.

(** The body pushes onto [warnings] in source order; each [if] is one
    segment of the final array. *)
Definition checkEmissionsComparability (emissions1 emissions2 : EmissionsData)
  : ComparabilityCheck :=
  let warnings0 : list ComparabilityWarning := [] in
  let warnings1 :=
    if yearRule emissions1 emissions2
    then warnings0 ++ [yearWarning (year emissions1) (year emissions2)]
    else warnings0 in
  let warnings2 :=
    if boundaryRule emissions1 emissions2
    then warnings1 ++ [boundaryWarning (textOf (organizational_boundary emissions1))
                                       (textOf (organizational_boundary emissions2))]
    else warnings1 in
  let warnings3 :=
    if scope1Rule emissions1 emissions2
    then warnings2 ++ [scope1MethodologyWarning (textOf (scope1_methodology emissions1))
                                                (textOf (scope1_methodology emissions2))]
    else warnings2 in
  let '(warnings4, isComparable) :=
    if mixedComparison emissions1 emissions2
    then (warnings3 ++ [scope2MixWarning], false)
    else (warnings3, true) in
  {| isComparable := isComparable;
     warnings := warnings4;
     explanation := generateComparabilityExplanation warnings4 isComparable;
     check_suggestion := if isComparable then None else Some AddressErrorsFirst |}.

Inductive RequestScope := scope1 | scope2_lb | scope2_mb | scope2 | scope3 | total.

Definition missingDataWarning (ids : list Z) : ComparabilityWarning :=
  {| type := data_quality; severity := error;
     message := MissingEmissionsData ids;
     educationalContext := MissingDataEducation;
     suggestion := None |}.

Definition genericScope2Warning : ComparabilityWarning :=
  {| type := scope2_mismatch; severity := warning;
     message := GenericScope2Requested;
     educationalContext := Scope2MismatchEducation;
     suggestion := Some UseLbOrMb |}.

Definition onlyOtherWarning (requested : Scope2Methodology) : ComparabilityWarning :=
  {| type := scope2_mismatch; severity := error;
     message := OnlyReportsOther requested;
     educationalContext := Scope2MismatchEducation;
     suggestion := Some (RequestOtherOrExclude requested) |}.

(** [scope === 'scope2_lb' || scope === 'scope2_mb'], with the variant. *)
Definition requestedVariant (scope : RequestScope) : option Scope2Methodology :=
  match scope with
  | scope2_lb => Some location_based
  | scope2_mb => Some market_based
  | _ => None
  end.

Definition fieldOf (v : Scope2Methodology) (e : EmissionsData) : option Q :=
  match v with
  | location_based => scope2_location_based e
  | market_based => scope2_market_based e
  end.

Definition other (v : Scope2Methodology) : Scope2Methodology :=
  match v with location_based => market_based | market_based => location_based end.

(** Companies lacking the requested Scope 2 field while carrying the other. *)
Definition hasOther (v : Scope2Methodology) (emissions : list EmissionsData)
  : list EmissionsData :=
  let missingMethodology := List.filter (fun e => negb (isSome (fieldOf v e))) emissions in
  List.filter (fun e => isSome (fieldOf (other v) e)) missingMethodology.

Definition errorsOf (ws : list ComparabilityWarning) : list ComparabilityWarning :=
  List.filter (fun w => Severity_eqb (severity w) error) ws.

(** [emissionsData] is a [Map<number, EmissionsData>]; only [has] and the
    multiset of [values()] are observed. *)
Definition validateComparisonRequest
    (companyIds : list Z) (scope : RequestScope) (emissionsData : gmap Z EmissionsData)
  : ComparabilityCheck :=
  let missingData := List.filter (fun id => negb (isSome (emissionsData !! id))) companyIds in
  if (0 <? length missingData)%nat then
    {| isComparable := false;
       warnings := [missingDataWarning missingData];
       explanation := MissingDataForSome;
       check_suggestion := None |}
  else
    let warnings1 :=
      match scope with
      | scope2 => [genericScope2Warning]
      | _ => []
      end in
    let emissions := map snd (map_to_list emissionsData) in
    match requestedVariant scope with
    | Some v =>
        if (0 <? length (hasOther v emissions))%nat then
          {| isComparable := false;
             warnings := warnings1 ++ [onlyOtherWarning v];
             explanation := Scope2Prevents;
             check_suggestion := None |}
        else
          {| isComparable := (length (errorsOf warnings1) =? 0)%nat;
             warnings := warnings1;
             explanation := if (length warnings1 =? 0)%nat
                            then ComparisonValid else ComparisonWithCaveats;
             check_suggestion := None |}
    | None =>
        {| isComparable := (length (errorsOf warnings1) =? 0)%nat;
           warnings := warnings1;
           explanation := if (length warnings1 =? 0)%nat
                          then ComparisonValid else ComparisonWithCaveats;
           check_suggestion := None |}
    end.

End Comparability.

(* ------------------------------------------------------------------ *)
(** ** The benchmarking engine *)
(* ------------------------------------------------------------------ *)

Module Engine.
Import Types.

Section WithMath.
Context {M : MathLib}.

Definition zeroStats : PeerGroupStats :=
  {| count := 0; mean := 0; median := 0; stdDev := 0;
     min := 0; max := 0; percentile25 := 0; percentile75 := 0 |}.

Definition calculatePeerStats (values : list Q) : PeerGroupStats :=
  if (length values =? 0)%nat then zeroStats
  else
    let sorted := sort values in
    let n := length sorted in
    let mean := sum values / num n in
    let median :=
      if (n mod 2 =? 0)%nat
      then (at_ sorted (n / 2 - 1) + at_ sorted (n / 2)) / 2
      else at_ sorted (index (Math_floor (num n / 2))) in
    let variance :=
      fold_left (fun sum v => sum + Math_pow (v - mean) 2) values 0 / num n in
    let stdDev := Math_sqrt variance in
    let percentile25 := at_ sorted (index (Math_floor (num n * (1 # 4)))) in
    let percentile75 := at_ sorted (index (Math_floor (num n * (3 # 4)))) in
    {| count := n; mean := mean; median := median; stdDev := stdDev;
       min := at_ sorted 0; max := at_ sorted (n - 1);
       percentile25 := percentile25; percentile75 := percentile75 |}.

End WithMath.

Definition calculatePercentileRank (value : Q) (values : list Q) : Q :=
  if (length values =? 0)%nat then 0
  else
    let sorted := sort values in
    let belowCount := length (List.filter (fun v => Qlt_bool v value) sorted) in
    let equalCount := length (List.filter (fun v => Qeq_bool v value) sorted) in
    ((num belowCount + (1 # 2) * num equalCount) / num (length sorted)) * 100.

End Engine.

(* ------------------------------------------------------------------ *)
(** ** [db/queries.ts]: the record store and its queries *)
(* ------------------------------------------------------------------ *)

Module Company.
Record CompanyRow := {
  nz_id : Z;
  company_name : string;
  jurisdiction : option string;
  sics_sector : option string;
  sics_sub_sector : option string;
  sics_industry : option string;
  lei : option string;
  latest_reported_year : option Z
}.
End Company.

Module Emissions.
(** The forty-five [scope3_cat_N], [scope3_cat_N_method] and
    [scope3_cat_N_relevancy] columns are read by building the column name
    from [N]; they are kept as three functions of [N]. *)
Record EmissionsRow := {
  id : Z;
  nz_id : Z;
  year : Z;
  scope1 : option Q;
  scope1_methodology : option string;
  scope2_lb : option Q;
  scope2_mb : option Q;
  scope2_lb_methodology : option string;
  scope2_mb_methodology : option string;
  scope3_total : option Q;
  scope3_cat : nat -> option Q;
  scope3_cat_method : nat -> option string;
  scope3_cat_relevancy : nat -> option string;
  organizational_boundary : option string;
  verification_status : option string
}.
End Emissions.

Module Queries.
Import Types.
Export Company Emissions.

(** The SQLite store: [companies] has [nz_id] as primary key, [emissions]
    is a table of rows. *)
Record Database := {
  companies : gmap Z CompanyRow;
  emissions : list EmissionsRow
}.

Inductive Scope := scope1 | scope2_lb | scope2_mb | scope3.

(** [const column = scope === 'scope3' ? 'scope3_total' : scope] and the
    read of that column. *)
Definition column (scope : Scope) (e : EmissionsRow) : option Q :=
  match scope with
  | scope1 => Emissions.scope1 e
  | scope2_lb => Emissions.scope2_lb e
  | scope2_mb => Emissions.scope2_mb e
  | scope3 => Emissions.scope3_total e
  end.

Definition getCompanyById (db : Database) (nzId : Z) : option CompanyRow :=
  companies db !! nzId.

Definition truthyZ (z : option Z) : bool :=
  match z with None => false | Some v => negb (v =? 0)%Z end.

Definition textOf (s : option string) : string :=
  match s with Some x => x | None => EmptyString end.

(** [LOWER(col) = LOWER(?)]; a NULL column never matches. *)
Definition sqlLowerEq (col : option string) (param : string) : bool :=
  match col with
  | None => false
  | Some c => String.eqb (toLowerCase c) (toLowerCase param)
  end.

Record PeerFilters := {
  f_jurisdiction : option string;
  f_sics_sector : option string;
  f_year : option Z
}.

(** The WHERE clause assembled by [getPeerStatistics]. *)
Definition peerWhere (scope : Scope) (filters : PeerFilters)
    (e : EmissionsRow) (c : CompanyRow) : bool :=
  match column scope e with
  | None => false
  | Some v => Qlt_bool 0 v
  end
  && (if truthyS (f_jurisdiction filters)
      then sqlLowerEq (Company.jurisdiction c) (textOf (f_jurisdiction filters))
      else true)
  && (if truthyS (f_sics_sector filters)
      then sqlLowerEq (Company.sics_sector c) (textOf (f_sics_sector filters))
      else true)
  && (if truthyZ (f_year filters)
      then (Emissions.year e =? default 0%Z (f_year filters))%Z
      else true).

(** [SELECT e.col AS value FROM emissions e JOIN companies c ON e.nz_id =
    c.nz_id WHERE ... ORDER BY e.col]. *)
Definition peerValues (db : Database) (scope : Scope) (filters : PeerFilters) : list Q :=
  sort
    (omap (fun e =>
             match companies db !! Emissions.nz_id e with
             | Some c => if peerWhere scope filters e c then column scope e else None
             | None => None
             end)
          (emissions db)).

Section WithMath.
Context {M : MathLib}.

(** Lines 472-493 of [getPeerStatistics]: the statistics of the ordered
    query result. *)
Definition statsOfOrdered (nums : list Q) : PeerGroupStats :=
  let count := length nums in
  let sum := JS.sum nums in
  let mean := sum / num count in
  let min := at_ nums 0 in
  let max := at_ nums (count - 1) in
  let mid := index (Math_floor (num count / 2)) in
  let median :=
    if (count mod 2 =? 0)%nat
    then (at_ nums (mid - 1) + at_ nums mid) / 2
    else at_ nums mid in
  let p25Idx := index (Math_floor (num count * (1 # 4))) in
  let p75Idx := index (Math_floor (num count * (3 # 4))) in
  let percentile25 := at_ nums p25Idx in
  let percentile75 := at_ nums p75Idx in
  let variance :=
    fold_left (fun acc v => acc + Math_pow (v - mean) 2) nums 0 / num count in
  let stdDev := Math_sqrt variance in
  {| count := count; mean := mean; median := median; min := min; max := max;
     stdDev := stdDev; percentile25 := percentile25; percentile75 := percentile75 |}.

Definition getPeerStatistics (db : Database) (scope : Scope) (filters : PeerFilters)
  : option PeerGroupStats :=
  let values := peerValues db scope filters in
  if (length values =? 0)%nat then None
  else Some (statsOfOrdered values).

Record BenchmarkResult := {
  company : CompanyRow;
  companyValue : option Q;
  companyYear : Z;
  jurisdictionStats : option PeerGroupStats;
  sectorStats : option PeerGroupStats;
  combinedStats : option PeerGroupStats;
  percentileInJurisdiction : option Z;
  percentileInSector : option Z;
  percentileInCombined : option Z
}.

(** The closure [calcPercentile] of [benchmarkCompany]. *)
Definition calcPercentile (value : option Q) (stats : option PeerGroupStats) : option Z :=
  match value, stats with
  | Some v, Some st =>
      if negb (truthy value) then None
      else if Qle_bool v (min st) then Some 0%Z
      else if Qle_bool (max st) v then Some 100%Z
      else
        let range := max st - min st in
        let position := v - min st in
        Some (Math_round ((position / range) * 100))
  | _, _ => None
  end.

(** [ORDER BY year DESC LIMIT 1] over the rows of one company. *)
Definition latestRow (rows : list EmissionsRow) : option EmissionsRow :=
  fold_left
    (fun best e =>
       match best with
       | None => Some e
       | Some b => if (Emissions.year b <? Emissions.year e)%Z then Some e else Some b
       end)
    rows None.

(** The emissions row read by [benchmarkCompany] and [compareCompanies]:
    the row of the given year when [year] is truthy, else the latest. *)
Definition emissionsRowFor (db : Database) (nzId : Z) (year : option Z)
  : option EmissionsRow :=
  let own := List.filter (fun e => (Emissions.nz_id e =? nzId)%Z) (emissions db) in
  if truthyZ year
  then List.find (fun e => (Emissions.year e =? default 0%Z year)%Z) own
  else latestRow own.

Definition benchmarkCompany (db : Database) (nzId : Z) (scope : Scope) (year : option Z)
  : option BenchmarkResult :=
  match getCompanyById db nzId with
  | None => None
  | Some company =>
      let emissionsResult := emissionsRowFor db nzId year in
      let companyValue :=
        match emissionsResult with Some r => column scope r | None => None end in
      let companyYear :=
        match emissionsResult with
        | Some r => Emissions.year r
        | None => default 2022%Z (Company.latest_reported_year company)
        end in
      let jurisdictionStats :=
        if truthyS (Company.jurisdiction company)
        then getPeerStatistics db scope
               {| f_jurisdiction := Company.jurisdiction company;
                  f_sics_sector := None; f_year := Some companyYear |}
        else None in
      let sectorStats :=
        if truthyS (Company.sics_sector company)
        then getPeerStatistics db scope
               {| f_jurisdiction := None;
                  f_sics_sector := Company.sics_sector company;
                  f_year := Some companyYear |}
        else None in
      let combinedStats :=
        if truthyS (Company.jurisdiction company) && truthyS (Company.sics_sector company)
        then getPeerStatistics db scope
               {| f_jurisdiction := Company.jurisdiction company;
                  f_sics_sector := Company.sics_sector company;
                  f_year := Some companyYear |}
        else None in
      Some {| company := company;
              companyValue := companyValue;
              companyYear := companyYear;
              jurisdictionStats := jurisdictionStats;
              sectorStats := sectorStats;
              combinedStats := combinedStats;
              percentileInJurisdiction := calcPercentile companyValue jurisdictionStats;
              percentileInSector := calcPercentile companyValue sectorStats;
              percentileInCombined := calcPercentile companyValue combinedStats |}
  end.

End WithMath.

Record Compared := {
  c_company : CompanyRow;
  c_emissions : option EmissionsRow
}.

(** [compareCompanies]: the loop pushes one entry per identifier found in
    [companies] and [continue]s past the others. *)
Fixpoint compareCompanies (db : Database) (nzIds : list Z) (year : option Z)
  : list Compared :=
  match nzIds with
  | [] => []
  | nzId :: rest =>
      match getCompanyById db nzId with
      | None => compareCompanies db rest year
      | Some company =>
          {| c_company := company; c_emissions := emissionsRowFor db nzId year |}
          :: compareCompanies db rest year
      end
  end.

End Queries.

(* ------------------------------------------------------------------ *)
(** ** [db/queries.ts]: data quality assessment *)
(* ------------------------------------------------------------------ *)

Module Assessment.
Import Types.

Record Scope3MethodEntry := {
  method : option string;
  methodTier : MethodQualityTier;
  relevancy : option string;
  value : option Q
}.

(** Warning strings of an assessment, kept as templates with their
    interpolated values ([formatNumber] is a rendering of [value]). *)
Inductive QualityWarning :=
| NonStandardBoundary (boundary : string)
| NoThirdPartyVerification
| LimitedAssurance
| Scope3NoMethodology (cat : nat) (value : Q)
| Scope3Modeled (cat : nat) (method : string) (value : Q)
| MethodologyChangesDetected (years : nat).

Inductive ChangeLabel :=
| Scope1Label
| Scope2LocationBasedLabel
| Scope2MarketBasedLabel
| Scope3CategoryLabel (cat : nat)
| OrganizationalBoundaryLabel.

Record MethodChange := {
  scope : ChangeLabel;
  previousMethod : option string;
  currentMethod : option string
}.

Record YearChanges := {
  yc_year : Z;
  changes : list MethodChange
}.

Record EnhancedDataQualityAssessment := {
  nz_id : Z;
  year : Z;
  boundaryScore : QualityScore;
  boundaryType : option string;
  boundaryIsStandard : bool;
  verificationScore : QualityScore;
  verificationType : option string;
  scope1MethodologyScore : QualityScore;
  scope2LBMethodologyScore : QualityScore;
  scope2MBMethodologyScore : QualityScore;
  scope3MethodQuality : gmap nat Scope3MethodEntry;
  overallScore : QualityScore;
  warnings : list QualityWarning;
  methodologyConsistent : bool;
  methodologyChanges : list (Z * MethodChange)
}.

End Assessment.

Module Quality.
Import Types Queries.
Import Assessment.

#[local] Open Scope string_scope.

Definition STANDARD_BOUNDARIES : list string :=
  ["Operational control"; "Financial control"; "Equity share"].

Definition assessBoundaryQuality (boundary : option string) : QualityScore * bool :=
  if negb (truthyS boundary) then (LOW, false)
  else
    let b := textOf boundary in
    if includesS STANDARD_BOUNDARIES b then (HIGH, true)
    else
      let boundaryLower := toLowerCase b in
      if includes boundaryLower "operational" || includes boundaryLower "financial"
      then (HIGH, true)
      else if includes boundaryLower "equity" then (MEDIUM, true)
      else (LOW, false).

Definition assessVerificationQuality (verification : option string) : QualityScore :=
  if negb (truthyS verification) then LOW
  else
    let verificationLower := toLowerCase (textOf verification) in
    if includes verificationLower "reasonable" then HIGH
    else if includes verificationLower "limited" then MEDIUM
    else MEDIUM.

Definition assessS12MethodologyQuality (methodology : option string) : QualityScore :=
  if negb (truthyS methodology) then LOW
  else
    let methodLower := toLowerCase (textOf methodology) in
    if includes methodLower "ghg protocol"
       || includes methodLower "iso 14064"
       || includes methodLower "api compendium"
       || includes methodLower "ipieca"
    then HIGH
    else if includes methodLower "eu ets"
            || includes methodLower "epa"
            || includes methodLower "defra"
            || includes methodLower "ipcc"
    then MEDIUM
    else MEDIUM.

Fixpoint lookupTier (table : list (string * MethodQualityTier)) (m : string)
  : option MethodQualityTier :=
  match table with
  | [] => None
  | (k, t) :: rest => if String.eqb k m then Some t else lookupTier rest m
  end.

Definition getScope3MethodTier (method : option string) : MethodQualityTier :=
  if negb (truthyS method) || String.eqb (textOf method) "—" then UNKNOWN
  else default UNKNOWN (lookupTier SCOPE3_METHOD_QUALITY (textOf method)).

Definition scoreValue (s : QualityScore) : Z :=
  match s with HIGH => 3 | MEDIUM => 2 | LOW => 1 end.

Definition calculateOverallScore
    (boundaryScore verificationScore methodologyScore : QualityScore) : QualityScore :=
  let total :=
    (scoreValue boundaryScore + scoreValue verificationScore
     + scoreValue methodologyScore)%Z in
  let avg := (inject_Z total / 3)%Q in
  if Qle_bool (5 # 2) avg then HIGH
  else if Qle_bool (3 # 2) avg then MEDIUM
  else LOW.

(** One iteration of the [for (cat = 1; cat <= 15; cat++)] loop: the entry
    stored under [cat] and the warnings pushed. *)
Definition categoryEntry (emissions : EmissionsRow) (cat : nat) : Scope3MethodEntry :=
  {| method := scope3_cat_method emissions cat;
     methodTier := getScope3MethodTier (scope3_cat_method emissions cat);
     relevancy := scope3_cat_relevancy emissions cat;
     value := scope3_cat emissions cat |}.

Definition categoryWarnings (emissions : EmissionsRow) (cat : nat) : list QualityWarning :=
  match scope3_cat emissions cat with
  | Some v =>
      if truthy (Some v) && Qlt_bool 0 v then
        match getScope3MethodTier (scope3_cat_method emissions cat) with
        | UNKNOWN => [Scope3NoMethodology cat v]
        | MODELED =>
            if Qlt_bool 1000000 v
            then [Scope3Modeled cat (textOf (scope3_cat_method emissions cat)) v]
            else []
        | PRIMARY => []
        end
      else []
  | None => []
  end.

Definition categories : list nat := seq 1 15.

Definition assessDataQuality (emissions : EmissionsRow) (sector : option string)
  : EnhancedDataQualityAssessment :=
  let '(boundaryScore, boundaryIsStandard) :=
    assessBoundaryQuality (Emissions.organizational_boundary emissions) in
  let warnings1 :=
    if negb boundaryIsStandard && truthyS (Emissions.organizational_boundary emissions)
    then [NonStandardBoundary (textOf (Emissions.organizational_boundary emissions))]
    else [] in
  let verificationScore :=
    assessVerificationQuality (Emissions.verification_status emissions) in
  let warnings2 :=
    match verificationScore with
    | LOW => (warnings1 ++ [NoThirdPartyVerification])%list
    | MEDIUM =>
        match Emissions.verification_status emissions with
        | Some v =>
            if includes (toLowerCase v) "limited"
            then (warnings1 ++ [LimitedAssurance])%list else warnings1
        | None => warnings1
        end
    | HIGH => warnings1
    end in
  let scope1MethodologyScore :=
    assessS12MethodologyQuality (Emissions.scope1_methodology emissions) in
  let scope2LBMethodologyScore :=
    assessS12MethodologyQuality (Emissions.scope2_lb_methodology emissions) in
  let scope2MBMethodologyScore :=
    assessS12MethodologyQuality (Emissions.scope2_mb_methodology emissions) in
  let scope3MethodQuality : gmap nat Scope3MethodEntry :=
    list_to_map (map (fun cat => (cat, categoryEntry emissions cat)) categories) in
  let warnings3 := (warnings2 ++ flat_map (categoryWarnings emissions) categories)%list in
  let overallScore :=
    calculateOverallScore boundaryScore verificationScore scope1MethodologyScore in
  {| nz_id := Emissions.nz_id emissions;
     year := Emissions.year emissions;
     boundaryScore := boundaryScore;
     boundaryType := Emissions.organizational_boundary emissions;
     boundaryIsStandard := boundaryIsStandard;
     verificationScore := verificationScore;
     verificationType := Emissions.verification_status emissions;
     scope1MethodologyScore := scope1MethodologyScore;
     scope2LBMethodologyScore := scope2LBMethodologyScore;
     scope2MBMethodologyScore := scope2MBMethodologyScore;
     scope3MethodQuality := scope3MethodQuality;
     overallScore := overallScore;
     warnings := warnings3;
     methodologyConsistent := true;
     methodologyChanges := [] |}.

End Quality.

(* ------------------------------------------------------------------ *)
(** ** [db/queries.ts]: methodology changes and multi-company comparison *)
(* ------------------------------------------------------------------ *)

Module Compare.
Import Types Queries.
Import Assessment Quality.

(** A stable sort of rows on a key order, for [ORDER BY year] and
    [rows.sort((a, b) => a.year - b.year)]. *)
Fixpoint insertRow (le : EmissionsRow -> EmissionsRow -> bool)
    (x : EmissionsRow) (l : list EmissionsRow) : list EmissionsRow :=
  match l with
  | [] => [x]
  | y :: t => if le x y then x :: y :: t else y :: insertRow le x t
  end.

Definition sortRows (le : EmissionsRow -> EmissionsRow -> bool)
    (l : list EmissionsRow) : list EmissionsRow :=
  fold_right (insertRow le) [] l.

Definition byYearAsc (a b : EmissionsRow) : bool :=
  (Emissions.year a <=? Emissions.year b)%Z.

Definition byYearDesc (a b : EmissionsRow) : bool :=
  (Emissions.year b <=? Emissions.year a)%Z.

Definition getCompanyEmissions (db : Database) (nzId : Z) (year : option Z)
  : list EmissionsRow :=
  let own := List.filter (fun e => (Emissions.nz_id e =? nzId)%Z) (emissions db) in
  if truthyZ year
  then List.filter (fun e => (Emissions.year e =? default 0%Z year)%Z) own
  else sortRows byYearDesc own.

Definition optS_eqb := Comparability.optS_eqb.

Definition categoryChange (prev curr : EmissionsRow) (cat : nat) : list MethodChange :=
  let prevMethod := scope3_cat_method prev cat in
  let currMethod := scope3_cat_method curr cat in
  if negb (optS_eqb prevMethod currMethod) && (truthyS prevMethod || truthyS currMethod)
  then [{| scope := Scope3CategoryLabel cat;
           previousMethod := prevMethod; currentMethod := currMethod |}]
  else [].

Definition fieldChange (label : ChangeLabel) (prev curr : option string)
  : list MethodChange :=
  if negb (optS_eqb prev curr)
  then [{| scope := label; previousMethod := prev; currentMethod := curr |}]
  else [].

(** The body of the loop over consecutive rows. *)
Definition yearChangesOf (prev curr : EmissionsRow) : list MethodChange :=
  fieldChange Scope1Label
    (Emissions.scope1_methodology prev) (Emissions.scope1_methodology curr)
  ++ fieldChange Scope2LocationBasedLabel
       (Emissions.scope2_lb_methodology prev) (Emissions.scope2_lb_methodology curr)
  ++ fieldChange Scope2MarketBasedLabel
       (Emissions.scope2_mb_methodology prev) (Emissions.scope2_mb_methodology curr)
  ++ flat_map (categoryChange prev curr) categories
  ++ fieldChange OrganizationalBoundaryLabel
       (Emissions.organizational_boundary prev) (Emissions.organizational_boundary curr).

Fixpoint consecutiveChanges (sorted : list EmissionsRow) : list YearChanges :=
  match sorted with
  | prev :: ((curr :: _) as rest) =>
      let yearChanges := yearChangesOf prev curr in
      (if (0 <? length yearChanges)%nat
       then [{| yc_year := Emissions.year curr; changes := yearChanges |}]
       else [])
      ++ consecutiveChanges rest
  | _ => []
  end.

Definition detectMethodologyChanges (db : Database) (nzId : Z) : list YearChanges :=
  let emissions := getCompanyEmissions db nzId None in
  if (length emissions <? 2)%nat then []
  else consecutiveChanges (sortRows byYearAsc emissions).

Record CompanyQuality := {
  assessment : option EnhancedDataQualityAssessment;
  q_methodologyChanges : list YearChanges;
  companyInfo : option CompanyRow
}.

Definition getCompanyQualityAssessment (db : Database) (nzId : Z) (year : option Z)
  : CompanyQuality :=
  let company := getCompanyById db nzId in
  let emissions := getCompanyEmissions db nzId year in
  let methodologyChanges := detectMethodologyChanges db nzId in
  match emissions with
  | [] =>
      {| assessment := None;
         q_methodologyChanges := methodologyChanges;
         companyInfo := company |}
  | targetEmissions :: _ =>
      let a :=
        assessDataQuality targetEmissions
          (match company with Some c => Company.sics_sector c | None => None end) in
      let hasMethodologyChanges := (0 <? length methodologyChanges)%nat in
      let a' :=
        {| Assessment.nz_id := Assessment.nz_id a;
           Assessment.year := Assessment.year a;
           boundaryScore := boundaryScore a;
           boundaryType := boundaryType a;
           boundaryIsStandard := boundaryIsStandard a;
           verificationScore := verificationScore a;
           verificationType := verificationType a;
           scope1MethodologyScore := scope1MethodologyScore a;
           scope2LBMethodologyScore := scope2LBMethodologyScore a;
           scope2MBMethodologyScore := scope2MBMethodologyScore a;
           scope3MethodQuality := scope3MethodQuality a;
           overallScore := overallScore a;
           Assessment.warnings :=
             if hasMethodologyChanges
             then Assessment.warnings a
                  ++ [MethodologyChangesDetected (length methodologyChanges)]
             else Assessment.warnings a;
           methodologyConsistent := negb hasMethodologyChanges;
           methodologyChanges :=
             if hasMethodologyChanges
             then flat_map (fun mc => map (fun c => (yc_year mc, c)) (changes mc))
                    methodologyChanges
             else Assessment.methodologyChanges a |} in
      {| assessment := Some a';
         q_methodologyChanges := methodologyChanges;
         companyInfo := company |}
  end.

(** [companyInfo?.company_name || `Company ${nzId}`]. *)
Inductive CompanyLabel :=
| KnownName (name : string)
| CompanyNumber (nzId : Z).

Record QualityRow := {
  q_nzId : Z;
  q_name : CompanyLabel;
  q_assessment : option EnhancedDataQualityAssessment
}.

Inductive CompareWarning :=
| BoundariesDiffer (boundaries : list string)
| VerificationLevelsDiffer
| NonStandardBoundaries (names : list CompanyLabel)
| Scope3Variance (lo hi : Q)
| CategoryCoverageVaries (minCats maxCats : nat).

(** [Set.prototype.add] on a [Set<string>], in insertion order. *)
Definition setAdd (s : list string) (x : string) : list string :=
  if includesS s x then s else s ++ [x].

Definition addTruthy (s : list string) (x : option string) : list string :=
  if truthyS x then setAdd s (textOf x) else s.

Definition labelOf (info : option CompanyRow) (nzId : Z) : CompanyLabel :=
  match info with
  | Some c =>
      if truthyS (Some (Company.company_name c))
      then KnownName (Company.company_name c) else CompanyNumber nzId
  | None => CompanyNumber nzId
  end.

Definition qualityRowOf (db : Database) (year : option Z) (nzId : Z) : QualityRow :=
  let r := getCompanyQualityAssessment db nzId year in
  {| q_nzId := nzId;
     q_name := labelOf (companyInfo r) nzId;
     q_assessment := assessment r |}.

Definition typeOf (f : EnhancedDataQualityAssessment -> option string) (row : QualityRow)
  : option string :=
  match q_assessment row with Some a => f a | None => None end.

Definition compareDataQuality (db : Database) (nzIds : list Z) (year : option Z)
  : list QualityRow * list CompareWarning :=
  let companies := map (qualityRowOf db year) nzIds in
  let boundaries :=
    fold_left (fun s row => addTruthy s (typeOf boundaryType row)) companies [] in
  let verifications :=
    fold_left (fun s row => addTruthy s (typeOf verificationType row)) companies [] in
  let w1 :=
    if (1 <? length boundaries)%nat then [BoundariesDiffer boundaries] else [] in
  let w2 :=
    if (1 <? length verifications)%nat then
      let hasReasonable :=
        existsb (fun v => includes (toLowerCase v) "reasonable") verifications in
      let hasLimited :=
        existsb (fun v => includes (toLowerCase v) "limited") verifications in
      let hasNone :=
        existsb (fun c => negb (truthyS (typeOf verificationType c))) companies in
      if hasReasonable && (hasLimited || hasNone) then [VerificationLevelsDiffer] else []
    else [] in
  let nonStandard :=
    List.filter
      (fun c => match q_assessment c with
                | Some a => negb (boundaryIsStandard a)
                | None => false
                end)
      companies in
  let w3 :=
    if (0 <? length nonStandard)%nat
    then [NonStandardBoundaries (map q_name nonStandard)] else [] in
  (companies, w1 ++ w2 ++ w3).

Record DominantCategory := {
  dc_num : nat;
  dc_value : Q;
  dc_percent : Q
}.

Record Scope3CoverageSummary := {
  categoriesReported : nat;
  categoriesWithData : list nat;
  categoriesWithoutData : list nat;
  totalValue : option Q;
  categoryValues : gmap nat Q;
  dominantCategory : option DominantCategory
}.

Definition hasData (emissions : EmissionsRow) (i : nat) : bool :=
  match scope3_cat emissions i with
  | Some v => truthy (Some v) && Qlt_bool 0 v
  | None => false
  end.

(** [maxCategory] after the loop: the first category holding the largest
    positive value, [{num: 0, value: 0}] when there is none. *)
Definition maxCategory (emissions : EmissionsRow) : nat * Q :=
  fold_left
    (fun best i =>
       match scope3_cat emissions i with
       | Some v => if hasData emissions i && Qlt_bool (snd best) v then (i, v) else best
       | None => best
       end)
    categories (0%nat, 0).

(** [getScope3CoverageSummary], without the display strings [name] and
    [coverageNote]. *)
Definition getScope3CoverageSummary (emissions : EmissionsRow) : Scope3CoverageSummary :=
  let withData := List.filter (hasData emissions) categories in
  let withoutData := List.filter (fun i => negb (hasData emissions i)) categories in
  let values : gmap nat Q :=
    list_to_map
      (omap (fun i => if hasData emissions i
                      then option_map (pair i) (scope3_cat emissions i) else None)
            categories) in
  let best := maxCategory emissions in
  let total := Emissions.scope3_total emissions in
  let dominant :=
    match total with
    | Some t =>
        if (0 <? fst best)%nat && truthy total && Qlt_bool 0 t
        then Some {| dc_num := fst best; dc_value := snd best;
                     dc_percent := (snd best / t) * 100 |}
        else None
    | None => None
    end in
  {| categoriesReported := length withData;
     categoriesWithData := withData;
     categoriesWithoutData := withoutData;
     totalValue := total;
     categoryValues := values;
     dominantCategory := dominant |}.

Record ComparedScope3 := {
  cs_company : CompanyRow;
  cs_emissions : option EmissionsRow;
  scope3Coverage : option Scope3CoverageSummary
}.

(** The company loop of [compareCompaniesWithScope3]: identifiers absent
    from [companies] are skipped by [continue]. *)
Fixpoint comparedRows (db : Database) (nzIds : list Z) (year : option Z)
  : list ComparedScope3 :=
  match nzIds with
  | [] => []
  | nzId :: rest =>
      match getCompanyById db nzId with
      | None => comparedRows db rest year
      | Some company =>
          let emissions := emissionsRowFor db nzId year in
          {| cs_company := company;
             cs_emissions := emissions;
             scope3Coverage := option_map getScope3CoverageSummary emissions |}
          :: comparedRows db rest year
      end
  end.

Definition Qmax (a b : Q) : Q := if Qle_bool a b then b else a.
Definition Qmin (a b : Q) : Q := if Qle_bool a b then a else b.

(** [Math.max(...xs)] and [Math.min(...xs)] on a non-empty array. *)
Definition maxOf (xs : list Q) : Q :=
  match xs with [] => 0 | x :: t => fold_left Qmax t x end.
Definition minOf (xs : list Q) : Q :=
  match xs with [] => 0 | x :: t => fold_left Qmin t x end.

Record Scope3Comparison := {
  cmp_companies : list ComparedScope3;
  scope3VarianceWarning : option CompareWarning;
  comparabilityWarnings : list CompareWarning
}.

Definition compareCompaniesWithScope3 (db : Database) (nzIds : list Z) (year : option Z)
  : Scope3Comparison :=
  let companies := comparedRows db nzIds year in
  let scope3Totals :=
    omap (fun c =>
            match cs_emissions c with
            | Some e =>
                match Emissions.scope3_total e with
                | Some t => if truthy (Some t) && Qlt_bool 0 t then Some t else None
                | None => None
                end
            | None => None
            end)
         companies in
  let variance :=
    if (2 <=? length scope3Totals)%nat then
      let hi := maxOf scope3Totals in
      let lo := minOf scope3Totals in
      if Qlt_bool 0 lo && Qlt_bool 10 (hi / lo) then Some (Scope3Variance lo hi) else None
    else None in
  let categoryCounts :=
    omap (fun c => option_map categoriesReported (scope3Coverage c)) companies in
  let coverage :=
    if (2 <=? length categoryCounts)%nat then
      let maxCats := fold_left Nat.max categoryCounts 0%nat in
      let minCats := fold_left Nat.min (tl categoryCounts) (hd 0%nat categoryCounts) in
      if (5 <=? maxCats - minCats)%nat
      then [CategoryCoverageVaries minCats maxCats] else []
    else [] in
  {| cmp_companies := companies;
     scope3VarianceWarning := variance;
     comparabilityWarnings :=
       match variance with Some w => [w] | None => [] end ++ coverage |}.

End Compare.

(* ------------------------------------------------------------------ *)
(** ** Year-to-year comparison: [calculateCAGR] *)
(* ------------------------------------------------------------------ *)

Module YearComparison.

Section WithMath.
Context {M : MathLib}.

(** [Math.pow(endValue / beginValue, 1 / yearsApart) - 1], times 100. *)
Definition cagrPercent (beginValue endValue : Q) (yearsApart : Z) : Q :=
  (Math_pow (endValue / beginValue) (1 / inject_Z yearsApart) - 1) * 100.

Definition calculateCAGR (beginValue endValue : option Q) (yearsApart : Z) : option Q :=
  match beginValue, endValue with
  | Some b, Some e =>
      if negb (truthy beginValue) || negb (truthy endValue)
         || Qle_bool b 0 || (yearsApart <=? 1)%Z
      then None
      else Some (cagrPercent b e yearsApart)
  | _, _ => None
  end.

End WithMath.

End YearComparison.

(* ------------------------------------------------------------------ *)
(** ** Time-series peer analytics: [analyzeTrend] *)
(* ------------------------------------------------------------------ *)

Module Trends.

Record PeerTrendDataPoint := {
  year : Z;
  count : nat;
  mean : Q;
  median : Q;
  min : Q;
  max : Q;
  percentile25 : Q;
  percentile75 : Q
}.

Inductive Direction := increasing | decreasing | stable | insufficient_data.

Record TrendAnalysis := {
  overallTrendDirection : Direction;
  meanChange : option Q;
  meanChangePercent : option Q;
  averageAnnualChange : option Q;
  averageAnnualGrowthRate : option Q
}.

(** The loop [for (i = 1; i < dataPoints.length; i++)]: the running total
    of consecutive differences and their number. *)
Fixpoint yoy (points : list PeerTrendDataPoint) (acc : Q * nat) : Q * nat :=
  match points with
  | p :: ((q :: _) as rest) => yoy rest (fst acc + (mean q - mean p), S (snd acc))
  | _ => acc
  end.

Section WithMath.
Context {M : MathLib}.

(** Division is exact here; the source's division by a zero first mean
    (an infinite or undefined percentage) is outside this model. *)
Definition analyzeTrend (dataPoints : list PeerTrendDataPoint) : TrendAnalysis :=
  if (length dataPoints <? 2)%nat then
    {| overallTrendDirection := insufficient_data;
       meanChange := None;
       meanChangePercent := None;
       averageAnnualChange := None;
       averageAnnualGrowthRate := None |}
  else
    match dataPoints, last dataPoints with
    | firstPoint :: _, Some lastPoint =>
        let yearsApart := (year lastPoint - year firstPoint)%Z in
        let meanChange := mean lastPoint - mean firstPoint in
        let meanChangePercent := (meanChange / mean firstPoint) * 100 in
        let '(totalYoYChange, yoyCount) := yoy dataPoints (0, 0%nat) in
        let averageAnnualChange :=
          if (0 <? yoyCount)%nat then Some (totalYoYChange / num yoyCount) else None in
        let averageAnnualGrowthRate :=
          if (0 <? yearsApart)%Z && Qlt_bool 0 (mean firstPoint)
          then Some ((Math_pow (mean lastPoint / mean firstPoint)
                               (1 / inject_Z yearsApart) - 1) * 100)
          else None in
        let overallTrendDirection :=
          if Qlt_bool 5 (Qabs meanChangePercent)
          then (if Qlt_bool 0 meanChangePercent then increasing else decreasing)
          else stable in
        {| overallTrendDirection := overallTrendDirection;
           meanChange := Some meanChange;
           meanChangePercent := Some meanChangePercent;
           averageAnnualChange := averageAnnualChange;
           averageAnnualGrowthRate := averageAnnualGrowthRate |}
    | _, _ =>
        {| overallTrendDirection := insufficient_data;
           meanChange := None;
           meanChangePercent := None;
           averageAnnualChange := None;
           averageAnnualGrowthRate := None |}
    end.

End WithMath.

End Trends.

(* ------------------------------------------------------------------ *)
(** ** The tool dispatcher: [nzdpu_benchmark] *)
(* ------------------------------------------------------------------ *)

Module Server.
Import Types Queries Compare.

Record BenchmarkArgs := {
  mode : option string;
  company_id : option Z;
  company_ids : option (list Z);
  scope : option Scope;
  year : option Z;
  jurisdiction : option string;
  sector : option string;
  sub_sector : option string;
  limit : option Z
}.

(** Errors thrown by the handler; the dispatcher's [catch] turns each into a
    response with [isError: true] and the message as text. *)
Inductive ToolError :=
| ModeRequired
| CompanyIdRequired
| CompanyNotFound (companyId : Z)
| FilterRequired
| UnknownMode (mode : string).

(** The data a successful response is rendered from. *)
Inductive Payload :=
| SingleReport (result : BenchmarkResult)
| NoCompaniesFound
| CompareReport (results : Scope3Comparison)
                (qualityComparison : list QualityRow * list CompareWarning)
| NoDataFound
| PeerStatsReport (stats : PeerGroupStats).

Inductive ToolResponse :=
| Content (p : Payload)
| IsError (e : ToolError).

Fixpoint insertCompany (x : CompanyRow) (l : list CompanyRow) : list CompanyRow :=
  match l with
  | [] => [x]
  | y :: t =>
      if String.leb (Company.company_name x) (Company.company_name y)
      then x :: y :: t else y :: insertCompany x t
  end.

(** [listCompanies] as called by compare mode: the three equality filters,
    [ORDER BY company_name LIMIT limit]. *)
Definition listCompanies (db : Database)
    (jurisdiction sics_sector sics_sub_sector : option string) (limit : option Z)
  : list CompanyRow :=
  let keep (c : CompanyRow) :=
    (if truthyS jurisdiction
     then sqlLowerEq (Company.jurisdiction c) (textOf jurisdiction) else true)
    && (if truthyS sics_sector
        then sqlLowerEq (Company.sics_sector c) (textOf sics_sector) else true)
    && (if truthyS sics_sub_sector
        then sqlLowerEq (Company.sics_sub_sector c) (textOf sics_sub_sector) else true) in
  let rows := List.filter keep (map snd (map_to_list (companies db))) in
  let limit := if truthyZ limit then default 20%Z limit else 20%Z in
  firstn (Z.to_nat limit) (fold_right insertCompany [] rows).

Section WithMath.
Context {M : MathLib}.

Definition singleMode (db : Database) (args : BenchmarkArgs) : ToolResponse :=
  let scope := default scope1 (scope args) in
  if negb (truthyZ (company_id args)) then IsError CompanyIdRequired
  else
    let companyId := default 0%Z (company_id args) in
    match benchmarkCompany db companyId scope (year args) with
    | None => IsError (CompanyNotFound companyId)
    | Some result => Content (SingleReport result)
    end.

Definition compareMode (db : Database) (args : BenchmarkArgs) : ToolResponse :=
  let limit := if truthyZ (limit args) then limit args else Some 20%Z in
  let nzIds :=
    match company_ids args with
    | Some (id :: ids) => id :: ids
    | _ =>
        map Company.nz_id
          (listCompanies db (jurisdiction args) (sector args) (sub_sector args) limit)
    end in
  if (length nzIds =? 0)%nat then Content NoCompaniesFound
  else
    Content (CompareReport (compareCompaniesWithScope3 db nzIds (year args))
                           (compareDataQuality db nzIds (year args))).

Definition peerStatsMode (db : Database) (args : BenchmarkArgs) : ToolResponse :=
  let scope := default scope1 (scope args) in
  if negb (truthyS (jurisdiction args)) && negb (truthyS (sector args))
  then IsError FilterRequired
  else
    match getPeerStatistics db scope
            {| f_jurisdiction := jurisdiction args;
               f_sics_sector := sector args;
               f_year := year args |} with
    | None => Content NoDataFound
    | Some stats => Content (PeerStatsReport stats)
    end.

Definition nzdpu_benchmark (db : Database) (args : BenchmarkArgs) : ToolResponse :=
  if negb (truthyS (mode args)) then IsError ModeRequired
  else
    let m := textOf (mode args) in
    if String.eqb m "single" then singleMode db args
    else if String.eqb m "compare" then compareMode db args
    else if String.eqb m "peer_stats" then peerStatsMode db args
    else IsError (UnknownMode m).

End WithMath.

End Server.

(* ------------------------------------------------------------------ *)
(** ** Vocabulary of the specification *)
(* ------------------------------------------------------------------ *)

Module Spec.
Import Types.

(** The single Scope 2 variant a record reports, if it reports exactly one. *)
Definition soleVariant (e : EmissionsData) : option Scope2Methodology :=
  match scope2_location_based e, scope2_market_based e with
  | Some _, None => Some location_based
  | None, Some _ => Some market_based
  | _, _ => None
  end.

(** A check is blocked by a methodology mismatch: not comparable, with an
    error-severity Scope 2 mismatch among its warnings. *)
Definition blocked (r : ComparabilityCheck) : Prop :=
  isComparable r = false
  /\ exists w, In w (warnings r) /\ type w = scope2_mismatch /\ severity w = error.

Definition countBelow (value : Q) (sample : list Q) : nat :=
  length (List.filter (fun v => Qlt_bool v value) sample).

Definition countEqual (value : Q) (sample : list Q) : nat :=
  length (List.filter (fun v => Qeq_bool v value) sample).

(** The mid-rank formula [(countBelow + 0.5 * countEqual) / n * 100]. *)
Definition midRank (value : Q) (sample : list Q) : Q :=
  ((num (countBelow value sample) + (1 # 2) * num (countEqual value sample))
   / num (length sample)) * 100.

(** [min <= percentile25 <= median <= percentile75 <= max]. *)
Definition quartilesOrdered (s : PeerGroupStats) : Prop :=
  min s <= percentile25 s
  /\ percentile25 s <= median s
  /\ median s <= percentile75 s
  /\ percentile75 s <= max s.

(** Ascending order, read through indices. *)
Definition ascending (l : list Q) : Prop :=
  forall i j, (i <= j)%nat -> (j < length l)%nat -> at_ l i <= at_ l j.

(** The median expression shared by both statistics functions, after the
    index computations are carried out. *)
Definition medianOf (l : list Q) : Q :=
  let n := length l in
  if (n mod 2 =? 0)%nat
  then (at_ l (n / 2 - 1) + at_ l (n / 2)) / 2
  else at_ l (n / 2).


End Spec.

(* ------------------------------------------------------------------ *)
(** ** Concrete records and stores *)
(* ------------------------------------------------------------------ *)

Module Examples.
Import Types Queries.

#[local] Open Scope string_scope.

Definition emissionsData (y : Z) (lb mb : option Q) (boundary : option string)
  : EmissionsData :=
  {| company_id := 1; Types.year := y;
     scope1_emissions := Some 500;
     Types.scope1_methodology := Some "GHG Protocol";
     scope2_location_based := lb;
     scope2_market_based := mb;
     Types.scope2_lb_methodology := None;
     Types.scope2_mb_methodology := None;
     Types.scope3_total := None;
     scope3_categories := None;
     Types.organizational_boundary := boundary;
     Types.verification_status := None |}.

(** Same year and boundary, one location-based and one market-based. *)
Definition gridAverage : EmissionsData :=
  emissionsData 2022 (Some 120) None (Some "Operational control").
Definition contractual : EmissionsData :=
  emissionsData 2022 None (Some 80) (Some "Operational control").
Definition contractual2021 : EmissionsData :=
  emissionsData 2021 None (Some 80) (Some "Equity share").

Definition companyRow (nzId : Z) (name j s : string) : CompanyRow :=
  {| Company.nz_id := nzId;
     company_name := name;
     jurisdiction := Some j;
     sics_sector := Some s;
     sics_sub_sector := None;
     sics_industry := None;
     lei := None;
     latest_reported_year := Some 2022%Z |}.

Definition emissionsRow (nzId y : Z) (s1 : option Q)
    (boundary verification method1 methodLB : option string)
    (cat : nat -> option Q) (catMethod : nat -> option string) : EmissionsRow :=
  {| Emissions.id := nzId;
     Emissions.nz_id := nzId;
     Emissions.year := y;
     Emissions.scope1 := s1;
     Emissions.scope1_methodology := method1;
     Emissions.scope2_lb := None;
     Emissions.scope2_mb := None;
     Emissions.scope2_lb_methodology := methodLB;
     Emissions.scope2_mb_methodology := None;
     Emissions.scope3_total := None;
     Emissions.scope3_cat := cat;
     Emissions.scope3_cat_method := catMethod;
     Emissions.scope3_cat_relevancy := fun _ => None;
     Emissions.organizational_boundary := boundary;
     Emissions.verification_status := verification |}.

Definition plainRow (nzId y : Z) (s1 : Q) : EmissionsRow :=
  emissionsRow nzId y (Some s1) None None None None (fun _ => None) (fun _ => None).

(** Three companies of one jurisdiction reporting Scope 1 for 2022. *)
Definition store : Database :=
  {| companies :=
       list_to_map [ (1%Z, companyRow 1 "Alpha" "NZ" "Energy");
                     (2%Z, companyRow 2 "Beta" "NZ" "Tech");
                     (3%Z, companyRow 3 "Gamma" "NZ" "Tech") ];
     emissions := [plainRow 3 2022 100; plainRow 1 2022 10; plainRow 2 2022 20] |}.

Definition emptyStore : Database :=
  {| companies := ∅; emissions := [] |}.

Definition nzFilter : PeerFilters :=
  {| f_jurisdiction := Some "NZ"; f_sics_sector := None; f_year := Some 2022%Z |}.

(** High boundary, no verification, medium methodology. *)
Definition mixedQualityRow : EmissionsRow :=
  emissionsRow 1 2022 (Some 10) (Some "Operational control") None
    (Some "EPA emission factors") None (fun _ => None) (fun _ => None).

(** The same three deciding fields, other Scope 2 and Scope 3 methods. *)
Definition mixedQualityRow' : EmissionsRow :=
  emissionsRow 1 2022 (Some 10) (Some "Operational control") None
    (Some "EPA emission factors") (Some "GHG Protocol")
    (fun c => if (c =? 1)%nat then Some 2000000 else None)
    (fun c => if (c =? 1)%nat then Some "Spend-based method" else None).

Definition trendPoint (y : Z) (m : Q) : Trends.PeerTrendDataPoint :=
  {| Trends.year := y; Trends.count := 3; Trends.mean := m; Trends.median := m;
     Trends.min := m; Trends.max := m;
     Trends.percentile25 := m; Trends.percentile75 := m |}.

Definition benchmarkArgs (m : string) (id : option Z) (ids : option (list Z))
  : Server.BenchmarkArgs :=
  {| Server.mode := Some m;
     Server.company_id := id;
     Server.company_ids := ids;
     Server.scope := None;
     Server.year := None;
     Server.jurisdiction := None;
     Server.sector := None;
     Server.sub_sector := None;
     Server.limit := None |}.

End Examples.

(* ------------------------------------------------------------------ *)
(** ** Vocabulary for the further properties *)
(* ------------------------------------------------------------------ *)

Module Vocabulary.
Import Queries.


(** The rows stored for one company. *)
Definition rowsOf (db : Database) (nzId : Z) : list EmissionsRow :=
  List.filter (fun e => (Emissions.nz_id e =? nzId)%Z) (emissions db).

(** Years in non-increasing order, read through positions. *)
Definition newestFirst (rows : list EmissionsRow) : Prop :=
  forall i j a b, (i <= j)%nat -> rows !! i = Some a -> rows !! j = Some b ->
                  (Emissions.year b <= Emissions.year a)%Z.

(** Years in non-decreasing order, read through positions. *)
Definition oldestFirst (years : list Z) : Prop :=
  forall i j a b, (i <= j)%nat -> years !! i = Some a -> years !! j = Some b ->
                  (a <= b)%Z.

(** Years in strictly increasing order. *)
Definition strictlyIncreasing (years : list Z) : Prop :=
  forall i j a b, (i < j)%nat -> years !! i = Some a -> years !! j = Some b ->
                  (a < b)%Z.

End Vocabulary.

(* ------------------------------------------------------------------ *)
(** ** Year comparison: [calculatePercentChange], [compareYears],
       [getTimeSeries] *)
(* ------------------------------------------------------------------ *)

Module Years.
Import Queries YearComparison.

Record YearComparisonResult := {
  nz_id : Z;
  company_name : string;
  year1 : Z;
  year2 : Z;
  yearsApart : Z;
  scope1_year1 : option Q;
  scope1_year2 : option Q;
  scope1_delta : option Q;
  scope1_percent_change : option Q;
  scope2_lb_year1 : option Q;
  scope2_lb_year2 : option Q;
  scope2_lb_delta : option Q;
  scope2_lb_percent_change : option Q;
  scope2_mb_year1 : option Q;
  scope2_mb_year2 : option Q;
  scope2_mb_delta : option Q;
  scope2_mb_percent_change : option Q;
  scope3_year1 : option Q;
  scope3_year2 : option Q;
  scope3_delta : option Q;
  scope3_percent_change : option Q;
  scope1_cagr : option Q;
  scope2_lb_cagr : option Q;
  scope2_mb_cagr : option Q;
  scope3_cagr : option Q;
  boundary_year1 : option string;
  boundary_year2 : option string;
  boundary_changed : bool;
  verification_year1 : option string;
  verification_year2 : option string;
  verification_changed : bool
}.

Definition calculatePercentChange (oldValue newValue : option Q) : option Q :=
  match oldValue, newValue with
  | Some o, Some n =>
      if Qeq_bool o 0 then None else Some (((n - o) / o) * 100)
  | _, _ => None
  end.

(** The conditional written once per scope:
    [e1.col !== null && e2.col !== null ? e2.col - e1.col : null]. *)
Definition delta (v1 v2 : option Q) : option Q :=
  match v1, v2 with
  | Some a, Some b => Some (b - a)
  | _, _ => None
  end.

(** [SELECT * FROM emissions WHERE nz_id = ? AND year = ?] read with
    [.get]: the first matching row. *)
Definition emissionsOfYear (db : Database) (nzId year : Z) : option EmissionsRow :=
  List.find
    (fun e => (Emissions.nz_id e =? nzId)%Z && (Emissions.year e =? year)%Z)
    (emissions db).

Section WithMath.
Context {M : MathLib}.

Definition compareYears (db : Database) (nzId year1 year2 : Z)
  : option YearComparisonResult :=
  match companies db !! nzId with
  | None => None
  | Some company =>
      match emissionsOfYear db nzId year1, emissionsOfYear db nzId year2 with
      | Some emissions1, Some emissions2 =>
          let yearsApart := Z.abs (year2 - year1) in
          Some
            {| nz_id := nzId;
               company_name := Company.company_name company;
               year1 := year1;
               year2 := year2;
               yearsApart := yearsApart;
               scope1_year1 := Emissions.scope1 emissions1;
               scope1_year2 := Emissions.scope1 emissions2;
               scope1_delta :=
                 delta (Emissions.scope1 emissions1) (Emissions.scope1 emissions2);
               scope1_percent_change :=
                 calculatePercentChange
                   (Emissions.scope1 emissions1) (Emissions.scope1 emissions2);
               scope1_cagr :=
                 calculateCAGR
                   (Emissions.scope1 emissions1) (Emissions.scope1 emissions2) yearsApart;
               scope2_lb_year1 := Emissions.scope2_lb emissions1;
               scope2_lb_year2 := Emissions.scope2_lb emissions2;
               scope2_lb_delta :=
                 delta (Emissions.scope2_lb emissions1) (Emissions.scope2_lb emissions2);
               scope2_lb_percent_change :=
                 calculatePercentChange
                   (Emissions.scope2_lb emissions1) (Emissions.scope2_lb emissions2);
               scope2_lb_cagr :=
                 calculateCAGR
                   (Emissions.scope2_lb emissions1) (Emissions.scope2_lb emissions2)
                   yearsApart;
               scope2_mb_year1 := Emissions.scope2_mb emissions1;
               scope2_mb_year2 := Emissions.scope2_mb emissions2;
               scope2_mb_delta :=
                 delta (Emissions.scope2_mb emissions1) (Emissions.scope2_mb emissions2);
               scope2_mb_percent_change :=
                 calculatePercentChange
                   (Emissions.scope2_mb emissions1) (Emissions.scope2_mb emissions2);
               scope2_mb_cagr :=
                 calculateCAGR
                   (Emissions.scope2_mb emissions1) (Emissions.scope2_mb emissions2)
                   yearsApart;
               scope3_year1 := Emissions.scope3_total emissions1;
               scope3_year2 := Emissions.scope3_total emissions2;
               scope3_delta :=
                 delta (Emissions.scope3_total emissions1)
                       (Emissions.scope3_total emissions2);
               scope3_percent_change :=
                 calculatePercentChange
                   (Emissions.scope3_total emissions1) (Emissions.scope3_total emissions2);
               scope3_cagr :=
                 calculateCAGR
                   (Emissions.scope3_total emissions1) (Emissions.scope3_total emissions2)
                   yearsApart;
               boundary_year1 := Emissions.organizational_boundary emissions1;
               boundary_year2 := Emissions.organizational_boundary emissions2;
               boundary_changed :=
                 negb (Comparability.optS_eqb
                         (Emissions.organizational_boundary emissions1)
                         (Emissions.organizational_boundary emissions2));
               verification_year1 := Emissions.verification_status emissions1;
               verification_year2 := Emissions.verification_status emissions2;
               verification_changed :=
                 negb (Comparability.optS_eqb
                         (Emissions.verification_status emissions1)
                         (Emissions.verification_status emissions2)) |}
      | _, _ => None
      end
  end.

End WithMath.

(** The four scopes of a result, read by scope. *)
Definition valueYear1 (scope : Scope) (r : YearComparisonResult) : option Q :=
  match scope with
  | Queries.scope1 => scope1_year1 r
  | Queries.scope2_lb => scope2_lb_year1 r
  | Queries.scope2_mb => scope2_mb_year1 r
  | Queries.scope3 => scope3_year1 r
  end.

Definition valueYear2 (scope : Scope) (r : YearComparisonResult) : option Q :=
  match scope with
  | Queries.scope1 => scope1_year2 r
  | Queries.scope2_lb => scope2_lb_year2 r
  | Queries.scope2_mb => scope2_mb_year2 r
  | Queries.scope3 => scope3_year2 r
  end.

Definition deltaOf (scope : Scope) (r : YearComparisonResult) : option Q :=
  match scope with
  | Queries.scope1 => scope1_delta r
  | Queries.scope2_lb => scope2_lb_delta r
  | Queries.scope2_mb => scope2_mb_delta r
  | Queries.scope3 => scope3_delta r
  end.

Definition percentChangeOf (scope : Scope) (r : YearComparisonResult) : option Q :=
  match scope with
  | Queries.scope1 => scope1_percent_change r
  | Queries.scope2_lb => scope2_lb_percent_change r
  | Queries.scope2_mb => scope2_mb_percent_change r
  | Queries.scope3 => scope3_percent_change r
  end.

Definition cagrOf (scope : Scope) (r : YearComparisonResult) : option Q :=
  match scope with
  | Queries.scope1 => scope1_cagr r
  | Queries.scope2_lb => scope2_lb_cagr r
  | Queries.scope2_mb => scope2_mb_cagr r
  | Queries.scope3 => scope3_cagr r
  end.

End Years.

Module TimeSeries.
Import Queries.

Record TimeSeriesPoint := {
  year : Z;
  scope1 : option Q;
  scope2_lb : option Q;
  scope2_mb : option Q;
  scope3 : option Q;
  boundary : option string;
  verification : option string
}.

(** The column list of the [SELECT], with its aliases. *)
Definition pointOfRow (e : EmissionsRow) : TimeSeriesPoint :=
  {| year := Emissions.year e;
     scope1 := Emissions.scope1 e;
     scope2_lb := Emissions.scope2_lb e;
     scope2_mb := Emissions.scope2_mb e;
     scope3 := Emissions.scope3_total e;
     boundary := Emissions.organizational_boundary e;
     verification := Emissions.verification_status e |}.

(** [WHERE nz_id = ? ORDER BY year ASC]. *)
Definition getTimeSeries (db : Database) (nzId : Z) : list TimeSeriesPoint :=
  map pointOfRow
    (Compare.sortRows Compare.byYearAsc
       (List.filter (fun e => (Emissions.nz_id e =? nzId)%Z) (emissions db))).

End TimeSeries.

(* ------------------------------------------------------------------ *)
(** ** Time-series peer analytics: [getPeerTrend] *)
(* ------------------------------------------------------------------ *)

Module PeerTrend.
Import Types Queries Trends.

Record Filters := {
  jurisdiction : option string;
  sics_sector : option string;
  sics_sub_sector : option string
}.

(** [end] is written [end_]. *)
Record YearRange := {
  start : option Z;
  end_ : option Z;
  totalYears : Z
}.

(** The fields of the trend analysis are spread into the result in the
    source; they are kept together here. *)
Record PeerTrendResult := {
  filter_scope : Scope;
  filters : Filters;
  yearRange : YearRange;
  dataPoints : list PeerTrendDataPoint;
  analysis : TrendAnalysis
}.

(** The WHERE clause assembled by [getPeerTrend]. *)
Definition whereClause (scope : Scope) (filters : Filters)
    (e : EmissionsRow) (c : CompanyRow) : bool :=
  match column scope e with
  | None => false
  | Some v => Qlt_bool 0 v
  end
  && (if truthyS (jurisdiction filters)
      then sqlLowerEq (Company.jurisdiction c) (textOf (jurisdiction filters))
      else true)
  && (if truthyS (sics_sector filters)
      then sqlLowerEq (Company.sics_sector c) (textOf (sics_sector filters))
      else true)
  && (if truthyS (sics_sub_sector filters)
      then sqlLowerEq (Company.sics_sub_sector c) (textOf (sics_sub_sector filters))
      else true).

(** The rows of [emissions e JOIN companies c ON e.nz_id = c.nz_id] that
    satisfy the WHERE clause. *)
Definition matching (db : Database) (scope : Scope) (filters : Filters)
  : list EmissionsRow :=
  List.filter
    (fun e => match companies db !! Emissions.nz_id e with
              | Some c => whereClause scope filters e c
              | None => false
              end)
    (emissions db).

(** [SELECT MIN(e.year) as min_year, MAX(e.year) as max_year]: an
    aggregate without GROUP BY yields one row, whose two columns are NULL
    when no row matches. *)
Definition yearRangeQuery (db : Database) (scope : Scope) (filters : Filters)
  : option (option Z * option Z) :=
  match map Emissions.year (matching db scope filters) with
  | [] => Some (None, None)
  | y :: ys => Some (Some (fold_left Z.min ys y), Some (fold_left Z.max ys y))
  end.

(** [a || b] on [number | null | undefined]. *)
Definition orZ (a b : option Z) : option Z := if truthyZ a then a else b.

(** The number a year is read as by [<=], [++] and [-]: [null] is 0. *)
Definition toNumber (y : option Z) : Z := default 0%Z y.

(** [lo, lo + 1, ..., hi]. *)
Definition upTo (lo hi : Z) : list Z :=
  map (fun i => (lo + Z.of_nat i)%Z) (seq 0 (Z.to_nat (hi - lo + 1))).

(** The values taken by the loop variable of
    [for (let year = startYear; year <= endYear; year++)].  A [null] start
    is compared as 0 and incremented to 1. *)
Definition loopYears (startYear endYear : option Z) : list (option Z) :=
  match startYear with
  | Some s => map Some (upTo s (toNumber endYear))
  | None =>
      if (0 <=? toNumber endYear)%Z
      then None :: map Some (upTo 1 (toNumber endYear))
      else []
  end.

(** The values query of one year, [ORDER BY e.col]; [e.year = ?] holds for
    no row when the parameter is NULL. *)
Definition valuesOfYear (db : Database) (scope : Scope) (filters : Filters)
    (year : option Z) : list Q :=
  match year with
  | None => []
  | Some y =>
      sort
        (omap (fun e => if (Emissions.year e =? y)%Z then column scope e else None)
              (matching db scope filters))
  end.

(** The data point pushed for a year with values. *)
Definition pointOf (year : Z) (sortedValues : list Q) : PeerTrendDataPoint :=
  let count := length sortedValues in
  let sum := JS.sum sortedValues in
  let mean := sum / num count in
  let midpoint := index (Math_floor (num count / 2)) in
  let median :=
    if (count mod 2 =? 0)%nat
    then (at_ sortedValues (midpoint - 1) + at_ sortedValues midpoint) / 2
    else at_ sortedValues midpoint in
  let p25Index := index (Math_floor (num count * (1 # 4))) in
  let p75Index := index (Math_floor (num count * (3 # 4))) in
  {| Trends.year := year;
     Trends.count := count;
     Trends.mean := mean;
     Trends.median := median;
     Trends.min := at_ sortedValues 0;
     Trends.max := at_ sortedValues (count - 1);
     Trends.percentile25 := at_ sortedValues p25Index;
     Trends.percentile75 := at_ sortedValues p75Index |}.

(** One iteration of the loop over years: nothing is pushed for a year
    without values. *)
Definition pointsOfYear (db : Database) (scope : Scope) (filters : Filters)
    (year : option Z) : list PeerTrendDataPoint :=
  let values := valuesOfYear db scope filters year in
  if (length values =? 0)%nat then []
  else
    match year with
    | Some y => [pointOf y (sort values)]
    | None => []
    end.

Section WithMath.
Context {M : MathLib}.

Definition createEmptyTrendResult (scope : Scope) (filters : Filters)
    (startYear endYear : Z) : PeerTrendResult :=
  {| filter_scope := scope;
     filters := filters;
     yearRange := {| start := Some startYear;
                     end_ := Some endYear;
                     totalYears := endYear - startYear + 1 |};
     dataPoints := [];
     analysis := {| overallTrendDirection := insufficient_data;
                    meanChange := None;
                    meanChangePercent := None;
                    averageAnnualChange := None;
                    averageAnnualGrowthRate := None |} |}.

Definition getPeerTrend (db : Database) (scope : Scope) (filters : Filters)
    (startYear endYear : option Z) : PeerTrendResult :=
  let resolved :=
    if negb (truthyZ startYear) || negb (truthyZ endYear) then
      match yearRangeQuery db scope filters with
      | None => None
      | Some (min_year, max_year) =>
          Some (orZ startYear min_year, orZ endYear max_year)
      end
    else Some (startYear, endYear) in
  match resolved with
  | None =>
      createEmptyTrendResult scope filters
        (toNumber (orZ startYear (Some 0%Z))) (toNumber (orZ endYear (Some 0%Z)))
  | Some (startYear, endYear) =>
      let dataPoints :=
        flat_map (pointsOfYear db scope filters) (loopYears startYear endYear) in
      {| filter_scope := scope;
         filters := filters;
         yearRange := {| start := startYear;
                         end_ := endYear;
                         totalYears := toNumber endYear - toNumber startYear + 1 |};
         dataPoints := dataPoints;
         analysis := analyzeTrend dataPoints |}
  end.

End WithMath.

End PeerTrend.

(* ------------------------------------------------------------------ *)
(** ** The benchmarking engine: peer values and peer comparisons *)
(* ------------------------------------------------------------------ *)

Module Peers.
Import Types Engine.



Section WithMath.
Context {M : MathLib}.


End WithMath.

(** A [Map<number, EmissionsData[]>] is kept as its entries in insertion
    order. *)
Definition EmissionsMap := list (Z * list EmissionsData).


(** [result.set(companyId, value)] on a [Map<number, number>]: an existing
    key keeps its place. *)
Fixpoint mapSet (result : list (Z * Q)) (companyId : Z) (value : Q) : list (Z * Q) :=
  match result with
  | [] => [(companyId, value)]
  | (k, v) :: t =>
      if (k =? companyId)%Z then (k, value) :: t else (k, v) :: mapSet t companyId value
  end.

(** [methodology === 'location_based' ? latest.scope2_location_based
    : latest.scope2_market_based]. *)
Definition scope2Value (methodology : Scope2Methodology) (latest : EmissionsData)
  : option Q :=
  match methodology with
  | location_based => scope2_location_based latest
  | market_based => scope2_market_based latest
  end.

(** The body of the loop over the entries of the map. *)
Definition filterStep (methodology : Scope2Methodology)
    (result : list (Z * Q)) (entry : Z * list EmissionsData) : list (Z * Q) :=
  match snd entry with
  | [] => result
  | latest :: _ =>
      match scope2Value methodology latest with
      | Some value => mapSet result (fst entry) value
      | None => result
      end
  end.

Definition filterByScope2Methodology (emissionsMap : EmissionsMap)
    (methodology : Scope2Methodology) : list (Z * Q) :=
  fold_left (filterStep methodology) emissionsMap [].

End Peers.

(* ------------------------------------------------------------------ *)
(** ** Stores and series used to run the further properties *)
(* ------------------------------------------------------------------ *)

Module Scenarios.
Import Types Queries.

#[local] Open Scope string_scope.

(** Company 1 reports for three years and changes its Scope 1
    methodology and boundary in 2022; company 2 reports Scope 3. *)
Definition historyRow (nzId y : Z) (s1 : Q) (s3 : option Q)
    (boundary method1 : option string) : EmissionsRow :=
  {| Emissions.id := y;
     Emissions.nz_id := nzId;
     Emissions.year := y;
     Emissions.scope1 := Some s1;
     Emissions.scope1_methodology := method1;
     Emissions.scope2_lb := None;
     Emissions.scope2_mb := None;
     Emissions.scope2_lb_methodology := None;
     Emissions.scope2_mb_methodology := None;
     Emissions.scope3_total := s3;
     Emissions.scope3_cat := fun _ => None;
     Emissions.scope3_cat_method := fun _ => None;
     Emissions.scope3_cat_relevancy := fun _ => None;
     Emissions.organizational_boundary := boundary;
     Emissions.verification_status := None |}.

Definition history : Database :=
  {| companies :=
       list_to_map [ (1%Z, Examples.companyRow 1 "Alpha" "NZ" "Energy");
                     (2%Z, Examples.companyRow 2 "Beta" "NZ" "Energy") ];
     emissions :=
       [ historyRow 1 2021 100 (Some 50)
           (Some "Operational control") (Some "GHG Protocol");
         historyRow 1 2020 80 (Some 40)
           (Some "Operational control") (Some "GHG Protocol");
         historyRow 1 2022 120 (Some 1000)
           (Some "Equity share") (Some "ISO 14064");
         historyRow 2 2022 60 (Some 20)
           (Some "Operational control") (Some "GHG Protocol") ] |}.

Definition energy : PeerTrend.Filters :=
  {| PeerTrend.jurisdiction := None;
     PeerTrend.sics_sector := Some "Energy";
     PeerTrend.sics_sub_sector := None |}.

(** A map of two companies: the first reports only location-based Scope 2,
    the second both variants. *)
Definition peerMap : Peers.EmissionsMap :=
  [ (1%Z, [Examples.gridAverage]);
    (2%Z, [Examples.emissionsData 2022 (Some 200) (Some 150) None]) ].

End Scenarios.

(* ================================================================== *)
(** * Properties *)
(* ================================================================== *)

(** ** Facts about the JavaScript layer *)

Module JSFacts.
Import Spec.

Lemma Qle_bool_false (x y : Q) : Qle_bool x y = false -> y <= x.
Proof.
  intros H. destruct (Qlt_le_dec y x) as [Hlt | Hle].
  - apply Qlt_le_weak; exact Hlt.
  - apply Qle_bool_iff in Hle. congruence.
Qed.

Lemma insert_length (x : Q) (l : list Q) : length (insert x l) = S (length l).
Proof.
  induction l as [| y t IH]; simpl; [reflexivity |].
  destruct (Qle_bool x y); simpl; [reflexivity | now rewrite IH].
Qed.

Lemma sort_length (l : list Q) : length (sort l) = length l.
Proof.
  induction l as [| x t IH]; simpl; [reflexivity |].
  now rewrite insert_length, IH.
Qed.

Lemma insert_count (p : Q -> bool) (x : Q) (l : list Q) :
  length (List.filter p (insert x l)) = length (List.filter p (x :: l)).
Proof.
  induction l as [| y t IH]; [reflexivity |].
  simpl insert. destruct (Qle_bool x y); [reflexivity |].
  simpl in *. destruct (p y), (p x); simpl in *; lia.
Qed.

(** Sorting keeps, for every predicate, the number of elements meeting it. *)
Lemma sort_count (p : Q -> bool) (l : list Q) :
  length (List.filter p (sort l)) = length (List.filter p l).
Proof.
  induction l as [| x t IH]; [reflexivity |].
  simpl sort. rewrite insert_count. simpl.
  destruct (p x); simpl; now rewrite IH.
Qed.

Lemma ascending_nil : ascending [].
Proof. intros i j _ H. simpl in H. lia. Qed.

Lemma ascending_cons (x : Q) (l : list Q) :
  ascending l -> (forall j, (j < length l)%nat -> x <= at_ l j) -> ascending (x :: l).
Proof.
  intros Hl Hx i j Hij Hj. unfold at_ in *.
  destruct i as [| i], j as [| j]; simpl in *.
  - apply Qle_refl.
  - apply Hx. lia.
  - lia.
  - apply Hl; lia.
Qed.

Lemma ascending_tail (x : Q) (l : list Q) : ascending (x :: l) -> ascending l.
Proof.
  intros H i j Hij Hj. apply (H (S i) (S j)); simpl; lia.
Qed.

Lemma ascending_head (x : Q) (l : list Q) (j : nat) :
  ascending (x :: l) -> (j < length l)%nat -> x <= at_ l j.
Proof.
  intros H Hj. apply (H 0%nat (S j)); simpl; lia.
Qed.

Lemma insert_at (x : Q) (l : list Q) (j : nat) :
  (j < length (insert x l))%nat ->
  at_ (insert x l) j = x \/ exists k, (k < length l)%nat /\ at_ (insert x l) j = at_ l k.
Proof.
  revert j. induction l as [| y t IH]; intros j Hj.
  - simpl in *. left. destruct j; [reflexivity | lia].
  - simpl in *. destruct (Qle_bool x y).
    + destruct j as [| j]; [now left |].
      right. exists j. simpl in Hj. split; [lia | reflexivity].
    + destruct j as [| j].
      * right. exists 0%nat. split; [simpl; lia | reflexivity].
      * simpl in Hj. destruct (IH j) as [E | [k [Hk E]]]; [lia | now left |].
        right. exists (S k). split; [simpl; lia | exact E].
Qed.

Lemma insert_ascending (x : Q) (l : list Q) : ascending l -> ascending (insert x l).
Proof.
  induction l as [| y t IH]; intros Hl.
  - simpl. apply ascending_cons; [apply ascending_nil |]. intros j Hj. simpl in Hj. lia.
  - simpl. destruct (Qle_bool x y) eqn:E.
    + apply ascending_cons; [exact Hl |].
      intros j Hj. apply Qle_bool_iff in E.
      apply Qle_trans with y; [exact E |].
      destruct j as [| j]; [apply Qle_refl |].
      apply (ascending_head y t j Hl). simpl in Hj. lia.
    + apply ascending_cons.
      * apply IH. apply (ascending_tail y t Hl).
      * intros j Hj. destruct (insert_at x t j Hj) as [-> | [k [Hk ->]]].
        -- apply Qle_bool_false; exact E.
        -- apply (ascending_head y t k Hl Hk).
Qed.

Lemma sort_ascending (l : list Q) : ascending (sort l).
Proof.
  induction l as [| x t IH]; simpl; [apply ascending_nil | now apply insert_ascending].
Qed.

(** The index computations of the statistics code. *)
Lemma floor_quarter (n : nat) :
  index (Math_floor (num n * (1 # 4))) = (n / 4)%nat.
Proof.
  unfold index, Math_floor, num.
  replace (Qfloor (inject_Z (Z.of_nat n) * (1 # 4))) with (Z.of_nat n / Z.of_nat 4)%Z.
  - rewrite <- Nat2Z.inj_div. apply Nat2Z.id.
  - unfold Qfloor, Qmult, inject_Z. cbn [Qnum Qden]. now rewrite Z.mul_1_r.
Qed.

Lemma floor_three_quarters (n : nat) :
  index (Math_floor (num n * (3 # 4))) = (n * 3 / 4)%nat.
Proof.
  unfold index, Math_floor, num.
  replace (Qfloor (inject_Z (Z.of_nat n) * (3 # 4)))
    with (Z.of_nat n * Z.of_nat 3 / Z.of_nat 4)%Z.
  - rewrite <- Nat2Z.inj_mul, <- Nat2Z.inj_div. apply Nat2Z.id.
  - unfold Qfloor, Qmult, inject_Z. cbn [Qnum Qden]. reflexivity.
Qed.

Lemma floor_half (n : nat) :
  index (Math_floor (num n / 2)) = (n / 2)%nat.
Proof.
  unfold index, Math_floor, num.
  replace (Qfloor (inject_Z (Z.of_nat n) / 2)) with (Z.of_nat n / Z.of_nat 2)%Z.
  - rewrite <- Nat2Z.inj_div. apply Nat2Z.id.
  - unfold Qfloor, Qdiv, Qmult, Qinv, inject_Z. cbn [Qnum Qden]. now rewrite Z.mul_1_r.
Qed.

(** The midpoint of two ordered numbers lies between them. *)
Lemma midpoint_bounds (a b lo hi : Q) :
  lo <= a -> a <= b -> b <= hi -> lo <= (a + b) / 2 /\ (a + b) / 2 <= hi.
Proof.
  intros H1 H2 H3.
  assert (E : (a + b) / 2 == (a + b) * (1 # 2)) by (unfold Qdiv; reflexivity).
  rewrite E. split; lra.
Qed.

End JSFacts.

(** ** Cohort statistics *)

Module StatsFacts.
Import Types Queries JSFacts Spec.

Lemma quartile_indices (n : nat) :
  (0 < n)%nat ->
  (n / 4 <= n / 2)%nat /\ (n / 2 <= n * 3 / 4)%nat /\ (n * 3 / 4 <= n - 1)%nat
  /\ (n mod 2 = 0 -> n / 4 <= n / 2 - 1 /\ n / 2 - 1 <= n / 2)%nat.
Proof.
  intros Hn.
  pose proof (Nat.div_mod_eq n 4) as H4.
  pose proof (Nat.div_mod_eq n 2) as H2.
  pose proof (Nat.div_mod_eq (n * 3) 4) as H34.
  pose proof (Nat.mod_upper_bound n 4 ltac:(lia)) as B4.
  pose proof (Nat.mod_upper_bound n 2 ltac:(lia)) as B2.
  pose proof (Nat.mod_upper_bound (n * 3) 4 ltac:(lia)) as B34.
  repeat split; try lia.
Qed.

(** Every index read by the statistics code lies inside the array. *)
Lemma quartile_indices_in_range (n : nat) :
  (0 < n)%nat ->
  (0 < n /\ n / 4 < n /\ n / 2 < n /\ n * 3 / 4 < n /\ n - 1 < n)%nat
  /\ (n mod 2 = 0 -> n / 2 - 1 < n)%nat.
Proof.
  intros Hn. destruct (quartile_indices n Hn) as (I1 & I2 & I3 & I4).
  split; [repeat split; lia |]. intros E. destruct (I4 E). lia.
Qed.

Lemma quartile_chain (l : list Q) :
  ascending l -> l <> [] ->
  let n := length l in
  at_ l 0 <= at_ l (n / 4)
  /\ at_ l (n / 4) <= medianOf l
  /\ medianOf l <= at_ l (n * 3 / 4)
  /\ at_ l (n * 3 / 4) <= at_ l (n - 1).
Proof.
  intros Hasc Hne n.
  assert (Hn : (0 < n)%nat) by (subst n; destruct l; simpl; [congruence | lia]).
  destruct (quartile_indices n Hn) as (I1 & I2 & I3 & I4).
  assert (Hmid : at_ l (n / 4) <= medianOf l /\ medianOf l <= at_ l (n * 3 / 4)).
  { unfold medianOf. fold n. destruct (n mod 2 =? 0)%nat eqn:E.
    - apply Nat.eqb_eq in E. destruct (I4 E) as [J1 J2].
      apply midpoint_bounds; apply Hasc; subst n; lia.
    - split; apply Hasc; subst n; lia. }
  destruct Hmid as [M1 M2].
  repeat split; try assumption; apply Hasc; subst n; lia.
Qed.

Section WithMath.
Context {M : MathLib}.

Lemma statsOfOrdered_fields (nums : list Q) :
  let st := statsOfOrdered nums in
  min st = at_ nums 0
  /\ percentile25 st = at_ nums (length nums / 4)
  /\ median st = medianOf nums
  /\ percentile75 st = at_ nums (length nums * 3 / 4)
  /\ max st = at_ nums (length nums - 1).
Proof.
  unfold statsOfOrdered, medianOf. cbn [min percentile25 median percentile75 max].
  rewrite floor_quarter, floor_three_quarters, floor_half.
  repeat split; reflexivity.
Qed.

Lemma statsOfOrdered_ordered (nums : list Q) :
  ascending nums -> nums <> [] -> quartilesOrdered (statsOfOrdered nums).
Proof.
  intros Hasc Hne.
  destruct (statsOfOrdered_fields nums) as (E1 & E2 & E3 & E4 & E5).
  unfold quartilesOrdered. rewrite E1, E2, E3, E4, E5.
  apply quartile_chain; assumption.
Qed.

Lemma calculatePeerStats_fields (values : list Q) :
  values <> [] ->
  let st := Engine.calculatePeerStats values in
  let sorted := sort values in
  min st = at_ sorted 0
  /\ percentile25 st = at_ sorted (length sorted / 4)
  /\ median st = medianOf sorted
  /\ percentile75 st = at_ sorted (length sorted * 3 / 4)
  /\ max st = at_ sorted (length sorted - 1).
Proof.
  intros Hne. unfold Engine.calculatePeerStats, medianOf.
  destruct values as [| v vs]; [congruence |].
  change (length (v :: vs) =? 0)%nat with false.
  cbn [min percentile25 median percentile75 max].
  rewrite floor_quarter, floor_three_quarters, floor_half.
  repeat split; reflexivity.
Qed.

Lemma getPeerStatistics_some (db : Database) (scope : Scope) (filters : PeerFilters)
    (st : PeerGroupStats) :
  getPeerStatistics db scope filters = Some st ->
  peerValues db scope filters <> [] /\ st = statsOfOrdered (peerValues db scope filters).
Proof.
  unfold getPeerStatistics. destruct (peerValues db scope filters) as [| v vs] eqn:E.
  - discriminate.
  - simpl. intros H. injection H as <-. split; [discriminate | reflexivity].
Qed.

Lemma getPeerStatistics_none (db : Database) (scope : Scope) (filters : PeerFilters) :
  peerValues db scope filters = [] -> getPeerStatistics db scope filters = None.
Proof. unfold getPeerStatistics. intros ->. reflexivity. Qed.

End WithMath.

Lemma peerValues_ascending (db : Database) (scope : Scope) (filters : PeerFilters) :
  ascending (peerValues db scope filters).
Proof. unfold peerValues. apply sort_ascending. Qed.


End StatsFacts.

(** ** The claims *)

Section Claims.
Import Types Queries Spec JSFacts StatsFacts.



(** C2. The percentile rank of a value in a non-empty sample is
    [(countBelow + 0.5 * countEqual) / n * 100].  With peers reporting 10,
    20 and 100, the company reporting 20 has mid-rank
    [(1 + 0.5 * 1) / 3 * 100 = 50]; the store-backed [benchmarkCompany]
    reports 11 for it, the rounded linear position between the cohort
    minimum and maximum. *)
Lemma benchmark_percentile_not_mid_rank :
  peerValues Examples.store scope1 Examples.nzFilter = [10; 20; 100]
  /\ (forall M : MathLib,
         option_map companyValue (benchmarkCompany Examples.store 2 scope1 None)
         = Some (Some 20))
  /\ (forall M : MathLib,
         option_map percentileInJurisdiction
           (benchmarkCompany Examples.store 2 scope1 None)
         = Some (Some 11%Z))
  /\ midRank 20 [10; 20; 100] == 50
  /\ Engine.calculatePercentileRank 20 [10; 20; 100] == 50
  /\ ~ inject_Z 11 == midRank 20 [10; 20; 100].
Proof.
  split; [vm_compute; reflexivity |].
  split; [intros M; reflexivity |].
  split; [intros M; reflexivity |].
  split; [vm_compute; reflexivity |].
  split; [vm_compute; reflexivity |].
  vm_compute. discriminate.
Qed.

(** The two percentile computations of the repository.
    [calculatePercentileRank] is the mid-rank formula on every non-empty
    sample.  The percentile fields of [benchmarkCompany] are
    [calcPercentile] of the company value and the cohort statistics: null
    without a non-zero value or without statistics, 0 at or below the cohort
    minimum, 100 at or above the maximum, and otherwise the rounded linear
    position [(value - min) / (max - min) * 100]. *)
Theorem percentile_rank_formulas (M : MathLib) :
  (forall (value : Q) (values : list Q),
      values <> [] -> Engine.calculatePercentileRank value values = midRank value values)
  /\ (forall (db : Database) (nzId : Z) (scope : Scope) (year : option Z)
             (r : BenchmarkResult),
         benchmarkCompany db nzId scope year = Some r ->
         percentileInJurisdiction r = calcPercentile (companyValue r) (jurisdictionStats r)
         /\ percentileInSector r = calcPercentile (companyValue r) (sectorStats r)
         /\ percentileInCombined r = calcPercentile (companyValue r) (combinedStats r))
  /\ (forall (value : option Q) (stats : option PeerGroupStats),
         truthy value = false \/ stats = None -> calcPercentile value stats = None)
  /\ (forall (v : Q) (st : PeerGroupStats),
         ~ v == 0 ->
         (v <= min st -> calcPercentile (Some v) (Some st) = Some 0%Z)
         /\ (min st < v -> max st <= v -> calcPercentile (Some v) (Some st) = Some 100%Z)
         /\ (min st < v -> v < max st ->
             calcPercentile (Some v) (Some st)
             = Some (Math_round ((v - min st) / (max st - min st) * 100)))).
Proof.
  split; [| split; [| split]].
  - intros value values Hne. unfold Engine.calculatePercentileRank, midRank.
    destruct values as [| x t]; [congruence |].
    change (length (x :: t) =? 0)%nat with false. cbv iota.
    unfold countBelow, countEqual.
    now rewrite !sort_count, sort_length.
  - intros db nzId scope year r H. unfold benchmarkCompany in H.
    destruct (getCompanyById db nzId); [| discriminate].
    injection H as <-. repeat split; reflexivity.
  - intros value stats [H | ->].
    + unfold calcPercentile. destruct value as [v |]; [| reflexivity].
      destruct stats; [| reflexivity]. now rewrite H.
    + unfold calcPercentile. destruct value; reflexivity.
  - intros v st Hv.
    assert (T : truthy (Some v) = true).
    { simpl. destruct (Qeq_bool v 0) eqn:E; [| reflexivity].
      apply Qeq_bool_iff in E. contradiction. }
    unfold calcPercentile. rewrite T. cbn [negb].
    repeat split.
    + intros H. apply Qle_bool_iff in H. now rewrite H.
    + intros H1 H2.
      destruct (Qle_bool v (min st)) eqn:E1.
      { apply Qle_bool_iff in E1. exfalso. apply (Qlt_not_le _ _ H1 E1). }
      apply Qle_bool_iff in H2. now rewrite H2.
    + intros H1 H2.
      destruct (Qle_bool v (min st)) eqn:E1.
      { apply Qle_bool_iff in E1. exfalso. apply (Qlt_not_le _ _ H1 E1). }
      destruct (Qle_bool (max st) v) eqn:E2.
      { apply Qle_bool_iff in E2. exfalso. apply (Qlt_not_le _ _ H2 E2). }
      reflexivity.
Qed.

Lemma percentile_rank_formulas_witness :
  Engine.calculatePercentileRank 20 [100; 10; 20] = midRank 20 [100; 10; 20]
  /\ calcPercentile None (Some Engine.zeroStats) = None
  /\ calcPercentile (Some 20) (Some (statsOfOrdered (M := coarseMath) [10; 20; 100]))
     = Some 11%Z.
Proof.
  destruct (percentile_rank_formulas coarseMath) as (H1 & _ & H3 & H4).
  split; [apply H1; discriminate |].
  split; [apply H3; left; reflexivity |].
  apply (proj2 (proj2 (H4 20 (statsOfOrdered (M := coarseMath) [10; 20; 100])
                          ltac:(vm_compute; discriminate))));
    vm_compute; reflexivity.
Defined.

(** C3 (as stated, on the store-backed statistics).  A cohort filter that
    matches no values makes [getPeerStatistics] return null, which is not
    the zero-filled record. *)
Lemma empty_cohort_statistics_null :
  peerValues Examples.emptyStore scope1 Examples.nzFilter = []
  /\ (forall M : MathLib,
         getPeerStatistics Examples.emptyStore scope1 Examples.nzFilter = None)
  /\ (forall M : MathLib,
         getPeerStatistics Examples.emptyStore scope1 Examples.nzFilter
         <> Some Engine.zeroStats).
Proof.
  split; [reflexivity |]. split; intros M; [reflexivity | discriminate].
Qed.

(** C3 (amended).  [calculatePeerStats] of the empty array is the
    zero-sentinel, count 0 and every other field 0.  [getPeerStatistics]
    returns null when the cohort filter matches no values, and the
    [peer_stats] tool then answers with a no-data text, not an error.  Both
    functions are total: neither has an error outcome. *)
Theorem empty_sample_statistics (M : MathLib) :
  (Engine.calculatePeerStats [] = Engine.zeroStats
   /\ count Engine.zeroStats = 0%nat
   /\ [mean Engine.zeroStats; median Engine.zeroStats; stdDev Engine.zeroStats;
       min Engine.zeroStats; max Engine.zeroStats;
       percentile25 Engine.zeroStats; percentile75 Engine.zeroStats]
      = [0; 0; 0; 0; 0; 0; 0])
  /\ (forall (db : Database) (scope : Scope) (filters : PeerFilters),
         peerValues db scope filters = [] ->
         getPeerStatistics db scope filters = None)
  /\ (forall (db : Database) (args : Server.BenchmarkArgs),
         Server.mode args = Some "peer_stats"%string ->
         truthyS (Server.jurisdiction args) = true ->
         peerValues db (default scope1 (Server.scope args))
           {| f_jurisdiction := Server.jurisdiction args;
              f_sics_sector := Server.sector args;
              f_year := Server.year args |} = [] ->
         Server.nzdpu_benchmark db args = Server.Content Server.NoDataFound).
Proof.
  split; [repeat split; reflexivity |]. split.
  - intros db scope filters H. now apply getPeerStatistics_none.
  - intros db args Hm Hj Hv.
    unfold Server.nzdpu_benchmark. rewrite Hm. cbn.
    unfold Server.peerStatsMode. rewrite Hj. cbn.
    now rewrite (getPeerStatistics_none _ _ _ Hv).
Qed.

Lemma empty_sample_statistics_witness :
  getPeerStatistics (M := coarseMath) Examples.emptyStore scope1 Examples.nzFilter = None
  /\ Server.nzdpu_benchmark (M := coarseMath) Examples.emptyStore
       {| Server.mode := Some "peer_stats"%string;
          Server.company_id := None; Server.company_ids := None;
          Server.scope := None; Server.year := None;
          Server.jurisdiction := Some "NZ"%string; Server.sector := None;
          Server.sub_sector := None; Server.limit := None |}
     = Server.Content Server.NoDataFound.
Proof.
  destruct (empty_sample_statistics coarseMath) as (_ & H2 & H3).
  split.
  - apply H2. reflexivity.
  - apply H3; reflexivity.
Defined.

(** ** Comparability rules *)

Lemma mixed_blocked (e1 e2 : EmissionsData) :
  Comparability.mixedComparison e1 e2 = true ->
  blocked (Comparability.checkEmissionsComparability e1 e2).
Proof.
  intros H. unfold Comparability.checkEmissionsComparability. rewrite H.
  cbn [isComparable warnings]. split; [reflexivity |].
  exists Comparability.scope2MixWarning.
  split; [apply in_or_app; right; left; reflexivity | split; reflexivity].
Qed.

(** C1. When one record reports only the location-based (grid-average)
    variant and the other only the market-based (contractual-instrument)
    variant, both comparability checks return [isComparable = false] with an
    error-severity Scope 2 mismatch warning, whatever the years and
    organizational boundaries of the two records are. *)
Theorem exclusive_variants_blocked
    (e1 e2 : EmissionsData) (m1 m2 : Scope2Methodology) :
  soleVariant e1 = Some m1 -> soleVariant e2 = Some m2 -> m1 <> m2 ->
  blocked (Comparability.checkScope2Comparability m1 m2)
  /\ blocked (Comparability.checkEmissionsComparability e1 e2).
Proof.
  intros H1 H2 Hne. split.
  - unfold Comparability.checkScope2Comparability.
    destruct m1, m2; try congruence; cbn; (split; [reflexivity |]);
      eexists; (split; [left; reflexivity | split; reflexivity]).
  - apply mixed_blocked. unfold soleVariant in H1, H2.
    unfold Comparability.mixedComparison.
    destruct (scope2_location_based e1), (scope2_market_based e1);
      destruct (scope2_location_based e2), (scope2_market_based e2);
      try discriminate; injection H1 as <-; injection H2 as <-;
      try congruence; reflexivity.
Qed.

Lemma exclusive_variants_blocked_witness :
  blocked (Comparability.checkScope2Comparability location_based market_based)
  /\ blocked (Comparability.checkEmissionsComparability
                Examples.gridAverage Examples.contractual).
Proof.
  apply (exclusive_variants_blocked Examples.gridAverage Examples.contractual
           location_based market_based); [reflexivity | reflexivity | discriminate].
Defined.

(** C7 (as stated, on [validateComparisonRequest]).  The generic Scope 2
    rule applies whenever the requested scope is ['scope2'], and the
    Scope 2 methodology rule applies when a company carries only the other
    variant; once the missing-data rule has fired neither warning is
    returned. *)
Lemma missing_data_suppresses_later_rules :
  let data : gmap Z EmissionsData := {[ 1%Z := Examples.contractual ]} in
  In Comparability.genericScope2Warning
     (warnings (Comparability.validateComparisonRequest [1%Z] Comparability.scope2 data))
  /\ warnings (Comparability.validateComparisonRequest [1%Z; 2%Z] Comparability.scope2 data)
     = [Comparability.missingDataWarning [2%Z]]
  /\ In (Comparability.onlyOtherWarning location_based)
        (warnings (Comparability.validateComparisonRequest
                     [1%Z] Comparability.scope2_lb data))
  /\ warnings (Comparability.validateComparisonRequest
                 [1%Z; 2%Z] Comparability.scope2_lb data)
     = [Comparability.missingDataWarning [2%Z]].
Proof.
  cbv zeta. repeat split; vm_compute; auto.
Qed.

(** C7 (amended).  [checkEmissionsComparability] evaluates its four rules
    independently: each warning is returned exactly when its own rule
    applies.  [validateComparisonRequest] returns the missing-data error
    alone when some requested company has no data; when none is missing it
    returns the generic Scope 2 warning exactly for scope ['scope2'] and the
    Scope 2 mismatch error exactly when a company lacks the requested
    variant while carrying the other.  Both are functions of their inputs
    and write to none of them. *)
Theorem comparability_rules_returned :
  (forall e1 e2 : EmissionsData,
      let ws := warnings (Comparability.checkEmissionsComparability e1 e2) in
      (Comparability.yearRule e1 e2 = true
       <-> In (Comparability.yearWarning (Types.year e1) (Types.year e2)) ws)
      /\ (Comparability.boundaryRule e1 e2 = true
          <-> In (Comparability.boundaryWarning
                    (Comparability.textOf (Types.organizational_boundary e1))
                    (Comparability.textOf (Types.organizational_boundary e2))) ws)
      /\ (Comparability.scope1Rule e1 e2 = true
          <-> In (Comparability.scope1MethodologyWarning
                    (Comparability.textOf (Types.scope1_methodology e1))
                    (Comparability.textOf (Types.scope1_methodology e2))) ws)
      /\ (Comparability.mixedComparison e1 e2 = true
          <-> In Comparability.scope2MixWarning ws))
  /\ (forall (companyIds : list Z) (scope : Comparability.RequestScope)
             (emissionsData : gmap Z EmissionsData),
         let r := Comparability.validateComparisonRequest companyIds scope emissionsData in
         let missing :=
           List.filter (fun id => negb (Comparability.isSome (emissionsData !! id)))
                       companyIds in
         (missing <> [] ->
          isComparable r = false
          /\ warnings r = [Comparability.missingDataWarning missing])
         /\ (missing = [] ->
             (scope = Comparability.scope2
              <-> In Comparability.genericScope2Warning (warnings r))
             /\ (forall v,
                    Comparability.requestedVariant scope = Some v ->
                    (Comparability.hasOther v (map snd (map_to_list emissionsData)) <> []
                     <-> In (Comparability.onlyOtherWarning v) (warnings r))))).
Proof.
  split.
  - intros e1 e2. unfold Comparability.checkEmissionsComparability.
    destruct (Comparability.yearRule e1 e2), (Comparability.boundaryRule e1 e2),
      (Comparability.scope1Rule e1 e2), (Comparability.mixedComparison e1 e2);
      cbn; repeat split; intros;
      repeat match goal with
             | H : exists _, _ |- _ => destruct H
             | H : _ \/ _ |- _ => destruct H
             | H : False |- _ => destruct H
             end;
      try discriminate; try reflexivity; eauto 8.
  - intros companyIds scope emissionsData r missing.
    unfold Comparability.validateComparisonRequest in r. fold missing in r.
    split.
    + intros Hne. subst r. destruct missing as [| x t]; [congruence |].
      cbn. split; reflexivity.
    + intros E. subst r. rewrite E. cbn [length Nat.ltb Nat.leb].
      split.
      * destruct scope; cbn; split; intros;
          try discriminate; try reflexivity; auto;
          repeat match goal with
                 | H : context [if ?b then _ else _] |- _ => destruct b; cbn in H
                 | |- context [if ?b then _ else _] => destruct b; cbn
                 | H : _ \/ _ |- _ => destruct H
                 | H : False |- _ => destruct H
                 end; try discriminate; auto.
      * intros v Hv.
        destruct scope; try discriminate; injection Hv as <-; cbn;
          match goal with
          | |- context [Comparability.hasOther ?v ?l] =>
              destruct (Comparability.hasOther v l) eqn:Eh
          end; cbn; split; intros; try congruence; auto;
          repeat match goal with
                 | H : _ \/ _ |- _ => destruct H
                 | H : False |- _ => destruct H
                 end; try discriminate.
Qed.

Lemma comparability_rules_returned_witness :
  warnings (Comparability.validateComparisonRequest
              [1%Z; 2%Z] Comparability.scope2 {[ 1%Z := Examples.contractual ]})
  = [Comparability.missingDataWarning [2%Z]]
  /\ In Comparability.genericScope2Warning
        (warnings (Comparability.validateComparisonRequest
                     [1%Z] Comparability.scope2 {[ 1%Z := Examples.contractual ]}))
  /\ In (Comparability.yearWarning 2022 2021)
        (warnings (Comparability.checkEmissionsComparability
                     Examples.gridAverage Examples.contractual2021)).
Proof.
  destruct comparability_rules_returned as [Hc Hv].
  split; [| split].
  - destruct (Hv [1%Z; 2%Z] Comparability.scope2 {[ 1%Z := Examples.contractual ]})
      as [H _].
    destruct H as [_ H]; [vm_compute; discriminate | exact H].
  - destruct (Hv [1%Z] Comparability.scope2 {[ 1%Z := Examples.contractual ]})
      as [_ H].
    destruct H as [H _]; [vm_compute; reflexivity |].
    apply H. reflexivity.
  - destruct (Hc Examples.gridAverage Examples.contractual2021) as [H _].
    apply H. reflexivity.
Defined.

(** ** Quality scores *)

Lemma overallScore_components (e : EmissionsRow) (sector : option string) :
  let a := Quality.assessDataQuality e sector in
  Assessment.boundaryScore a
  = fst (Quality.assessBoundaryQuality (Emissions.organizational_boundary e))
  /\ Assessment.verificationScore a
     = Quality.assessVerificationQuality (Emissions.verification_status e)
  /\ Assessment.scope1MethodologyScore a
     = Quality.assessS12MethodologyQuality (Emissions.scope1_methodology e)
  /\ Assessment.overallScore a
     = Quality.calculateOverallScore
         (Assessment.boundaryScore a) (Assessment.verificationScore a)
         (Assessment.scope1MethodologyScore a).
Proof.
  unfold Quality.assessDataQuality.
  destruct (Quality.assessBoundaryQuality (Emissions.organizational_boundary e))
    as [b std].
  cbn. repeat split; reflexivity.
Qed.




(** C9. Two emissions records that agree on organizational boundary,
    verification status and Scope 1 methodology receive the same overall
    score from [assessDataQuality]; the Scope 2 methodologies and the
    Scope 3 per-category values and methods play no part in it. *)
Theorem overall_score_depends_on_three_fields
    (e1 e2 : EmissionsRow) (sector1 sector2 : option string) :
  Emissions.organizational_boundary e1 = Emissions.organizational_boundary e2 ->
  Emissions.verification_status e1 = Emissions.verification_status e2 ->
  Emissions.scope1_methodology e1 = Emissions.scope1_methodology e2 ->
  Assessment.overallScore (Quality.assessDataQuality e1 sector1)
  = Assessment.overallScore (Quality.assessDataQuality e2 sector2).
Proof.
  intros Hb Hv Hm.
  destruct (overallScore_components e1 sector1) as (B1 & V1 & M1 & O1).
  destruct (overallScore_components e2 sector2) as (B2 & V2 & M2 & O2).
  cbv zeta in *. rewrite O1, O2, B1, B2, V1, V2, M1, M2, Hb, Hv, Hm. reflexivity.
Qed.

Lemma overall_score_depends_on_three_fields_witness :
  Assessment.overallScore (Quality.assessDataQuality Examples.mixedQualityRow None)
  = Assessment.overallScore
      (Quality.assessDataQuality Examples.mixedQualityRow' (Some "Energy"%string))
  /\ Assessment.scope2LBMethodologyScore
       (Quality.assessDataQuality Examples.mixedQualityRow None)
     <> Assessment.scope2LBMethodologyScore
          (Quality.assessDataQuality Examples.mixedQualityRow' (Some "Energy"%string))
  /\ Assessment.warnings (Quality.assessDataQuality Examples.mixedQualityRow None)
     <> Assessment.warnings
          (Quality.assessDataQuality Examples.mixedQualityRow' (Some "Energy"%string)).
Proof.
  split; [| split].
  - apply overall_score_depends_on_three_fields; reflexivity.
  - vm_compute. discriminate.
  - vm_compute. discriminate.
Defined.

(** ** Compound annual growth rate *)

Lemma truthy_some (q : Q) : truthy (Some q) = true <-> ~ q == 0.
Proof.
  simpl. destruct (Qeq_bool q 0) eqn:E.
  - apply Qeq_bool_iff in E. split; [discriminate | contradiction].
  - split; [| reflexivity]. intros _ H. apply Qeq_bool_iff in H. congruence.
Qed.

Lemma Qlt_bool_iff (a b : Q) : Qlt_bool a b = true <-> a < b.
Proof.
  unfold Qlt_bool. destruct (Qle_bool b a) eqn:E.
  - apply Qle_bool_iff in E. split; [discriminate |].
    intros H. exfalso. apply (Qlt_not_le _ _ H E).
  - split; [| reflexivity]. intros _.
    destruct (Qlt_le_dec a b) as [H | H]; [exact H |].
    apply Qle_bool_iff in H. congruence.
Qed.

(** C5 (as stated).  With first value 100, last value 0 and four years
    apart, [calculateCAGR] returns null although the span exceeds one year
    and the first value is positive; and for two trend points one year
    apart [analyzeTrend] does compute the rate. *)
Lemma cagr_guards_differ :
  (forall M : MathLib, YearComparison.calculateCAGR (Some 100) (Some 0) 4 = None)
  /\ (forall M : MathLib,
         Trends.averageAnnualGrowthRate
           (Trends.analyzeTrend [Examples.trendPoint 2020 100; Examples.trendPoint 2021 200])
         = Some (YearComparison.cagrPercent 100 200 1)).
Proof. split; intros M; reflexivity. Qed.

(** C5 (amended).  [calculateCAGR] returns
    [((end / begin) ^ (1 / yearsApart) - 1) * 100] exactly when both values
    are present and non-zero, the begin value is positive and
    [yearsApart > 1]; in every other case it returns null.  [analyzeTrend]
    reports that same expression of the first and last means when there are
    at least two data points, the last year is after the first
    ([yearsApart > 0]) and the first mean is positive; otherwise null. *)
Theorem cagr_computed_exactly_when (M : MathLib) :
  (forall (b e : Q) (y : Z),
      ~ b == 0 -> ~ e == 0 -> 0 < b -> (1 < y)%Z ->
      YearComparison.calculateCAGR (Some b) (Some e) y
      = Some (YearComparison.cagrPercent b e y))
  /\ (forall (b e : option Q) (y : Z) (r : Q),
         YearComparison.calculateCAGR b e y = Some r ->
         exists bv ev, b = Some bv /\ e = Some ev
                       /\ 0 < bv /\ ~ ev == 0 /\ (1 < y)%Z
                       /\ r = YearComparison.cagrPercent bv ev y)
  /\ (forall (p q : Trends.PeerTrendDataPoint) (ps : list Trends.PeerTrendDataPoint)
             (lastPoint : Trends.PeerTrendDataPoint),
         last (p :: q :: ps) = Some lastPoint ->
         let yearsApart := (Trends.year lastPoint - Trends.year p)%Z in
         let rate := Trends.averageAnnualGrowthRate (Trends.analyzeTrend (p :: q :: ps)) in
         ((0 < yearsApart)%Z -> 0 < Trends.mean p ->
          rate = Some (YearComparison.cagrPercent
                         (Trends.mean p) (Trends.mean lastPoint) yearsApart))
         /\ (~ ((0 < yearsApart)%Z /\ 0 < Trends.mean p) -> rate = None))
  /\ (forall points : list Trends.PeerTrendDataPoint,
         (length points < 2)%nat ->
         Trends.averageAnnualGrowthRate (Trends.analyzeTrend points) = None).
Proof.
  split; [| split; [| split]].
  - intros b e y Hb He Hpos Hy. unfold YearComparison.calculateCAGR.
    rewrite (proj2 (truthy_some b) Hb), (proj2 (truthy_some e) He). cbn [negb orb].
    destruct (Qle_bool b 0) eqn:E1.
    { apply Qle_bool_iff in E1. exfalso. apply (Qlt_not_le _ _ Hpos E1). }
    destruct (y <=? 1)%Z eqn:E2; [apply Z.leb_le in E2; lia | reflexivity].
  - intros b e y r H. unfold YearComparison.calculateCAGR in H.
    destruct b as [bv |]; [| discriminate]. destruct e as [ev |]; [| discriminate].
    destruct (truthy (Some bv)) eqn:Tb; [| discriminate].
    destruct (truthy (Some ev)) eqn:Te; [| discriminate].
    destruct (Qle_bool bv 0) eqn:E1; [discriminate |].
    destruct (y <=? 1)%Z eqn:E2; [discriminate |].
    cbn in H. injection H as <-.
    exists bv, ev. repeat split; try reflexivity.
    + destruct (Qlt_le_dec 0 bv) as [L | L]; [exact L |].
      apply Qle_bool_iff in L. congruence.
    + apply truthy_some. exact Te.
    + apply Z.leb_gt in E2. lia.
  - intros p q ps lastPoint Hlast yearsApart rate. subst rate.
    unfold Trends.analyzeTrend.
    change (length (p :: q :: ps) <? 2)%nat with false. cbv iota.
    rewrite Hlast. fold yearsApart.
    destruct (Trends.yoy (p :: q :: ps) (0, 0%nat)) as [total n].
    cbn [Trends.averageAnnualGrowthRate].
    split.
    + intros Hy Hm. apply Z.ltb_lt in Hy. apply Qlt_bool_iff in Hm.
      rewrite Hy, Hm. reflexivity.
    + intros Hn. destruct (0 <? yearsApart)%Z eqn:E1; [| reflexivity].
      destruct (Qlt_bool 0 (Trends.mean p)) eqn:E2; [| reflexivity].
      exfalso. apply Hn. split; [now apply Z.ltb_lt | now apply Qlt_bool_iff].
  - intros points H. unfold Trends.analyzeTrend.
    destruct (length points <? 2)%nat eqn:E; [reflexivity |].
    apply Nat.ltb_ge in E. lia.
Qed.

Lemma cagr_computed_exactly_when_witness :
  YearComparison.calculateCAGR (M := coarseMath) (Some 100) (Some 200) 4
  = Some (YearComparison.cagrPercent (M := coarseMath) 100 200 4)
  /\ Trends.averageAnnualGrowthRate
       (Trends.analyzeTrend (M := coarseMath)
          [Examples.trendPoint 2020 100; Examples.trendPoint 2021 200])
     = Some (YearComparison.cagrPercent (M := coarseMath) 100 200 1)
  /\ Trends.averageAnnualGrowthRate
       (Trends.analyzeTrend (M := coarseMath) [Examples.trendPoint 2020 100])
     = None.
Proof.
  destruct (cagr_computed_exactly_when coarseMath) as (H1 & _ & H3 & H4).
  split; [| split].
  - apply H1; vm_compute; try discriminate; reflexivity.
  - destruct (H3 (Examples.trendPoint 2020 100) (Examples.trendPoint 2021 200) []
                 (Examples.trendPoint 2021 200) ltac:(reflexivity)) as [H _].
    apply H; vm_compute; reflexivity.
  - apply H4. simpl. lia.
Defined.

(** C10. When the end-period value is absent or zero, [calculateCAGR]
    returns null, also for a strictly positive begin value and a span of
    more than one year: a collapse to zero is reported as null, not as
    -100 percent. *)
Theorem cagr_null_without_end_value
    (M : MathLib) (b e : option Q) (y : Z) :
  e = None \/ (exists v, e = Some v /\ v == 0) ->
  YearComparison.calculateCAGR b e y = None.
Proof.
  intros [-> | [v [-> Hv]]]; unfold YearComparison.calculateCAGR.
  - destruct b; reflexivity.
  - destruct b as [bv |]; [| reflexivity].
    assert (T : truthy (Some v) = false).
    { simpl. apply Qeq_bool_iff in Hv. now rewrite Hv. }
    rewrite T. cbn [negb]. rewrite orb_true_r. reflexivity.
Qed.

Lemma cagr_null_without_end_value_witness :
  YearComparison.calculateCAGR (M := coarseMath) (Some 100) (Some 0) 4 = None
  /\ YearComparison.calculateCAGR (M := coarseMath) (Some 100) None 4 = None.
Proof.
  split.
  - apply cagr_null_without_end_value. right. exists 0. split; reflexivity.
  - apply cagr_null_without_end_value. left. reflexivity.
Defined.

(** ** Unknown entity identifiers *)

Lemma compareCompanies_skip (db : Database) (id : Z) (before after : list Z)
    (year : option Z) :
  getCompanyById db id = None ->
  compareCompanies db (before ++ id :: after) year
  = compareCompanies db (before ++ after) year.
Proof.
  intros H. induction before as [| x t IH]; simpl.
  - now rewrite H.
  - destruct (getCompanyById db x); now rewrite IH.
Qed.

Lemma comparedRows_skip (db : Database) (id : Z) (before after : list Z)
    (year : option Z) :
  getCompanyById db id = None ->
  Compare.comparedRows db (before ++ id :: after) year
  = Compare.comparedRows db (before ++ after) year.
Proof.
  intros H. induction before as [| x t IH]; simpl.
  - now rewrite H.
  - destruct (getCompanyById db x); now rewrite IH.
Qed.

Lemma comparedRows_found (db : Database) (ids : list Z) (year : option Z)
    (c : Compare.ComparedScope3) :
  In c (Compare.comparedRows db ids year) ->
  exists id', In id' ids /\ getCompanyById db id' = Some (Compare.cs_company c).
Proof.
  induction ids as [| x t IH]; simpl; [contradiction |].
  destruct (getCompanyById db x) as [co |] eqn:E.
  - intros [<- | H].
    + exists x. split; [now left | exact E].
    + destruct (IH H) as [id' [Hin Hg]]. exists id'. split; [now right | exact Hg].
  - intros H. destruct (IH H) as [id' [Hin Hg]]. exists id'. split; [now right | exact Hg].
Qed.

Lemma labelOf_unknown (db : Database) (id : Z) (year : option Z) :
  getCompanyById db id = None ->
  Compare.q_name (Compare.qualityRowOf db year id) = Compare.CompanyNumber id.
Proof.
  intros H. unfold Compare.qualityRowOf, Compare.getCompanyQualityAssessment.
  rewrite H. destruct (Compare.getCompanyEmissions db id year); reflexivity.
Qed.

(** C8 (as stated, in compare mode).  Identifier 999 is not in the store;
    comparing companies 1 and 999 raises no failure and returns the same
    rows as comparing company 1 alone. *)
Lemma compare_mode_omits_unknown_entity :
  getCompanyById Examples.store 999 = None
  /\ compareCompanies Examples.store [1%Z; 999%Z] None
     = compareCompanies Examples.store [1%Z] None
  /\ length (compareCompanies Examples.store [1%Z; 999%Z] None) = 1%nat
  /\ exists r q,
       Server.nzdpu_benchmark (M := coarseMath) Examples.store
         (Examples.benchmarkArgs "compare" None (Some [1%Z; 999%Z]))
       = Server.Content (Server.CompareReport r q)
       /\ map (fun c => Company.company_name (Compare.cs_company c))
              (Compare.cmp_companies r) = ["Alpha"%string].
Proof.
  split; [reflexivity |]. split; [reflexivity |]. split; [reflexivity |].
  eexists. eexists. split; [reflexivity | vm_compute; reflexivity].
Qed.

(** C8 (amended).  For an identifier absent from the store: single mode
    fails with the distinct error "Company with nz_id ... not found";
    compare mode raises no failure, [compareCompanies] and
    [compareCompaniesWithScope3] return what they return without that
    identifier, every returned row belongs to another requested identifier,
    and the quality table lists the identifier under the placeholder name
    "Company <id>". *)
Theorem unknown_entity_outcomes (M : MathLib) (db : Database) (id : Z) :
  getCompanyById db id = None ->
  (forall args : Server.BenchmarkArgs,
      Server.mode args = Some "single"%string ->
      Server.company_id args = Some id -> id <> 0%Z ->
      Server.nzdpu_benchmark db args = Server.IsError (Server.CompanyNotFound id))
  /\ (forall (before after : list Z) (year : option Z),
         compareCompanies db (before ++ id :: after) year
         = compareCompanies db (before ++ after) year
         /\ Compare.cmp_companies
              (Compare.compareCompaniesWithScope3 db (before ++ id :: after) year)
            = Compare.cmp_companies
                (Compare.compareCompaniesWithScope3 db (before ++ after) year))
  /\ (forall (args : Server.BenchmarkArgs) (ids : list Z),
         Server.mode args = Some "compare"%string ->
         Server.company_ids args = Some ids -> In id ids ->
         exists r q,
           Server.nzdpu_benchmark db args = Server.Content (Server.CompareReport r q)
           /\ (forall c, In c (Compare.cmp_companies r) ->
                         exists id', In id' ids /\ id' <> id
                                     /\ getCompanyById db id' = Some (Compare.cs_company c))
           /\ (exists row, In row (fst q)
                           /\ Compare.q_nzId row = id
                           /\ Compare.q_name row = Compare.CompanyNumber id)).
Proof.
  intros Hnone. split; [| split].
  - intros args Hm Hid Hnz. unfold Server.nzdpu_benchmark. rewrite Hm. cbn.
    unfold Server.singleMode. rewrite Hid. cbn.
    destruct (id =? 0)%Z eqn:E; [apply Z.eqb_eq in E; contradiction |]. cbn.
    unfold benchmarkCompany. now rewrite Hnone.
  - intros before after year. split; [now apply compareCompanies_skip |].
    unfold Compare.compareCompaniesWithScope3. cbn [Compare.cmp_companies].
    now apply comparedRows_skip.
  - intros args ids Hm Hids Hin. unfold Server.nzdpu_benchmark. rewrite Hm. cbn.
    unfold Server.compareMode. rewrite Hids.
    destruct ids as [| x t]; [contradiction |]. cbn [length Nat.eqb].
    eexists. eexists. split; [reflexivity |]. split.
    + intros c Hc. cbn [Compare.compareCompaniesWithScope3 Compare.cmp_companies] in Hc.
      destruct (comparedRows_found _ _ _ _ Hc) as [id' [Hi Hg]].
      exists id'. repeat split; try assumption. intros ->. congruence.
    + exists (Compare.qualityRowOf db (Server.year args) id).
      split; [| split; [reflexivity | now apply labelOf_unknown]].
      unfold Compare.compareDataQuality. cbn [fst].
      apply in_map. exact Hin.
Qed.

Lemma unknown_entity_outcomes_witness :
  Server.nzdpu_benchmark (M := coarseMath) Examples.store
    (Examples.benchmarkArgs "single" (Some 999%Z) None)
  = Server.IsError (Server.CompanyNotFound 999)
  /\ compareCompanies Examples.store ([1%Z] ++ 999%Z :: [2%Z]) None
     = compareCompanies Examples.store ([1%Z] ++ [2%Z]) None.
Proof.
  destruct (unknown_entity_outcomes coarseMath Examples.store 999 ltac:(reflexivity))
    as (H1 & H2 & _).
  split.
  - apply H1; [reflexivity | reflexivity | discriminate].
  - apply H2.
Defined.

End Claims.

(* ================================================================== *)
(** * Further properties of the embedded code *)
(* ================================================================== *)

Section ComparabilityProperties.
Import Types Comparability.

Lemma filter_nil_iff {A : Type} (p : A -> bool) (l : list A) :
  List.filter p l = [] <-> forall x, In x l -> p x = false.
Proof.
  induction l as [| a t IH]; simpl.
  - split; [intros _ x [] | reflexivity].
  - destruct (p a) eqn:E.
    + split; [discriminate |]. intros H. specialize (H a (or_introl eq_refl)). congruence.
    + rewrite IH. split.
      * intros H x [<- | Hx]; [exact E | now apply H].
      * intros H x Hx. apply H. now right.
Qed.

(** X1. In all three checkers the flag and the warnings agree: the result
    is not comparable exactly when it carries a warning of severity
    [error]. *)
Theorem not_comparable_iff_error_warning :
  (forall m1 m2 : Scope2Methodology,
      let r := checkScope2Comparability m1 m2 in
      isComparable r = false <-> exists w, In w (warnings r) /\ severity w = error)
  /\ (forall e1 e2 : EmissionsData,
         let r := checkEmissionsComparability e1 e2 in
         isComparable r = false <-> exists w, In w (warnings r) /\ severity w = error)
  /\ (forall (companyIds : list Z) (scope : RequestScope)
             (emissionsData : gmap Z EmissionsData),
         let r := validateComparisonRequest companyIds scope emissionsData in
         isComparable r = false <-> exists w, In w (warnings r) /\ severity w = error).
Proof.
  split; [| split].
  - intros m1 m2. destruct m1, m2; cbn; split; intros H;
      try discriminate; try reflexivity;
      try match type of H with ex _ => destruct H as [w [[] _]] end;
      eexists; (split; [left; reflexivity | reflexivity]).
  - intros e1 e2. unfold checkEmissionsComparability.
    destruct (yearRule e1 e2), (boundaryRule e1 e2), (scope1Rule e1 e2),
      (mixedComparison e1 e2); cbn; split; intros H;
      try discriminate; try reflexivity;
      try (exists scope2MixWarning; split; [tauto | reflexivity]);
      destruct H as [w [Hin Hs]];
      repeat (destruct Hin as [<- | Hin]; [discriminate Hs |]); destruct Hin.
  - intros companyIds scope emissionsData. unfold validateComparisonRequest.
    destruct (List.filter _ companyIds) as [| x t].
    + cbn [length Nat.ltb Nat.leb].
      destruct scope; cbn;
        repeat match goal with
               | |- context [hasOther ?v ?l] => destruct (hasOther v l); cbn
               end;
        split; intros H; try discriminate; try reflexivity;
        try match type of H with
            | ex _ =>
                destruct H as [w [Hin Hs]];
                repeat (destruct Hin as [<- | Hin]; [discriminate Hs |]); destruct Hin
            end;
        eexists; (split; [left; reflexivity | reflexivity]).
    + cbn. split; [| reflexivity]. intros _.
      eexists; (split; [left; reflexivity | reflexivity]).
Qed.

Lemma not_comparable_iff_error_warning_witness :
  isComparable (checkEmissionsComparability Examples.gridAverage Examples.contractual)
  = false.
Proof.
  destruct not_comparable_iff_error_warning as (_ & H & _).
  apply H. exists scope2MixWarning. split; [now left | reflexivity].
Defined.

(** X2. [checkEmissionsComparability] depends on the order of its
    arguments: a record reporting both Scope 2 variants compared with a
    record reporting exactly one is blocked, while the same two records in
    the other order are comparable. *)
Theorem emissions_check_order_dependent
    (both one : EmissionsData) (m : Scope2Methodology) :
  isSome (scope2_location_based both) = true ->
  isSome (scope2_market_based both) = true ->
  Spec.soleVariant one = Some m ->
  isComparable (checkEmissionsComparability both one) = false
  /\ isComparable (checkEmissionsComparability one both) = true.
Proof.
  intros Hl Hm Hs. unfold checkEmissionsComparability, mixedComparison.
  unfold Spec.soleVariant in Hs. rewrite Hl, Hm.
  destruct (scope2_location_based one), (scope2_market_based one);
    try discriminate; cbn; split; reflexivity.
Qed.

Lemma emissions_check_order_dependent_witness :
  isComparable
    (checkEmissionsComparability
       (Examples.emissionsData 2022 (Some 120) (Some 80) None) Examples.contractual)
  = false
  /\ isComparable
       (checkEmissionsComparability
          Examples.contractual (Examples.emissionsData 2022 (Some 120) (Some 80) None))
     = true.
Proof.
  apply (emissions_check_order_dependent
           (Examples.emissionsData 2022 (Some 120) (Some 80) None)
           Examples.contractual market_based); reflexivity.
Defined.

Lemma optS_eqb_refl (s : option string) : optS_eqb s s = true.
Proof. destruct s; simpl; [apply String.eqb_refl | reflexivity]. Qed.

(** X3. A record compared with itself raises no warning and is comparable,
    whatever it reports. *)
Theorem emissions_check_reflexive (e : EmissionsData) :
  warnings (checkEmissionsComparability e e) = []
  /\ isComparable (checkEmissionsComparability e e) = true.
Proof.
  unfold checkEmissionsComparability, yearRule, boundaryRule, scope1Rule,
    mixedComparison.
  rewrite Z.eqb_refl, !optS_eqb_refl. cbn [negb andb].
  rewrite andb_false_r.
  destruct (isSome (scope2_location_based e)), (isSome (scope2_market_based e));
    cbn; split; reflexivity.
Qed.

(** X4. A comparison request is only ever declared comparable when every
    requested company has emissions data; for the scopes other than
    ['scope2_lb'] and ['scope2_mb'] that is also sufficient. *)
Theorem request_comparable_needs_all_data
    (companyIds : list Z) (scope : RequestScope) (emissionsData : gmap Z EmissionsData) :
  let r := validateComparisonRequest companyIds scope emissionsData in
  (isComparable r = true ->
   forall id, In id companyIds -> exists e, emissionsData !! id = Some e)
  /\ (requestedVariant scope = None ->
      (forall id, In id companyIds -> exists e, emissionsData !! id = Some e) ->
      isComparable r = true).
Proof.
  cbv zeta. unfold validateComparisonRequest.
  destruct (List.filter (fun id => negb (isSome (emissionsData !! id))) companyIds)
    as [| x t] eqn:E.
  - pose proof (proj1 (filter_nil_iff _ _) E) as Hall. split.
    + intros _ id Hin. specialize (Hall id Hin). cbn in Hall.
      destruct (emissionsData !! id) as [e |]; [now exists e | discriminate].
    + intros Hv _. rewrite Hv. cbn [length Nat.ltb Nat.leb].
      destruct scope; try discriminate; reflexivity.
  - cbn. split; [discriminate |]. intros _ Hall.
    assert (Hx : In x (List.filter (fun id => negb (isSome (emissionsData !! id)))
                                   companyIds)) by (rewrite E; now left).
    apply filter_In in Hx as [Hin Hp]. destruct (Hall x Hin) as [e He].
    rewrite He in Hp. discriminate.
Qed.

Lemma request_comparable_needs_all_data_witness :
  isComparable
    (validateComparisonRequest [1%Z] scope1 {[ 1%Z := Examples.contractual ]}) = true
  /\ exists e, ({[ 1%Z := Examples.contractual ]} : gmap Z EmissionsData) !! 1%Z = Some e.
Proof.
  destruct (request_comparable_needs_all_data
              [1%Z] scope1 {[ 1%Z := Examples.contractual ]}) as [H1 H2].
  assert (C : isComparable
                (validateComparisonRequest [1%Z] scope1 {[ 1%Z := Examples.contractual ]})
              = true).
  { apply H2; [reflexivity |]. intros id [<- | []]. eexists. reflexivity. }
  split; [exact C |]. apply (H1 C). now left.
Defined.

End ComparabilityProperties.

Section StatisticsProperties.
Import Types Queries Spec JSFacts StatsFacts.

Lemma insert_In (x y : Q) (l : list Q) : In y (insert x l) <-> y = x \/ In y l.
Proof.
  induction l as [| a t IH]; simpl.
  - intuition congruence.
  - destruct (Qle_bool x a); simpl; [intuition congruence |].
    rewrite IH. intuition congruence.
Qed.

Lemma sort_In (y : Q) (l : list Q) : In y (sort l) <-> In y l.
Proof.
  induction l as [| a t IH]; simpl; [reflexivity |].
  rewrite insert_In, IH. intuition congruence.
Qed.

Lemma ascending_bounds (l : list Q) (x : Q) :
  ascending l -> In x l -> at_ l 0 <= x /\ x <= at_ l (length l - 1).
Proof.
  intros Hasc Hin. destruct (In_nth l x 0 Hin) as [i [Hi <-]].
  fold (at_ l i). split; apply Hasc; lia.
Qed.

Lemma num_succ (n : nat) : num (S n) == num n + 1.
Proof.
  unfold num. rewrite Nat2Z.inj_succ, <- Z.add_1_r, inject_Z_plus. reflexivity.
Qed.

Lemma num_pos (n : nat) : (0 < n)%nat -> 0 < num n.
Proof.
  intros H. unfold num. change 0 with (inject_Z 0). rewrite <- Zlt_Qlt. lia.
Qed.

Lemma num_le (a b : nat) : (a <= b)%nat -> num a <= num b.
Proof. intros H. unfold num. rewrite <- Zle_Qle. lia. Qed.

Lemma fold_sum_bounds (lo hi : Q) (l : list Q) (a : Q) :
  (forall x, In x l -> lo <= x /\ x <= hi) ->
  a + lo * num (length l) <= fold_left Qplus l a
  /\ fold_left Qplus l a <= a + hi * num (length l).
Proof.
  revert a. induction l as [| x t IH]; intros a H.
  - cbn [fold_left length]. change (num 0) with 0. split; lra.
  - cbn [fold_left length].
    destruct (H x (or_introl eq_refl)) as [Hlo Hhi].
    destruct (IH (a + x) (fun y Hy => H y (or_intror Hy))) as [I1 I2].
    pose proof (num_succ (length t)) as E.
    split.
    + eapply Qle_trans; [| exact I1]. rewrite E. lra.
    + eapply Qle_trans; [exact I2 |]. rewrite E. lra.
Qed.

Lemma mean_between (lo hi : Q) (l : list Q) :
  l <> [] -> (forall x, In x l -> lo <= x /\ x <= hi) ->
  lo <= sum l / num (length l) /\ sum l / num (length l) <= hi.
Proof.
  intros Hne H.
  assert (Hn : 0 < num (length l)).
  { apply num_pos. destruct l; simpl; [congruence | lia]. }
  destruct (fold_sum_bounds lo hi l 0 H) as [I1 I2]. fold (sum l) in I1, I2.
  split.
  - apply Qle_shift_div_l; [exact Hn | lra].
  - apply Qle_shift_div_r; [exact Hn | lra].
Qed.

Lemma mean_bounds (M : MathLib) :
  (forall values : list Q,
      values <> [] ->
      let st := Engine.calculatePeerStats values in
      count st = length values /\ min st <= mean st /\ mean st <= max st)
  /\ (forall (db : Database) (scope : Scope) (filters : PeerFilters) (st : PeerGroupStats),
         getPeerStatistics db scope filters = Some st ->
         count st = length (peerValues db scope filters)
         /\ (1 <= count st)%nat /\ min st <= mean st /\ mean st <= max st).
Proof.
  split.
  - intros values Hne st. subst st.
    destruct (calculatePeerStats_fields values Hne) as (E1 & _ & _ & _ & E5).
    rewrite E1, E5. unfold Engine.calculatePeerStats.
    destruct values as [| v vs] eqn:Ev; [congruence |].
    change (length (v :: vs) =? 0)%nat with false. cbn [count mean].
    rewrite <- Ev in *. split; [apply sort_length |].
    rewrite sort_length. apply mean_between; [congruence |].
    intros x Hx. rewrite <- (sort_length values).
    apply ascending_bounds; [apply sort_ascending | now apply sort_In].
  - intros db scope filters st H.
    apply getPeerStatistics_some in H as [Hne ->].
    destruct (statsOfOrdered_fields (peerValues db scope filters)) as (E1 & _ & _ & _ & E5).
    rewrite E1, E5. unfold statsOfOrdered. cbn [count mean].
    split; [reflexivity |]. split.
    + destruct (peerValues db scope filters); simpl; [congruence | lia].
    + apply mean_between; [exact Hne |].
      intros x Hx. apply ascending_bounds; [apply peerValues_ascending | exact Hx].
Qed.



(** Every value selected for a cohort is strictly positive. *)
Lemma peerValues_positive (db : Database) (scope : Scope) (filters : PeerFilters) (x : Q) :
  In x (peerValues db scope filters) -> 0 < x.
Proof.
  unfold peerValues. rewrite sort_In, <- list_elem_of_In, list_elem_of_omap.
  intros [e [_ He]].
  destruct (companies db !! Emissions.nz_id e) as [c |]; [| discriminate].
  destruct (peerWhere scope filters e c) eqn:W; [| discriminate].
  unfold peerWhere in W. rewrite He in W.
  apply andb_prop in W as [W _]. apply andb_prop in W as [W _].
  apply andb_prop in W as [W _]. now apply Qlt_bool_iff in W.
Qed.

(** X6. Cohort statistics are computed over strictly positive values only:
    whenever [getPeerStatistics] returns a record, its minimum (hence every
    quartile, the mean and the maximum) is greater than zero. *)
Theorem cohort_statistics_positive (M : MathLib)
    (db : Database) (scope : Scope) (filters : PeerFilters) (st : PeerGroupStats) :
  getPeerStatistics db scope filters = Some st ->
  0 < min st /\ 0 < percentile25 st /\ 0 < median st
  /\ 0 < mean st /\ 0 < percentile75 st /\ 0 < max st.
Proof.
  intros H.
  destruct (proj2 (mean_bounds M) db scope filters st H)
    as (_ & _ & M1 & _).
  apply getPeerStatistics_some in H as [Hne ->].
  destruct (statsOfOrdered_ordered (peerValues db scope filters)
              (peerValues_ascending db scope filters) Hne) as (O1 & O2 & O3 & O4).
  assert (P : 0 < min (statsOfOrdered (peerValues db scope filters))).
  { destruct (statsOfOrdered_fields (peerValues db scope filters)) as (E1 & _).
    rewrite E1. apply (peerValues_positive db scope filters).
    destruct (peerValues db scope filters) as [| v vs]; [congruence |]. now left. }
  repeat split; lra.
Qed.

Lemma cohort_statistics_positive_witness :
  exists st,
    getPeerStatistics (M := coarseMath) Examples.store scope1 Examples.nzFilter = Some st
    /\ 0 < min st /\ 0 < mean st.
Proof.
  eexists. split; [vm_compute; reflexivity |].
  destruct (cohort_statistics_positive coarseMath Examples.store scope1 Examples.nzFilter
              _ ltac:(vm_compute; reflexivity)) as (H1 & _ & _ & H4 & _).
  split; [exact H1 | exact H4].
Defined.

End StatisticsProperties.

Section PercentileProperties.
Import Types Queries Spec JSFacts StatsFacts.

Lemma rank_as_counts (value : Q) (values : list Q) :
  values <> [] -> Engine.calculatePercentileRank value values = midRank value values.
Proof.
  intros Hne. unfold Engine.calculatePercentileRank, midRank.
  destruct values as [| x t]; [congruence |].
  change (length (x :: t) =? 0)%nat with false. cbv iota.
  unfold countBelow, countEqual. now rewrite !sort_count, sort_length.
Qed.

Lemma below_not_equal (x v : Q) : Qlt_bool x v = true -> Qeq_bool x v = false.
Proof.
  intros H. apply Qlt_bool_iff in H. destruct (Qeq_bool x v) eqn:E; [| reflexivity].
  apply Qeq_bool_iff in E. rewrite E in H. exfalso. apply (Qlt_irrefl _ H).
Qed.

Lemma counts_le (v : Q) (l : list Q) :
  (countBelow v l + countEqual v l <= length l)%nat.
Proof.
  unfold countBelow, countEqual. induction l as [| x t IH]; simpl; [lia |].
  destruct (Qlt_bool x v) eqn:B.
  - rewrite (below_not_equal x v B). simpl. lia.
  - destruct (Qeq_bool x v); simpl; lia.
Qed.

Lemma counts_mono (v1 v2 : Q) (l : list Q) :
  v1 <= v2 ->
  (2 * countBelow v1 l + countEqual v1 l <= 2 * countBelow v2 l + countEqual v2 l)%nat.
Proof.
  intros Hv. unfold countBelow, countEqual. induction l as [| x t IH]; simpl; [lia |].
  destruct (Qlt_bool x v1) eqn:B1.
  - rewrite (below_not_equal x v1 B1).
    assert (B2 : Qlt_bool x v2 = true).
    { apply Qlt_bool_iff. apply Qlt_bool_iff in B1. lra. }
    rewrite B2, (below_not_equal x v2 B2). simpl. lia.
  - destruct (Qeq_bool x v1) eqn:E1.
    + apply Qeq_bool_iff in E1.
      destruct (Qlt_bool x v2) eqn:B2.
      * rewrite (below_not_equal x v2 B2). simpl. lia.
      * assert (E2 : Qeq_bool x v2 = true).
        { apply Qeq_bool_iff. apply Qle_antisym; [lra |].
          destruct (Qlt_le_dec x v2) as [L | L]; [| exact L].
          apply Qlt_bool_iff in L. congruence. }
        rewrite E2. simpl. lia.
    + destruct (Qlt_bool x v2), (Qeq_bool x v2); simpl; lia.
Qed.

Lemma num_nonneg (n : nat) : 0 <= num n.
Proof. unfold num. change 0 with (inject_Z 0). rewrite <- Zle_Qle. lia. Qed.

Lemma num_add (a b : nat) : num (a + b) == num a + num b.
Proof. unfold num. rewrite Nat2Z.inj_add, inject_Z_plus. reflexivity. Qed.

Lemma scaled_le (x y n : Q) : 0 < n -> x <= y -> (x / n) * 100 <= (y / n) * 100.
Proof.
  intros Hn Hxy. apply Qmult_le_compat_r; [| lra].
  unfold Qdiv. apply Qmult_le_compat_r; [exact Hxy |].
  apply Qlt_le_weak. now apply Qinv_lt_0_compat.
Qed.

(** X7. The percentile rank is a percentage: for every value and every
    sample, empty or not, [calculatePercentileRank] lies between 0 and
    100. *)
Theorem percentile_rank_bounds (value : Q) (values : list Q) :
  0 <= Engine.calculatePercentileRank value values
  /\ Engine.calculatePercentileRank value values <= 100.
Proof.
  destruct values as [| x t] eqn:Ev.
  - cbn. split; lra.
  - rewrite <- Ev. assert (Hne : values <> []) by (rewrite Ev; discriminate).
    rewrite (rank_as_counts value values Hne). unfold midRank.
    assert (Hn : 0 < num (length values)).
    { apply num_pos. rewrite Ev. simpl. lia. }
    pose proof (num_nonneg (countBelow value values)) as B.
    pose proof (num_nonneg (countEqual value values)) as E.
    pose proof (num_le _ _ (counts_le value values)) as L. rewrite num_add in L.
    split.
    + apply Qmult_le_0_compat; [| lra].
      apply Qle_shift_div_l; [exact Hn | lra].
    + assert (D : (num (countBelow value values) + (1 # 2) * num (countEqual value values))
                  / num (length values) <= 1).
      { apply Qle_shift_div_r; [exact Hn | lra]. }
      lra.
Qed.

(** X8. The percentile rank is non-decreasing in the queried value: for a
    fixed sample, a larger value never receives a smaller rank. *)
Theorem percentile_rank_monotone (v1 v2 : Q) (values : list Q) :
  v1 <= v2 ->
  Engine.calculatePercentileRank v1 values <= Engine.calculatePercentileRank v2 values.
Proof.
  intros Hv. destruct values as [| x t] eqn:Ev.
  - cbn. lra.
  - rewrite <- Ev. assert (Hne : values <> []) by (rewrite Ev; discriminate).
    rewrite !(rank_as_counts _ values Hne). unfold midRank.
    apply scaled_le; [apply num_pos; rewrite Ev; simpl; lia |].
    pose proof (num_le _ _ (counts_mono v1 v2 values Hv)) as L.
    rewrite !num_add in L.
    replace (2 * countBelow v1 values)%nat
      with (countBelow v1 values + countBelow v1 values)%nat in L by lia.
    replace (2 * countBelow v2 values)%nat
      with (countBelow v2 values + countBelow v2 values)%nat in L by lia.
    rewrite !num_add in L. lra.
Qed.

Lemma percentile_rank_monotone_witness :
  Engine.calculatePercentileRank 20 [100; 10; 20]
  <= Engine.calculatePercentileRank 30 [100; 10; 20].
Proof. apply percentile_rank_monotone. vm_compute. discriminate. Defined.

Lemma count_none (p : Q -> bool) (l : list Q) :
  (forall x, In x l -> p x = false) -> length (List.filter p l) = 0%nat.
Proof. intros H. now rewrite (proj2 (filter_nil_iff p l) H). Qed.

Lemma count_all (p : Q -> bool) (l : list Q) :
  (forall x, In x l -> p x = true) -> length (List.filter p l) = length l.
Proof.
  induction l as [| a t IH]; intros H; simpl; [reflexivity |].
  rewrite (H a (or_introl eq_refl)). simpl. f_equal. apply IH.
  intros x Hx. apply H. now right.
Qed.

(** X9. At the extremes of a non-empty sample the rank is exact: a value
    below every sample element ranks 0, a value above every element ranks
    100. *)
Theorem percentile_rank_extremes (value : Q) (values : list Q) :
  values <> [] ->
  ((forall x, In x values -> value < x) ->
   Engine.calculatePercentileRank value values == 0)
  /\ ((forall x, In x values -> x < value) ->
      Engine.calculatePercentileRank value values == 100).
Proof.
  intros Hne. rewrite (rank_as_counts value values Hne). unfold midRank.
  assert (Hn : 0 < num (length values)).
  { apply num_pos. destruct values; simpl; [congruence | lia]. }
  split; intros H.
  - unfold countBelow, countEqual. rewrite !count_none.
    + change (num 0) with 0. field. lra.
    + intros x Hx. specialize (H x Hx).
      destruct (Qeq_bool x value) eqn:E; [| reflexivity].
      apply Qeq_bool_iff in E. lra.
    + intros x Hx. specialize (H x Hx).
      destruct (Qlt_bool x value) eqn:E; [| reflexivity].
      apply Qlt_bool_iff in E. lra.
  - unfold countBelow, countEqual. rewrite count_all, count_none.
    + change (num 0) with 0. field. lra.
    + intros x Hx. specialize (H x Hx).
      destruct (Qeq_bool x value) eqn:E; [| reflexivity].
      apply Qeq_bool_iff in E. lra.
    + intros x Hx. apply Qlt_bool_iff. now apply H.
Qed.

Lemma percentile_rank_extremes_witness :
  Engine.calculatePercentileRank 5 [100; 10; 20] == 0
  /\ Engine.calculatePercentileRank 500 [100; 10; 20] == 100.
Proof.
  split.
  - apply (proj1 (percentile_rank_extremes 5 [100; 10; 20] ltac:(discriminate))).
    intros x [<- | [<- | [<- | []]]]; reflexivity.
  - apply (proj2 (percentile_rank_extremes 500 [100; 10; 20] ltac:(discriminate))).
    intros x [<- | [<- | [<- | []]]]; reflexivity.
Defined.

End PercentileProperties.

Section BenchmarkProperties.
Import Types Queries Spec JSFacts StatsFacts.

Lemma Qle_bool_gt (a b : Q) : Qle_bool a b = false -> b < a.
Proof.
  intros H. destruct (Qlt_le_dec b a) as [L | L]; [exact L |].
  apply Qle_bool_iff in L. congruence.
Qed.

Lemma round_percent_range (x : Q) :
  0 <= x -> x <= 1 -> (0 <= Math_round (x * 100) <= 100)%Z.
Proof.
  intros H0 H1. unfold Math_round. split.
  - apply Z.le_trans with (Qfloor 0); [vm_compute; discriminate |].
    apply Qfloor_resp_le. lra.
  - apply Z.le_trans with (Qfloor (100 + (1 # 2))); [| vm_compute; discriminate].
    apply Qfloor_resp_le. lra.
Qed.

Lemma calcPercentile_range (value : option Q) (stats : option PeerGroupStats) (p : Z) :
  calcPercentile value stats = Some p -> (0 <= p <= 100)%Z.
Proof.
  unfold calcPercentile. destruct value as [v |]; [| discriminate].
  destruct stats as [st |]; [| discriminate].
  destruct (negb (truthy (Some v))); [discriminate |].
  destruct (Qle_bool v (min st)) eqn:E1; [intros H; injection H as <-; lia |].
  destruct (Qle_bool (max st) v) eqn:E2; [intros H; injection H as <-; lia |].
  intros H. injection H as <-.
  apply Qle_bool_gt in E1. apply Qle_bool_gt in E2.
  assert (R : 0 < max st - min st) by lra.
  apply round_percent_range.
  - apply Qle_shift_div_l; [exact R | lra].
  - apply Qle_shift_div_r; [exact R | lra].
Qed.

(** X10. Every percentile that [benchmarkCompany] reports, for the
    jurisdiction, sector or combined cohort, is an integer between 0 and
    100. *)
Theorem benchmark_percentiles_in_range (M : MathLib)
    (db : Database) (nzId : Z) (scope : Scope) (year : option Z)
    (r : BenchmarkResult) (p : Z) :
  benchmarkCompany db nzId scope year = Some r ->
  percentileInJurisdiction r = Some p \/ percentileInSector r = Some p
  \/ percentileInCombined r = Some p ->
  (0 <= p <= 100)%Z.
Proof.
  intros H Hp. unfold benchmarkCompany in H.
  destruct (getCompanyById db nzId); [| discriminate].
  injection H as <-. cbn in Hp.
  destruct Hp as [Hp | [Hp | Hp]]; exact (calcPercentile_range _ _ _ Hp).
Qed.

Lemma benchmark_percentiles_in_range_witness :
  exists r,
    benchmarkCompany (M := coarseMath) Examples.store 2 scope1 None = Some r
    /\ percentileInJurisdiction r = Some 11%Z
    /\ (0 <= 11 <= 100)%Z.
Proof.
  eexists. split; [vm_compute; reflexivity |]. split; [vm_compute; reflexivity |].
  eapply (benchmark_percentiles_in_range coarseMath Examples.store 2 scope1 None).
  - vm_compute. reflexivity.
  - left. vm_compute. reflexivity.
Defined.

Lemma latestRow_In (rows : list EmissionsRow) (acc : option EmissionsRow)
    (e : EmissionsRow) :
  fold_left
    (fun best e =>
       match best with
       | None => Some e
       | Some b => if (Emissions.year b <? Emissions.year e)%Z then Some e else Some b
       end) rows acc = Some e ->
  acc = Some e \/ In e rows.
Proof.
  revert acc. induction rows as [| x t IH]; intros acc H; simpl in H; [now left |].
  destruct (IH _ H) as [E | Hin]; [| right; now right].
  destruct acc as [b |].
  - destruct (Emissions.year b <? Emissions.year x)%Z.
    + injection E as <-. right. now left.
    + now left.
  - injection E as <-. right. now left.
Qed.

(** The row read for a company is one of its own stored rows. *)
Lemma emissionsRowFor_In (db : Database) (nzId : Z) (year : option Z) (e : EmissionsRow) :
  emissionsRowFor db nzId year = Some e ->
  In e (emissions db) /\ Emissions.nz_id e = nzId.
Proof.
  unfold emissionsRowFor. intros H.
  assert (Hin : In e (List.filter (fun e => (Emissions.nz_id e =? nzId)%Z) (emissions db))).
  { destruct (truthyZ year).
    - apply find_some in H. tauto.
    - unfold latestRow in H. destruct (latestRow_In _ _ _ H) as [E | Hin];
        [discriminate | exact Hin]. }
  apply filter_In in Hin as [Hin Hid]. split; [exact Hin | now apply Z.eqb_eq].
Qed.

Lemma sqlLowerEq_self (s : string) : sqlLowerEq (Some s) s = true.
Proof. simpl. apply String.eqb_refl. Qed.

Lemma own_filter (s : option string) :
  (if truthyS s then sqlLowerEq s (textOf s) else true) = true.
Proof.
  destruct s as [x |]; [| reflexivity].
  destruct (truthyS (Some x)); [apply sqlLowerEq_self | reflexivity].
Qed.

Lemma own_year (y : Z) :
  (if truthyZ (Some y) then (y =? default 0%Z (Some y))%Z else true) = true.
Proof. destruct (truthyZ (Some y)); [apply Z.eqb_refl | reflexivity]. Qed.

(** A company's own positive value is selected into every cohort built
    from its own attributes and reporting year. *)
Lemma own_value_selected (db : Database) (nzId : Z) (year : option Z) (scope : Scope)
    (c : CompanyRow) (e : EmissionsRow) (v : Q) (useJ useS : bool) :
  getCompanyById db nzId = Some c ->
  emissionsRowFor db nzId year = Some e ->
  column scope e = Some v -> 0 < v ->
  In v (peerValues db scope
          {| f_jurisdiction := if useJ then Company.jurisdiction c else None;
             f_sics_sector := if useS then Company.sics_sector c else None;
             f_year := Some (Emissions.year e) |}).
Proof.
  intros Hc He Hv Hpos. destruct (emissionsRowFor_In _ _ _ _ He) as [Hin Hid].
  unfold peerValues. rewrite sort_In, <- list_elem_of_In, list_elem_of_omap.
  exists e. split; [now apply list_elem_of_In |].
  unfold getCompanyById in Hc. rewrite Hid, Hc.
  unfold peerWhere. rewrite Hv. cbn [f_jurisdiction f_sics_sector f_year].
  rewrite (proj2 (Qlt_bool_iff 0 v) Hpos), own_year.
  destruct useJ, useS; rewrite ?own_filter; reflexivity.
Qed.

Lemma selected_stats (M : MathLib) (db : Database) (scope : Scope) (filters : PeerFilters)
    (v : Q) :
  In v (peerValues db scope filters) -> 0 < v ->
  exists st p,
    getPeerStatistics db scope filters = Some st
    /\ min st <= v /\ v <= max st
    /\ calcPercentile (Some v) (Some st) = Some p.
Proof.
  intros Hin Hpos. unfold getPeerStatistics.
  destruct (peerValues db scope filters) as [| x t] eqn:E; [destruct Hin |].
  change (length (x :: t) =? 0)%nat with false. cbv iota. rewrite <- E in *.
  destruct (statsOfOrdered_fields (peerValues db scope filters)) as (E1 & _ & _ & _ & E5).
  destruct (ascending_bounds _ v (peerValues_ascending db scope filters) Hin) as [B1 B2].
  cbv zeta in E1, E5.
  assert (T : truthy (Some v) = true) by (apply truthy_some; lra).
  eexists. exists
    (if Qle_bool v (min (statsOfOrdered (peerValues db scope filters))) then 0%Z
     else if Qle_bool (max (statsOfOrdered (peerValues db scope filters))) v then 100%Z
     else Math_round
            ((v - min (statsOfOrdered (peerValues db scope filters)))
             / (max (statsOfOrdered (peerValues db scope filters))
                - min (statsOfOrdered (peerValues db scope filters))) * 100)).
  split; [reflexivity |]. rewrite E1, E5 at 1 2. repeat split; try assumption.
  unfold calcPercentile. rewrite T. cbn [negb].
  destruct (Qle_bool v _); [reflexivity |]. destruct (Qle_bool _ v); reflexivity.
Qed.

(** X11. A benchmarked company belongs to its own cohorts.  When the
    company has a positive value for the scope and a jurisdiction, the
    jurisdiction statistics are present, the company's value lies between
    their minimum and maximum, and its jurisdiction percentile is present;
    likewise for the sector cohort when the company has a sector. *)
Theorem benchmarked_company_in_own_cohort (M : MathLib)
    (db : Database) (nzId : Z) (scope : Scope) (year : option Z)
    (r : BenchmarkResult) (v : Q) :
  benchmarkCompany db nzId scope year = Some r ->
  companyValue r = Some v -> 0 < v ->
  (truthyS (Company.jurisdiction (company r)) = true ->
   exists st p, jurisdictionStats r = Some st /\ min st <= v /\ v <= max st
                /\ percentileInJurisdiction r = Some p)
  /\ (truthyS (Company.sics_sector (company r)) = true ->
      exists st p, sectorStats r = Some st /\ min st <= v /\ v <= max st
                   /\ percentileInSector r = Some p).
Proof.
  intros H Hv Hpos. unfold benchmarkCompany in H.
  destruct (getCompanyById db nzId) as [c |] eqn:Hc; [| discriminate].
  injection H as <-. cbn in *.
  destruct (emissionsRowFor db nzId year) as [e |] eqn:He; [| discriminate].
  split; intros T; rewrite T.
  - destruct (selected_stats M db scope _ v
                (own_value_selected db nzId year scope c e v true false Hc He Hv Hpos) Hpos)
      as (st & p & S1 & S2 & S3 & S4).
    cbn in S1. rewrite S1, Hv. exists st, p. repeat split; assumption.
  - destruct (selected_stats M db scope _ v
                (own_value_selected db nzId year scope c e v false true Hc He Hv Hpos) Hpos)
      as (st & p & S1 & S2 & S3 & S4).
    cbn in S1. rewrite S1, Hv. exists st, p. repeat split; assumption.
Qed.

Lemma benchmarked_company_in_own_cohort_witness :
  exists st p,
    option_map jurisdictionStats
      (benchmarkCompany (M := coarseMath) Examples.store 2 scope1 None) = Some (Some st)
    /\ min st <= 20 /\ 20 <= max st
    /\ option_map percentileInJurisdiction
         (benchmarkCompany (M := coarseMath) Examples.store 2 scope1 None)
       = Some (Some p).
Proof.
  destruct (benchmarkCompany (M := coarseMath) Examples.store 2 scope1 None)
    as [r |] eqn:E; [| vm_compute in E; discriminate].
  destruct (benchmarked_company_in_own_cohort coarseMath Examples.store 2 scope1 None r 20 E)
    as [H _].
  - vm_compute in E. injection E as <-. reflexivity.
  - reflexivity.
  - destruct H as (st & p & H1 & H2 & H3 & H4).
    + vm_compute in E. injection E as <-. reflexivity.
    + exists st, p. cbn. rewrite H1, H4. repeat split; assumption.
Defined.

End BenchmarkProperties.

Section QualityProperties.
Import Types Queries Assessment Quality.

Lemma boundary_low_iff_nonstandard (boundary : option string) :
  snd (assessBoundaryQuality boundary) = false
  <-> fst (assessBoundaryQuality boundary) = LOW.
Proof.
  unfold assessBoundaryQuality.
  destruct (negb (truthyS boundary)); [cbn; tauto |].
  destruct (includesS STANDARD_BOUNDARIES (textOf boundary)); [cbn; split; discriminate |].
  destruct (includes _ "operational" || includes _ "financial");
    [cbn; split; discriminate |].
  destruct (includes _ "equity"); cbn; [split; discriminate | tauto].
Qed.

Lemma verification_low_iff_absent (verification : option string) :
  assessVerificationQuality verification = LOW <-> truthyS verification = false.
Proof.
  unfold assessVerificationQuality. destruct (truthyS verification); cbn.
  - destruct (includes _ "reasonable"); [split; discriminate |].
    destruct (includes _ "limited"); split; discriminate.
  - tauto.
Qed.

Lemma methodology_low_iff_absent (methodology : option string) :
  assessS12MethodologyQuality methodology = LOW <-> truthyS methodology = false.
Proof.
  unfold assessS12MethodologyQuality. destruct (truthyS methodology); cbn.
  - destruct (_ || _); [split; discriminate |].
    destruct (_ || _); split; discriminate.
  - tauto.
Qed.

Lemma categoryWarnings_spec (e : EmissionsRow) (c : nat) (w : QualityWarning) :
  In w (categoryWarnings e c)
  <-> exists v,
        scope3_cat e c = Some v /\ 0 < v
        /\ ((getScope3MethodTier (scope3_cat_method e c) = UNKNOWN
             /\ w = Scope3NoMethodology c v)
            \/ (getScope3MethodTier (scope3_cat_method e c) = MODELED
                /\ 1000000 < v
                /\ w = Scope3Modeled c (textOf (scope3_cat_method e c)) v)).
Proof.
  unfold categoryWarnings. destruct (scope3_cat e c) as [v |].
  - destruct (Qlt_bool 0 v) eqn:P.
    + apply Qlt_bool_iff in P.
      rewrite (proj2 (truthy_some v)) by lra. cbn [andb].
      destruct (getScope3MethodTier (scope3_cat_method e c)).
      * split; [intros [] |]. intros (v' & _ & _ & [[? _] | [? _]]); discriminate.
      * destruct (Qlt_bool 1000000 v) eqn:B.
        -- apply Qlt_bool_iff in B. split.
           ++ intros [<- | []]. exists v. repeat split; try assumption.
              right. repeat split; assumption.
           ++ intros (v' & Hv & _ & [[? _] | (_ & _ & ->)]); [discriminate |].
              injection Hv as <-. now left.
        -- split; [intros [] |].
           intros (v' & Hv & _ & [[? _] | (_ & B' & _)]); [discriminate |].
           injection Hv as <-. apply Qlt_bool_iff in B'. congruence.
      * split.
        -- intros [<- | []]. exists v. repeat split; try assumption. now left.
        -- intros (v' & Hv & _ & [[_ ->] | [? _]]); [| discriminate].
           injection Hv as <-. now left.
    + rewrite andb_false_r. split; [intros [] |].
      intros (v' & Hv & P' & _). injection Hv as <-.
      apply Qlt_bool_iff in P'. congruence.
  - split; [intros [] |]. intros (v' & Hv & _). discriminate.
Qed.

(** The warnings of an assessment: a prefix about boundary and
    verification, then the per-category warnings in category order. *)
Lemma assess_warnings (e : EmissionsRow) (sector : option string) :
  exists pre,
    Assessment.warnings (assessDataQuality e sector)
    = pre ++ flat_map (categoryWarnings e) categories
    /\ (forall w, In w pre ->
                  (exists b, w = NonStandardBoundary b)
                  \/ w = NoThirdPartyVerification \/ w = LimitedAssurance)
    /\ (In NoThirdPartyVerification pre
        <-> assessVerificationQuality (Emissions.verification_status e) = LOW)
    /\ ((exists b, In (NonStandardBoundary b) pre)
        <-> (truthyS (Emissions.organizational_boundary e) = true
             /\ fst (assessBoundaryQuality (Emissions.organizational_boundary e)) = LOW)).
Proof.
  unfold assessDataQuality.
  pose proof (boundary_low_iff_nonstandard (Emissions.organizational_boundary e)) as HB.
  destruct (assessBoundaryQuality (Emissions.organizational_boundary e)) as [b std].
  cbn [fst snd] in HB. cbn [Assessment.warnings].
  eexists. split; [reflexivity |].
  destruct std, (truthyS (Emissions.organizational_boundary e));
    destruct (assessVerificationQuality (Emissions.verification_status e));
    cbn [negb andb app];
    try (destruct (Emissions.verification_status e) as [vs |];
         [destruct (includes (toLowerCase vs) "limited") |]);
    cbn [app]; (split; [| split]);
    try (intros w Hw; cbn in Hw; intuition eauto);
    try (split; intros Hx; cbn in *;
         repeat match goal with
                | H : exists _, _ |- _ => destruct H
                | H : _ /\ _ |- _ => destruct H
                | H : _ \/ _ |- _ => destruct H
                | H : False |- _ => destruct H
                end;
         try discriminate; try tauto; try (intuition congruence);
         try (split; [reflexivity | intuition congruence]);
         eauto).
Qed.

(** X12. Low component scores and their warnings.  The boundary score is
    low exactly when the boundary is flagged as non-standard, and the
    non-standard-boundary warning is emitted exactly for a non-empty
    boundary scored low.  The verification score is low exactly when no
    verification status is recorded, which is exactly when the
    no-third-party-verification warning is emitted.  The Scope 1, Scope 2
    location-based and market-based methodology scores are low exactly when
    the respective methodology is absent. *)
Theorem low_scores_and_warnings (e : EmissionsRow) (sector : option string) :
  let a := assessDataQuality e sector in
  (boundaryIsStandard a = false <-> boundaryScore a = LOW)
  /\ ((exists b, In (NonStandardBoundary b) (Assessment.warnings a))
      <-> (truthyS (Emissions.organizational_boundary e) = true /\ boundaryScore a = LOW))
  /\ (verificationScore a = LOW <-> truthyS (Emissions.verification_status e) = false)
  /\ (verificationScore a = LOW <-> In NoThirdPartyVerification (Assessment.warnings a))
  /\ (scope1MethodologyScore a = LOW
      <-> truthyS (Emissions.scope1_methodology e) = false)
  /\ (scope2LBMethodologyScore a = LOW
      <-> truthyS (Emissions.scope2_lb_methodology e) = false)
  /\ (scope2MBMethodologyScore a = LOW
      <-> truthyS (Emissions.scope2_mb_methodology e) = false).
Proof.
  intros a. destruct (assess_warnings e sector) as (pre & Hw & Hkinds & Hnv & Hnb).
  fold a in Hw.
  assert (Hcat : forall w, In w (flat_map (categoryWarnings e) categories) ->
                           (exists c v, w = Scope3NoMethodology c v)
                           \/ (exists c m v, w = Scope3Modeled c m v)).
  { intros w Hin. apply in_flat_map in Hin as (c & _ & Hc).
    apply categoryWarnings_spec in Hc as (v & _ & _ & [[_ ->] | (_ & _ & ->)]); eauto. }
  assert (Sb : boundaryScore a
               = fst (assessBoundaryQuality (Emissions.organizational_boundary e))
               /\ boundaryIsStandard a
                  = snd (assessBoundaryQuality (Emissions.organizational_boundary e))
               /\ verificationScore a
                  = assessVerificationQuality (Emissions.verification_status e)
               /\ scope1MethodologyScore a
                  = assessS12MethodologyQuality (Emissions.scope1_methodology e)
               /\ scope2LBMethodologyScore a
                  = assessS12MethodologyQuality (Emissions.scope2_lb_methodology e)
               /\ scope2MBMethodologyScore a
                  = assessS12MethodologyQuality (Emissions.scope2_mb_methodology e)).
  { subst a. unfold assessDataQuality.
    destruct (assessBoundaryQuality (Emissions.organizational_boundary e)).
    cbn. repeat split; reflexivity. }
  destruct Sb as (S1 & S2 & S3 & S4 & S5 & S6).
  rewrite S1, S2, S3, S4, S5, S6, Hw.
  split; [apply boundary_low_iff_nonstandard |].
  split.
  { rewrite <- Hnb. split.
    - intros [b Hb]. apply in_app_or in Hb as [Hb | Hb]; [eauto |].
      destruct (Hcat _ Hb) as [(? & ? & ?) | (? & ? & ? & ?)]; discriminate.
    - intros [b Hb]. exists b. apply in_or_app. now left. }
  split; [apply verification_low_iff_absent |].
  split.
  { rewrite <- Hnv. split.
    - intros H. apply in_or_app. now left.
    - intros Hb. apply in_app_or in Hb as [Hb | Hb]; [exact Hb |].
      destruct (Hcat _ Hb) as [(? & ? & ?) | (? & ? & ? & ?)]; discriminate. }
  repeat split; apply methodology_low_iff_absent.
Qed.

Lemma low_scores_and_warnings_witness :
  In NoThirdPartyVerification
     (Assessment.warnings (assessDataQuality Examples.mixedQualityRow None)).
Proof.
  destruct (low_scores_and_warnings Examples.mixedQualityRow None)
    as (_ & _ & H3 & H4 & _).
  apply H4, H3. reflexivity.
Defined.






End QualityProperties.

Section HistoryProperties.
Import Types Queries Assessment Quality Compare Vocabulary.

Lemma insertRow_In (le : EmissionsRow -> EmissionsRow -> bool)
    (x y : EmissionsRow) (l : list EmissionsRow) :
  In y (insertRow le x l) <-> y = x \/ In y l.
Proof.
  induction l as [| a t IH]; simpl.
  - intuition congruence.
  - destruct (le x a); simpl; [intuition congruence |].
    rewrite IH. intuition congruence.
Qed.

Lemma sortRows_In (le : EmissionsRow -> EmissionsRow -> bool)
    (y : EmissionsRow) (l : list EmissionsRow) :
  In y (sortRows le l) <-> In y l.
Proof.
  unfold sortRows. induction l as [| a t IH]; simpl; [reflexivity |].
  rewrite insertRow_In, IH. intuition congruence.
Qed.

Lemma insertRow_length (le : EmissionsRow -> EmissionsRow -> bool)
    (x : EmissionsRow) (l : list EmissionsRow) :
  length (insertRow le x l) = S (length l).
Proof.
  induction l as [| a t IH]; simpl; [reflexivity |].
  destruct (le x a); simpl; [reflexivity | now rewrite IH].
Qed.

Lemma sortRows_length (le : EmissionsRow -> EmissionsRow -> bool)
    (l : list EmissionsRow) :
  length (sortRows le l) = length l.
Proof.
  unfold sortRows. induction l as [| a t IH]; simpl; [reflexivity |].
  now rewrite insertRow_length, IH.
Qed.

(** Rows sorted newest first: head dominance, as an inductive invariant. *)
Lemma newestFirst_cons (x : EmissionsRow) (l : list EmissionsRow) :
  newestFirst l ->
  (forall b, In b l -> (Emissions.year b <= Emissions.year x)%Z) ->
  newestFirst (x :: l).
Proof.
  intros Hl Hx i j a b Hij Ha Hb.
  destruct i as [| i], j as [| j]; simpl in *.
  - injection Ha as <-. injection Hb as <-. lia.
  - injection Ha as <-. apply Hx. apply list_elem_of_In.
    apply list_elem_of_lookup. eauto.
  - lia.
  - apply (Hl i j); [lia | assumption | assumption].
Qed.

Lemma newestFirst_inv (x : EmissionsRow) (l : list EmissionsRow) :
  newestFirst (x :: l) ->
  newestFirst l /\ forall b, In b l -> (Emissions.year b <= Emissions.year x)%Z.
Proof.
  intros H. split.
  - intros i j a b Hij Ha Hb. apply (H (S i) (S j)); [lia | exact Ha | exact Hb].
  - intros b Hb. apply list_elem_of_In, list_elem_of_lookup in Hb as [j Hj].
    apply (H 0%nat (S j)); [lia | reflexivity | exact Hj].
Qed.

Lemma insertRow_newestFirst (x : EmissionsRow) (l : list EmissionsRow) :
  newestFirst l -> newestFirst (insertRow byYearDesc x l).
Proof.
  induction l as [| a t IH]; intros Hl; simpl.
  - apply newestFirst_cons; [intros i j ? ? _ Hi; destruct i; discriminate |].
    intros b [].
  - destruct (newestFirst_inv a t Hl) as [Ht Ha].
    destruct (byYearDesc x a) eqn:E; unfold byYearDesc in E.
    + apply Z.leb_le in E. apply newestFirst_cons; [exact Hl |].
      intros b [<- | Hb]; [exact E |]. specialize (Ha b Hb). lia.
    + apply Z.leb_gt in E. apply newestFirst_cons; [now apply IH |].
      intros b Hb. apply insertRow_In in Hb as [-> | Hb]; [lia | now apply Ha].
Qed.

Lemma sortRows_newestFirst (l : list EmissionsRow) : newestFirst (sortRows byYearDesc l).
Proof.
  unfold sortRows. induction l as [| a t IH]; simpl.
  - intros i j ? ? _ Hi. destruct i; discriminate.
  - now apply insertRow_newestFirst.
Qed.

Lemma latestRow_max (rows : list EmissionsRow) (acc : option EmissionsRow)
    (e : EmissionsRow) :
  fold_left
    (fun best e =>
       match best with
       | None => Some e
       | Some b => if (Emissions.year b <? Emissions.year e)%Z then Some e else Some b
       end) rows acc = Some e ->
  (forall b, acc = Some b -> (Emissions.year b <= Emissions.year e)%Z)
  /\ (forall b, In b rows -> (Emissions.year b <= Emissions.year e)%Z).
Proof.
  revert acc. induction rows as [| x t IH]; intros acc H; simpl in H.
  - split; [| intros b []]. intros b Hb. rewrite Hb in H. injection H as <-. lia.
  - destruct (IH _ H) as [I1 I2]. split.
    + intros b ->. destruct (Emissions.year b <? Emissions.year x)%Z eqn:E.
      * apply Z.ltb_lt in E. specialize (I1 x eq_refl). lia.
      * now apply I1.
    + intros b [E | Hb]; [subst b | now apply I2].
      destruct acc as [a |].
      * destruct (Emissions.year a <? Emissions.year x)%Z eqn:E.
        -- now apply I1.
        -- apply Z.ltb_ge in E. specialize (I1 a eq_refl). lia.
      * now apply I1.
Qed.


(** X15. The rows returned for a company.  With a (non-zero) year,
    [getCompanyEmissions] returns exactly the company's rows of that year;
    without one it returns all rows of the company, newest year first.  The
    row that [benchmarkCompany] and the comparison functions read without a
    year filter carries the same, latest year as the first of these rows,
    which is the row the quality assessment is computed from. *)
Theorem company_rows_newest_first (db : Database) (nzId : Z) :
  (forall (y : Z) (e : EmissionsRow),
      y <> 0%Z ->
      (In e (getCompanyEmissions db nzId (Some y))
       <-> In e (rowsOf db nzId) /\ Emissions.year e = y))
  /\ (forall e, In e (getCompanyEmissions db nzId None) <-> In e (rowsOf db nzId))
  /\ length (getCompanyEmissions db nzId None) = length (rowsOf db nzId)
  /\ newestFirst (getCompanyEmissions db nzId None)
  /\ (forall first rest latest,
         getCompanyEmissions db nzId None = first :: rest ->
         emissionsRowFor db nzId None = Some latest ->
         Emissions.year latest = Emissions.year first
         /\ forall e, In e (rowsOf db nzId) ->
                      (Emissions.year e <= Emissions.year first)%Z).
Proof.
  unfold getCompanyEmissions, emissionsRowFor, rowsOf. cbn [truthyZ].
  set (own := List.filter (fun e => (Emissions.nz_id e =? nzId)%Z) (emissions db)).
  split; [| split; [| split; [| split]]].
  - intros y e Hy. destruct (y =? 0)%Z eqn:E; [apply Z.eqb_eq in E; contradiction |].
    cbn. rewrite filter_In, Z.eqb_eq. reflexivity.
  - intros e. apply sortRows_In.
  - apply sortRows_length.
  - apply sortRows_newestFirst.
  - intros first rest latest Hs Hl.
    assert (Hfirst : forall e, In e own -> (Emissions.year e <= Emissions.year first)%Z).
    { intros e He. apply (sortRows_In byYearDesc) in He. rewrite Hs in He.
      destruct He as [<- | He]; [lia |].
      pose proof (sortRows_newestFirst own) as N. rewrite Hs in N.
      now apply (proj2 (newestFirst_inv first rest N)). }
    split; [| exact Hfirst].
    unfold latestRow in Hl. destruct (latestRow_max _ _ _ Hl) as [_ Hmax].
    destruct (latestRow_In _ _ _ Hl) as [E | Hin]; [discriminate |].
    assert (Hf : In first own).
    { apply (sortRows_In byYearDesc). rewrite Hs. now left. }
    specialize (Hmax first Hf). specialize (Hfirst latest Hin). lia.
Qed.

Lemma company_rows_newest_first_witness :
  In (Examples.plainRow 2 2022 20) (getCompanyEmissions Examples.store 2 (Some 2022%Z))
  /\ (forall e, In e (rowsOf Examples.store 2) -> (Emissions.year e <= 2022)%Z).
Proof.
  destruct (company_rows_newest_first Examples.store 2) as (H1 & _ & _ & _ & H5).
  split.
  - apply H1; [discriminate |]. split; [left; reflexivity | reflexivity].
  - apply (H5 (Examples.plainRow 2 2022 20) [] (Examples.plainRow 2 2022 20));
      reflexivity.
Defined.

End HistoryProperties.

Section ChangeProperties.
Import Types Queries Assessment Quality Compare Vocabulary.

Lemma consecutiveChanges_spec (sorted : list EmissionsRow) :
  (forall yc, In yc (consecutiveChanges sorted) ->
              changes yc <> []
              /\ exists prev curr,
                   In prev sorted /\ In curr sorted
                   /\ yc_year yc = Emissions.year curr
                   /\ changes yc = yearChangesOf prev curr)
  /\ (length (consecutiveChanges sorted) <= length sorted - 1)%nat.
Proof.
  induction sorted as [| prev rest IH]; [split; [intros yc [] | simpl; lia] |].
  destruct rest as [| curr rest']; [split; [intros yc [] | simpl; lia] |].
  destruct IH as [IH1 IH2].
  change (consecutiveChanges (prev :: curr :: rest'))
    with ((if (0 <? length (yearChangesOf prev curr))%nat
           then [{| yc_year := Emissions.year curr; changes := yearChangesOf prev curr |}]
           else []) ++ consecutiveChanges (curr :: rest')).
  split.
  - intros yc Hin. apply in_app_or in Hin as [Hin | Hin].
    + destruct (yearChangesOf prev curr) as [| c cs] eqn:E; [destruct Hin |].
      cbn in Hin. destruct Hin as [<- | []]. cbn. split; [discriminate |].
      exists prev, curr. rewrite E. repeat split; [now left | right; now left].
    + destruct (IH1 yc Hin) as [N (p & c & Hp & Hc & Hy & Hch)].
      split; [exact N |]. exists p, c. repeat split; try assumption; now right.
  - rewrite length_app. cbn [length] in *.
    destruct (0 <? length (yearChangesOf prev curr))%nat; cbn [length]; lia.
Qed.




Lemma detected_changes_nonempty (db : Database) (nzId : Z) :
  (forall yc, In yc (detectMethodologyChanges db nzId) -> changes yc <> [])
  /\ (length (detectMethodologyChanges db nzId)
      <= length (getCompanyEmissions db nzId None) - 1)%nat.
Proof.
  unfold detectMethodologyChanges.
  destruct (consecutiveChanges_spec
              (sortRows byYearAsc (getCompanyEmissions db nzId None))) as [S1 S2].
  rewrite sortRows_length in S2.
  destruct (length (getCompanyEmissions db nzId None) <? 2)%nat.
  - split; [intros yc [] | simpl; lia].
  - split; [| exact S2]. intros yc Hyc. now apply S1.
Qed.



End ChangeProperties.

Section AssessmentProperties.
Import Types Queries Assessment Quality Compare Vocabulary.

Lemma changes_flattened_nil (l : list YearChanges) :
  (forall yc, In yc l -> changes yc <> []) ->
  flat_map (fun mc => map (fun c => (yc_year mc, c)) (changes mc)) l = [] -> l = [].
Proof.
  destruct l as [| yc t]; [reflexivity |]. intros H E. exfalso.
  specialize (H yc (or_introl eq_refl)). simpl in E.
  destruct (changes yc); [congruence | discriminate].
Qed.

(** X17. The assessment of a company.  It is absent exactly when the
    company has no row for the request.  When present it is the assessment
    of the first returned row with unchanged scores; its
    [methodologyConsistent] flag is true exactly when change detection
    finds nothing, which is exactly when its list of methodology changes is
    empty; and one warning about methodology changes is appended exactly
    when the flag is false. *)
Theorem company_assessment_consistent (db : Database) (nzId : Z) (year : option Z) :
  let r := getCompanyQualityAssessment db nzId year in
  companyInfo r = getCompanyById db nzId
  /\ (assessment r = None <-> getCompanyEmissions db nzId year = [])
  /\ (forall a,
         assessment r = Some a ->
         exists target rest sector,
           getCompanyEmissions db nzId year = target :: rest
           /\ overallScore a = overallScore (assessDataQuality target sector)
           /\ boundaryScore a = boundaryScore (assessDataQuality target sector)
           /\ verificationScore a = verificationScore (assessDataQuality target sector)
           /\ (methodologyConsistent a = true <-> detectMethodologyChanges db nzId = [])
           /\ (methodologyConsistent a = true <-> methodologyChanges a = [])
           /\ Assessment.warnings a
              = Assessment.warnings (assessDataQuality target sector)
                ++ (if methodologyConsistent a then []
                    else [MethodologyChangesDetected
                            (length (detectMethodologyChanges db nzId))])).
Proof.
  cbv zeta. unfold getCompanyQualityAssessment.
  destruct (getCompanyEmissions db nzId year) as [| target rest] eqn:E.
  - cbn. split; [reflexivity |]. split; [tauto |]. intros a H. discriminate.
  - cbn [companyInfo assessment]. split; [reflexivity |].
    split; [split; discriminate |].
    intros a H. injection H as <-.
    exists target, rest.
    exists (match getCompanyById db nzId with
            | Some c => Company.sics_sector c
            | None => None
            end).
    cbn [overallScore boundaryScore verificationScore methodologyConsistent
         methodologyChanges Assessment.warnings].
    split; [reflexivity |]. split; [reflexivity |]. split; [reflexivity |].
    split; [reflexivity |].
    destruct (detectMethodologyChanges db nzId) as [| yc t] eqn:D.
    + cbn. rewrite app_nil_r.
      repeat split; try reflexivity.
      unfold assessDataQuality.
      destruct (assessBoundaryQuality (Emissions.organizational_boundary target)).
      reflexivity.
    + cbn [length Nat.ltb Nat.leb negb].
      split; [split; discriminate |]. split; [| reflexivity].
      split; [discriminate |]. intros F. exfalso.
      apply changes_flattened_nil in F; [discriminate |].
      intros x Hx. rewrite <- D in Hx.
      now apply (proj1 (detected_changes_nonempty db nzId) x Hx).
Qed.

Lemma company_assessment_consistent_witness :
  exists a,
    assessment (getCompanyQualityAssessment Examples.store 2 None) = Some a
    /\ methodologyConsistent a = true.
Proof.
  destruct (company_assessment_consistent Examples.store 2 None) as (_ & _ & H).
  eexists. split; [reflexivity |].
  destruct (H _ eq_refl) as (t & rest & s & _ & _ & _ & _ & Hc & _).
  apply Hc. reflexivity.
Defined.

(** X18. [compareCompanies] keeps the request order: its rows are the
    stored companies of the requested identifiers that exist, in request
    order and with repetitions; it returns as many rows as identifiers
    exactly when every requested identifier exists. *)
Theorem compare_rows_follow_request (db : Database) (nzIds : list Z) (year : option Z) :
  map c_company (compareCompanies db nzIds year) = omap (getCompanyById db) nzIds
  /\ (length (compareCompanies db nzIds year) <= length nzIds)%nat
  /\ (length (compareCompanies db nzIds year) = length nzIds
      <-> forall id, In id nzIds -> exists c, getCompanyById db id = Some c).
Proof.
  induction nzIds as [| id t (IH1 & IH2 & IH3)].
  - cbn. split; [reflexivity |]. split; [lia |]. split; [intros _ id [] | reflexivity].
  - cbn [compareCompanies omap list_omap].
    destruct (getCompanyById db id) as [c |] eqn:E.
    + cbn [map c_company length]. rewrite IH1.
      split; [reflexivity |]. split; [lia |]. split.
      * intros H x [<- | Hx]; [eauto |]. apply IH3; [lia | exact Hx].
      * intros H. f_equal. apply IH3. intros x Hx. apply H. now right.
    + split; [exact IH1 |]. cbn [length]. split; [lia |]. split; [lia |].
      intros H. destruct (H id (or_introl eq_refl)) as [c Hc]. congruence.
Qed.

Lemma compare_rows_follow_request_witness :
  length (compareCompanies Examples.store [3%Z; 1%Z] None) = 2%nat.
Proof.
  apply (proj2 (proj2 (compare_rows_follow_request Examples.store [3%Z; 1%Z] None))).
  intros id [<- | [<- | []]]; eexists; reflexivity.
Defined.

End AssessmentProperties.

Section CoverageProperties.
Import Types Queries Assessment Quality Compare Vocabulary.

Lemma partition_length {A : Type} (p : A -> bool) (l : list A) :
  (length (List.filter p l) + length (List.filter (fun x => negb (p x)) l)
   = length l)%nat.
Proof.
  induction l as [| a t IH]; simpl; [reflexivity |].
  destruct (p a); simpl; lia.
Qed.

Lemma category_range (c : nat) : In c categories <-> (1 <= c <= 15)%nat.
Proof. unfold categories. rewrite in_seq. lia. Qed.

Lemma hasData_spec (e : EmissionsRow) (c : nat) :
  hasData e c = true <-> exists v, scope3_cat e c = Some v /\ 0 < v.
Proof.
  unfold hasData. destruct (scope3_cat e c) as [v |].
  - split.
    + intros H. apply andb_prop in H as [_ H]. apply Qlt_bool_iff in H. eauto.
    + intros (x & Hx & Hp). injection Hx as <-.
      rewrite (proj2 (truthy_some v)) by lra. now apply Qlt_bool_iff.
  - split; [discriminate | intros (x & Hx & _); discriminate].
Qed.

Lemma maxCategory_fold (e : EmissionsRow) (l : list nat) (best : nat * Q) :
  let r :=
    fold_left
      (fun best i =>
         match scope3_cat e i with
         | Some v => if hasData e i && Qlt_bool (snd best) v then (i, v) else best
         | None => best
         end) l best in
  snd best <= snd r
  /\ (forall i x, In i l -> scope3_cat e i = Some x -> 0 < x -> x <= snd r)
  /\ (r = best \/ (In (fst r) l /\ scope3_cat e (fst r) = Some (snd r)
                   /\ snd best < snd r)).
Proof.
  revert best. induction l as [| a t IH]; intros best; cbn [fold_left].
  - split; [apply Qle_refl |]. split; [intros i x [] | now left].
  - set (step := match scope3_cat e a with
                 | Some v => if hasData e a && Qlt_bool (snd best) v then (a, v) else best
                 | None => best
                 end).
    destruct (IH step) as (I1 & I2 & I3). fold step.
    assert (Hstep : snd best <= snd step
                    /\ (forall x, scope3_cat e a = Some x -> 0 < x -> x <= snd step)
                    /\ (step = best \/ (fst step = a /\ scope3_cat e a = Some (snd step)
                                        /\ snd best < snd step))).
    { subst step. destruct (scope3_cat e a) as [v |] eqn:Ea.
      - destruct (hasData e a) eqn:Hd.
        + destruct (Qlt_bool (snd best) v) eqn:B; cbn [andb fst snd].
          * apply Qlt_bool_iff in B. split; [lra |]. split.
            -- intros x Hx _. injection Hx as <-. apply Qle_refl.
            -- right. split; [reflexivity |]. split; [reflexivity | exact B].
          * split; [apply Qle_refl |]. split; [| now left].
            intros x Hx _. injection Hx as <-.
            destruct (Qlt_le_dec (snd best) v) as [L | L]; [| exact L].
            apply Qlt_bool_iff in L. congruence.
        + cbn [andb]. split; [apply Qle_refl |]. split; [| now left].
          intros x Hx Hp. exfalso. injection Hx as <-.
          assert (Ht : hasData e a = true).
          { apply hasData_spec. exists v. split; assumption. }
          congruence.
      - split; [apply Qle_refl |]. split; [discriminate | now left]. }
    destruct Hstep as (S1 & S2 & S3).
    split; [lra |]. split.
    + intros i x [<- | Hi] Hx Hp; [specialize (S2 x Hx Hp); lra | now apply (I2 i x)].
    + destruct I3 as [-> | (J1 & J2 & J3)].
      * destruct S3 as [-> | (K1 & K2 & K3)]; [now left |].
        right. split; [rewrite K1; now left |]. split; [rewrite K1 at 1; exact K2 | exact K3].
      * right. split; [now right |]. split; [exact J2 | lra].
Qed.

Lemma maxCategory_spec (e : EmissionsRow) :
  0 <= snd (maxCategory e)
  /\ (forall i x, In i categories -> scope3_cat e i = Some x -> 0 < x ->
                  x <= snd (maxCategory e))
  /\ (maxCategory e = (0%nat, 0)
      \/ (In (fst (maxCategory e)) categories
          /\ scope3_cat e (fst (maxCategory e)) = Some (snd (maxCategory e))
          /\ 0 < snd (maxCategory e))).
Proof. exact (maxCategory_fold e categories (0%nat, 0)). Qed.

(** X19. Scope 3 coverage summary.  The categories with and without data
    split the fifteen categories: a category is listed with data exactly
    when it holds a positive value, and the two lists together have fifteen
    entries.  A dominant category, when reported, is one of the categories
    with data, carries that category's value, which no other category's
    value exceeds, and requires a positive Scope 3 total; it is reported
    whenever the total is positive and some category has data. *)
Theorem scope3_coverage_partition (e : EmissionsRow) :
  let s := getScope3CoverageSummary e in
  categoriesReported s = length (categoriesWithData s)
  /\ (categoriesReported s + length (categoriesWithoutData s) = 15)%nat
  /\ (forall c, In c (categoriesWithData s)
                <-> (1 <= c <= 15)%nat /\ exists v, scope3_cat e c = Some v /\ 0 < v)
  /\ (forall c, In c (categoriesWithoutData s)
                <-> (1 <= c <= 15)%nat /\ ~ In c (categoriesWithData s))
  /\ (forall d, dominantCategory s = Some d ->
                In (dc_num d) (categoriesWithData s)
                /\ scope3_cat e (dc_num d) = Some (dc_value d)
                /\ (forall c x, In c (categoriesWithData s) ->
                                scope3_cat e c = Some x -> x <= dc_value d)
                /\ exists t, Emissions.scope3_total e = Some t /\ 0 < t
                             /\ dc_percent d = (dc_value d / t) * 100)
  /\ (forall t, Emissions.scope3_total e = Some t -> 0 < t ->
                categoriesWithData s <> [] -> dominantCategory s <> None).
Proof.
  cbv zeta. unfold getScope3CoverageSummary.
  cbn [categoriesReported categoriesWithData categoriesWithoutData dominantCategory].
  assert (W : forall c, In c (List.filter (hasData e) categories)
                        <-> (1 <= c <= 15)%nat
                            /\ exists v, scope3_cat e c = Some v /\ 0 < v).
  { intros c. rewrite filter_In, category_range, hasData_spec. reflexivity. }
  destruct (maxCategory_spec e) as (M1 & M2 & M3).
  split; [reflexivity |].
  split; [apply (partition_length (hasData e) categories) |].
  split; [exact W |].
  split.
  { intros c. rewrite !filter_In, category_range.
    split.
    - intros [Hc Hn]. split; [exact Hc |]. intros [_ Hd].
      rewrite Hd in Hn. discriminate.
    - intros [Hc Hn]. split; [exact Hc |].
      destruct (hasData e c) eqn:Hd; [| reflexivity].
      exfalso. apply Hn. split; [exact Hc | reflexivity]. }
  split.
  - intros d Hd. destruct (Emissions.scope3_total e) as [t |]; [| discriminate].
    destruct (0 <? fst (maxCategory e))%nat eqn:P; [| discriminate].
    destruct (truthy (Some t)); [| discriminate].
    destruct (Qlt_bool 0 t) eqn:T; [| discriminate].
    cbn [andb] in Hd.
    assert (Ed : d = {| dc_num := fst (maxCategory e);
                        dc_value := snd (maxCategory e);
                        dc_percent := (snd (maxCategory e) / t) * 100 |})
      by congruence.
    clear Hd. subst d. cbn [dc_num dc_value dc_percent].
    apply Nat.ltb_lt in P. apply Qlt_bool_iff in T.
    destruct M3 as [E | (J1 & J2 & J3)]; [rewrite E in P; cbn in P; lia |].
    split; [apply W; split; [now apply category_range | eauto] |].
    split; [exact J2 |]. split.
    + intros c x Hc Hx. apply W in Hc as [Hc (v & Hv & Hp)].
      rewrite Hx in Hv. injection Hv as <-.
      apply (M2 c x); [now apply category_range | exact Hx | exact Hp].
    + exists t. repeat split; assumption.
  - intros t Ht Hp Hne. rewrite Ht.
    destruct (List.filter (hasData e) categories) as [| c cs] eqn:F; [congruence |].
    assert (Hc : In c (c :: cs)) by now left.
    apply W in Hc as [Hc (v & Hv & Hv0)].
    pose proof (M2 c v (proj2 (category_range c) Hc) Hv Hv0) as Hle.
    destruct M3 as [E | (J1 & _ & _)].
    + rewrite E in Hle. cbn in Hle. lra.
    + apply category_range in J1.
      rewrite (proj2 (truthy_some t)) by lra.
      rewrite (proj2 (Qlt_bool_iff 0 t) Hp).
      destruct (0 <? fst (maxCategory e))%nat eqn:P; [discriminate |].
      apply Nat.ltb_ge in P. lia.
Qed.

Lemma scope3_coverage_partition_witness :
  In 1%nat (categoriesWithData (getScope3CoverageSummary Examples.mixedQualityRow'))
  /\ ~ In 2%nat (categoriesWithData (getScope3CoverageSummary Examples.mixedQualityRow')).
Proof.
  destruct (scope3_coverage_partition Examples.mixedQualityRow')
    as (_ & _ & H3 & H4 & _).
  split.
  - apply H3. split; [lia |]. exists 2000000. split; reflexivity.
  - apply (proj1 (H4 2%nat)). vm_compute. tauto.
Defined.

End CoverageProperties.

Section QualityComparisonProperties.
Import Types Queries Assessment Quality Compare Vocabulary.

Lemma includesS_In (s : list string) (x : string) : includesS s x = true <-> In x s.
Proof.
  unfold includesS. rewrite existsb_exists. split.
  - intros (y & Hy & E). apply String.eqb_eq in E. now subst.
  - intros H. exists x. split; [exact H | apply String.eqb_refl].
Qed.

Lemma setAdd_spec (s : list string) (x : string) :
  (forall y, In y (setAdd s x) <-> In y s \/ y = x)
  /\ (NoDup s -> NoDup (setAdd s x)).
Proof.
  unfold setAdd. destruct (includesS s x) eqn:E.
  - apply includesS_In in E. split; [| tauto].
    intros y. split; [tauto |]. intros [H | ->]; assumption.
  - assert (N : ~ In x s) by (intros H; apply includesS_In in H; congruence).
    split.
    + intros y. rewrite in_app_iff. simpl. intuition congruence.
    + intros Hnd. apply NoDup_app. split; [exact Hnd |]. split.
      * intros y Hy Hx. apply list_elem_of_In in Hy.
        apply list_elem_of_In in Hx. destruct Hx as [-> | []]. contradiction.
      * constructor; [intros H; inversion H | constructor].
Qed.

Lemma truthyS_some (b : string) : truthyS (Some b) = true <-> b <> EmptyString.
Proof. destruct b; simpl; split; congruence. Qed.

Lemma collected_spec (f : QualityRow -> option string) (rows : list QualityRow)
    (s0 : list string) :
  let s := fold_left (fun s row => addTruthy s (f row)) rows s0 in
  (NoDup s0 -> NoDup s)
  /\ (forall y, In y s
                <-> In y s0
                    \/ (y <> EmptyString /\ exists row, In row rows /\ f row = Some y)).
Proof.
  revert s0. induction rows as [| r t IH]; intros s0; cbn [fold_left].
  - split; [tauto |]. intros y. split; [tauto |].
    intros [H | (_ & row & [] & _)]. exact H.
  - destruct (IH (addTruthy s0 (f r))) as [I1 I2]. cbv zeta in I1, I2.
    assert (A : (NoDup s0 -> NoDup (addTruthy s0 (f r)))
                /\ forall y, In y (addTruthy s0 (f r))
                             <-> In y s0 \/ (y <> EmptyString /\ f r = Some y)).
    { unfold addTruthy. destruct (f r) as [b |]; cbn [truthyS].
      - destruct b as [| c b']; cbn [textOf].
        + split; [tauto |]. intros y. split; [tauto |].
          intros [H | (N & E)]; [exact H |]. injection E as <-. congruence.
        + destruct (setAdd_spec s0 (String c b')) as [S1 S2].
          split; [exact S2 |]. intros y. rewrite S1. split.
          * intros [H | ->]; [now left |]. right. split; [discriminate | reflexivity].
          * intros [H | (_ & E)]; [now left |]. injection E as <-. now right.
      - split; [tauto |]. intros y. split; [tauto |].
        intros [H | (_ & E)]; [exact H | discriminate]. }
    destruct A as [A1 A2]. split; [intros H; apply I1, A1, H |].
    intros y. rewrite I2, A2. split.
    + intros [[H | (N & E)] | (N & row & Hr & E)].
      * now left.
      * right. split; [exact N |]. exists r. split; [now left | exact E].
      * right. split; [exact N |]. exists row. split; [now right | exact E].
    + intros [H | (N & row & [<- | Hr] & E)].
      * left. now left.
      * left. right. split; assumption.
      * right. split; [exact N |]. exists row. split; assumption.
Qed.

Lemma two_distinct (l : list string) :
  NoDup l -> ((1 < length l)%nat <-> exists x y, In x l /\ In y l /\ x <> y).
Proof.
  intros H. split.
  - destruct l as [| a [| b t]]; simpl; try lia. intros _.
    exists a, b. split; [now left |]. split; [right; now left |].
    inversion H as [| ? ? Hn _]; subst. intros ->. apply Hn. now left.
  - intros (x & y & Hx & Hy & Hne).
    destruct l as [| a [| b t]]; simpl in *; try lia.
    exfalso. destruct Hx as [<- | []], Hy as [<- | []]. now apply Hne.
Qed.

(** X20. Quality comparison across companies.  One row is returned per
    requested identifier, in request order.  The boundaries-differ warning
    is raised exactly when two assessed companies carry different non-empty
    boundary types, and it lists each such boundary type once.  The
    non-standard-boundaries warning is raised exactly when some assessed
    company has a boundary that is not standard. *)
Theorem quality_comparison_warnings (db : Database) (nzIds : list Z) (year : option Z) :
  let r := compareDataQuality db nzIds year in
  map q_nzId (fst r) = nzIds
  /\ ((exists bs, In (BoundariesDiffer bs) (snd r))
      <-> exists r1 r2 b1 b2,
            In r1 (fst r) /\ In r2 (fst r)
            /\ typeOf boundaryType r1 = Some b1 /\ typeOf boundaryType r2 = Some b2
            /\ b1 <> EmptyString /\ b2 <> EmptyString /\ b1 <> b2)
  /\ (forall bs, In (BoundariesDiffer bs) (snd r) ->
                 NoDup bs
                 /\ forall b, In b bs
                              <-> b <> EmptyString
                                  /\ exists row, In row (fst r)
                                                 /\ typeOf boundaryType row = Some b)
  /\ ((exists names, In (NonStandardBoundaries names) (snd r))
      <-> exists row a, In row (fst r) /\ q_assessment row = Some a
                        /\ boundaryIsStandard a = false).
Proof.
  cbv zeta. unfold compareDataQuality. cbn [fst snd].
  set (rows := map (qualityRowOf db year) nzIds).
  destruct (collected_spec (typeOf boundaryType) rows []) as [C1 C2].
  cbv zeta in C1, C2.
  set (boundaries := fold_left (fun s row => addTruthy s (typeOf boundaryType row)) rows [])
    in *.
  specialize (C1 ltac:(constructor)).
  assert (C3 : forall y, In y boundaries
                         <-> y <> EmptyString
                             /\ exists row, In row rows /\ typeOf boundaryType row = Some y).
  { intros y. rewrite C2. simpl. tauto. }
  set (w2 := if (1 <? length (fold_left _ rows []))%nat then _ else []).
  set (nonStandard := List.filter _ rows).
  assert (W2 : forall w, In w w2 -> w = VerificationLevelsDiffer).
  { intros w. subst w2. destruct (1 <? _)%nat; [| intros []].
    destruct (_ && _); [| intros []]. intros [<- | []]. reflexivity. }
  assert (Hsplit : forall w,
             In w ((if (1 <? length boundaries)%nat then [BoundariesDiffer boundaries] else [])
                   ++ w2
                   ++ (if (0 <? length nonStandard)%nat
                       then [NonStandardBoundaries (map q_name nonStandard)] else []))
             <-> (((1 < length boundaries)%nat /\ w = BoundariesDiffer boundaries)
                  \/ In w w2
                  \/ (nonStandard <> [] /\ w = NonStandardBoundaries (map q_name nonStandard)))).
  { intros w. rewrite !in_app_iff.
    destruct (1 <? length boundaries)%nat eqn:L1;
      [apply Nat.ltb_lt in L1 | apply Nat.ltb_ge in L1];
      (destruct nonStandard as [| n ns]; cbn [length Nat.ltb Nat.leb In]);
      intuition (try congruence; try lia). }
  split; [unfold rows; rewrite map_map; cbn; apply map_id |].
  split; [| split].
  - split.
    + intros [bs Hbs]. apply Hsplit in Hbs as [[L _] | [H | [_ H]]];
        [| apply W2 in H; discriminate | discriminate].
      apply (two_distinct boundaries C1) in L as (x & y & Hx & Hy & Hne).
      apply C3 in Hx as (Nx & rx & Rx & Ex). apply C3 in Hy as (Ny & ry & Ry & Ey).
      exists rx, ry, x, y. tauto.
    + intros (r1 & r2 & b1 & b2 & R1 & R2 & E1 & E2 & N1 & N2 & Hne).
      exists boundaries. apply Hsplit. left. split; [| reflexivity].
      apply (two_distinct boundaries C1). exists b1, b2.
      split; [apply C3; eauto |]. split; [apply C3; eauto | exact Hne].
  - intros bs Hbs. apply Hsplit in Hbs as [[_ E] | [H | [_ H]]];
      [| apply W2 in H; discriminate | discriminate].
    injection E as ->. split; [exact C1 | exact C3].
  - split.
    + intros [names Hn]. apply Hsplit in Hn as [[_ E] | [H | [Hne _]]];
        [discriminate | apply W2 in H; discriminate |].
      destruct nonStandard as [| row rest] eqn:F; [congruence |].
      assert (Hr : In row (List.filter
                             (fun c => match q_assessment c with
                                       | Some a => negb (boundaryIsStandard a)
                                       | None => false
                                       end) rows)).
      { fold nonStandard. rewrite F. now left. }
      apply filter_In in Hr as [Hr Hp].
      destruct (q_assessment row) as [a |] eqn:Ea; [| discriminate].
      exists row, a. repeat split; try assumption.
      now apply negb_true_iff in Hp.
    + intros (row & a & Hr & Ea & Hs).
      exists (map q_name nonStandard). apply Hsplit. right. right.
      split; [| reflexivity]. intros E.
      assert (Hin : In row nonStandard).
      { apply filter_In. split; [exact Hr |]. rewrite Ea, Hs. reflexivity. }
      rewrite E in Hin. destruct Hin.
Qed.

Lemma quality_comparison_warnings_witness :
  map q_nzId (fst (compareDataQuality Examples.store [2%Z; 999%Z] None)) = [2%Z; 999%Z]
  /\ ~ exists bs, In (BoundariesDiffer bs)
                     (snd (compareDataQuality Examples.store [2%Z; 999%Z] None)).
Proof.
  destruct (quality_comparison_warnings Examples.store [2%Z; 999%Z] None)
    as (H1 & _ & H3 & _).
  split; [exact H1 |]. intros [bs Hbs].
  vm_compute in Hbs. destruct Hbs as [Hbs | []]. discriminate Hbs.
Defined.

End QualityComparisonProperties.

Section YearProperties.
Import JS Types Queries Compare Vocabulary Spec JSFacts StatsFacts.
Import Types Queries YearComparison Years Vocabulary.

Lemma compareYears_some (M : MathLib) (db : Database) (nzId y1 y2 : Z)
    (r : YearComparisonResult) :
  compareYears db nzId y1 y2 = Some r ->
  exists c e1 e2,
    companies db !! nzId = Some c
    /\ emissionsOfYear db nzId y1 = Some e1
    /\ emissionsOfYear db nzId y2 = Some e2
    /\ Years.nz_id r = nzId
    /\ Years.company_name r = Company.company_name c
    /\ year1 r = y1 /\ year2 r = y2
    /\ yearsApart r = Z.abs (y2 - y1)
    /\ boundary_changed r
       = negb (Comparability.optS_eqb (Emissions.organizational_boundary e1)
                                      (Emissions.organizational_boundary e2))
    /\ verification_changed r
       = negb (Comparability.optS_eqb (Emissions.verification_status e1)
                                      (Emissions.verification_status e2))
    /\ forall scope,
         valueYear1 scope r = column scope e1
         /\ valueYear2 scope r = column scope e2
         /\ deltaOf scope r = delta (column scope e1) (column scope e2)
         /\ percentChangeOf scope r
            = calculatePercentChange (column scope e1) (column scope e2)
         /\ cagrOf scope r
            = calculateCAGR (column scope e1) (column scope e2) (Z.abs (y2 - y1)).
Proof.
  unfold compareYears.
  destruct (companies db !! nzId) as [c |]; [| discriminate].
  destruct (emissionsOfYear db nzId y1) as [e1 |]; [| discriminate].
  destruct (emissionsOfYear db nzId y2) as [e2 |]; [| discriminate].
  intros H. exists c, e1, e2.
  assert (E : r = match Some r with Some x => x | None => r end) by reflexivity.
  rewrite <- H in E. clear H. subst r.
  repeat split; destruct scope; reflexivity.
Qed.

Lemma optS_eqb_sym (a b : option string) :
  Comparability.optS_eqb a b = Comparability.optS_eqb b a.
Proof. destruct a, b; simpl; try reflexivity. apply String.eqb_sym. Qed.

Lemma optS_eqb_same (a : option string) : Comparability.optS_eqb a a = true.
Proof. destruct a; simpl; [apply String.eqb_refl | reflexivity]. Qed.


Lemma emissionsOfYear_none (db : Database) (nzId y : Z) :
  emissionsOfYear db nzId y = None <->
  forall e, In e (rowsOf db nzId) -> Emissions.year e <> y.
Proof.
  unfold emissionsOfYear, rowsOf. split.
  - intros H e He Hy. apply filter_In in He as [Hin Hid].
    pose proof (find_none _ _ H e Hin) as F. cbv beta in F.
    rewrite Hid in F. apply Z.eqb_eq in Hy. rewrite Hy in F. discriminate.
  - intros H.
    destruct (List.find _ (emissions db)) as [e |] eqn:F; [exfalso | reflexivity].
    apply find_some in F as [Hin Hb]. apply andb_prop in Hb as [H1 H2].
    apply Z.eqb_eq in H2. apply (H e); [| exact H2].
    apply filter_In. split; assumption.
Qed.

Lemma cagr_short_span (M : MathLib) (b e : option Q) (ya : Z) :
  (ya <= 1)%Z -> calculateCAGR b e ya = None.
Proof.
  intros H. unfold calculateCAGR. destruct b as [b |], e as [e |]; try reflexivity.
  apply Z.leb_le in H. rewrite H, !orb_true_r. reflexivity.
Qed.

(** X21. Comparing two years of a company in either order.  A comparison
    exists for one order exactly when it exists for the other; it exists
    exactly when the company is known and has a row for each year.  The two
    results span the same number of years, flag the same boundary and
    verification changes, carry each other's values, and their deltas are
    opposite numbers.  Over a span of at most one year no growth rate is
    computed; comparing a year with itself gives zero deltas and zero
    percent changes and flags no change. *)
Theorem year_comparison_swap (M : MathLib) (db : Database) (nzId y1 y2 : Z) :
  (compareYears db nzId y1 y2 = None <-> compareYears db nzId y2 y1 = None)
  /\ (compareYears db nzId y1 y2 = None
      <-> (companies db !! nzId = None
           \/ (forall e, In e (rowsOf db nzId) -> Emissions.year e <> y1)
           \/ (forall e, In e (rowsOf db nzId) -> Emissions.year e <> y2)))
  /\ (forall r r',
         compareYears db nzId y1 y2 = Some r ->
         compareYears db nzId y2 y1 = Some r' ->
         yearsApart r' = yearsApart r
         /\ (0 <= yearsApart r)%Z
         /\ boundary_changed r' = boundary_changed r
         /\ verification_changed r' = verification_changed r
         /\ forall scope,
              valueYear1 scope r' = valueYear2 scope r
              /\ valueYear2 scope r' = valueYear1 scope r
              /\ (deltaOf scope r' = None <-> deltaOf scope r = None)
              /\ (forall d d', deltaOf scope r = Some d -> deltaOf scope r' = Some d' ->
                               d' == - d))
  /\ (forall r scope,
         compareYears db nzId y1 y2 = Some r ->
         (yearsApart r <= 1)%Z -> cagrOf scope r = None)
  /\ (forall r scope,
         compareYears db nzId y1 y1 = Some r ->
         yearsApart r = 0%Z
         /\ boundary_changed r = false /\ verification_changed r = false
         /\ (forall d, deltaOf scope r = Some d -> d == 0)
         /\ (forall p, percentChangeOf scope r = Some p -> p == 0)).
Proof.
  assert (Hnone : forall a b,
             compareYears db nzId a b = None
             <-> (companies db !! nzId = None
                  \/ (forall e, In e (rowsOf db nzId) -> Emissions.year e <> a)
                  \/ (forall e, In e (rowsOf db nzId) -> Emissions.year e <> b))).
  { intros a b. rewrite <- !emissionsOfYear_none. unfold compareYears.
    destruct (companies db !! nzId) as [c |]; [| tauto].
    destruct (emissionsOfYear db nzId a) as [e1 |]; [| tauto].
    destruct (emissionsOfYear db nzId b) as [e2 |]; [| tauto].
    split; [discriminate | intros [H | [H | H]]; discriminate]. }
  split; [| split; [| split; [| split]]].
  - rewrite !Hnone. tauto.
  - apply Hnone.
  - intros r r' H H'.
    apply compareYears_some in H as (c & e1 & e2 & _ & F1 & F2 & _ & _ & _ & _ & A & B & V & S).
    apply compareYears_some in H'
      as (c' & e1' & e2' & _ & F1' & F2' & _ & _ & _ & _ & A' & B' & V' & S').
    rewrite F2 in F1'. injection F1' as <-. rewrite F1 in F2'. injection F2' as <-.
    rewrite A, A', B, B', V, V'.
    split; [lia |]. split; [lia |].
    split; [now rewrite optS_eqb_sym |]. split; [now rewrite optS_eqb_sym |].
    intros scope.
    destruct (S scope) as (S1 & S2 & S3 & _), (S' scope) as (S1' & S2' & S3' & _).
    rewrite S1, S2, S3, S1', S2', S3'.
    split; [reflexivity |]. split; [reflexivity |].
    destruct (column scope e1) as [a |], (column scope e2) as [b |]; simpl;
      (split; [split; intros; congruence |]); intros d d' Hd Hd'; try discriminate.
    injection Hd as <-. injection Hd' as <-. ring.
  - intros r scope H Hya.
    apply compareYears_some in H as (c & e1 & e2 & _ & _ & _ & _ & _ & _ & _ & A & _ & _ & S).
    destruct (S scope) as (_ & _ & _ & _ & ->). apply cagr_short_span. now rewrite <- A.
  - intros r scope H.
    apply compareYears_some in H as (c & e1 & e2 & _ & F1 & F2 & _ & _ & _ & _ & A & B & V & S).
    rewrite F1 in F2. injection F2 as <-.
    rewrite A, B, V, !optS_eqb_same.
    split; [f_equal; lia |]. split; [reflexivity |]. split; [reflexivity |].
    destruct (S scope) as (_ & _ & -> & -> & _).
    destruct (column scope e1) as [a |]; simpl.
    + split.
      * intros d Hd. injection Hd as <-. ring.
      * intros p. destruct (Qeq_bool a 0) eqn:E; [discriminate |].
        intros Hp. injection Hp as <-.
        apply Qeq_bool_neq in E. field. exact E.
    + split; intros ?; discriminate.
Qed.

Lemma year_comparison_swap_witness :
  exists r r',
    compareYears (M := coarseMath) Scenarios.history 1 2020 2022 = Some r
    /\ compareYears (M := coarseMath) Scenarios.history 1 2022 2020 = Some r'
    /\ yearsApart r' = yearsApart r
    /\ boundary_changed r' = boundary_changed r.
Proof.
  eexists. eexists.
  split; [vm_compute; reflexivity |]. split; [vm_compute; reflexivity |].
  destruct (year_comparison_swap coarseMath Scenarios.history 1 2020 2022)
    as (_ & _ & H & _).
  destruct (H _ _ ltac:(vm_compute; reflexivity) ltac:(vm_compute; reflexivity))
    as (H1 & _ & H3 & _).
  split; [exact H1 | exact H3].
Defined.



End YearProperties.

Section SeriesProperties.
Import JS Types Queries Compare Vocabulary Spec JSFacts StatsFacts.
Import Queries Compare TimeSeries Vocabulary.

Lemma oldestFirst_nil : oldestFirst [].
Proof. intros i j ? ? _ Hi. destruct i; discriminate. Qed.

Lemma oldestFirst_cons (x : Z) (l : list Z) :
  oldestFirst l -> (forall b, In b l -> (x <= b)%Z) -> oldestFirst (x :: l).
Proof.
  intros Hl Hx i j a b Hij Ha Hb.
  destruct i as [| i], j as [| j]; simpl in *.
  - injection Ha as <-. injection Hb as <-. lia.
  - injection Ha as <-. apply Hx. apply list_elem_of_In.
    apply list_elem_of_lookup. eauto.
  - lia.
  - apply (Hl i j); [lia | assumption | assumption].
Qed.

Lemma oldestFirst_inv (x : Z) (l : list Z) :
  oldestFirst (x :: l) -> oldestFirst l /\ forall b, In b l -> (x <= b)%Z.
Proof.
  intros H. split.
  - intros i j a b Hij Ha Hb. apply (H (S i) (S j)); [lia | exact Ha | exact Hb].
  - intros b Hb. apply list_elem_of_In, list_elem_of_lookup in Hb as [j Hj].
    apply (H 0%nat (S j)); [lia | reflexivity | exact Hj].
Qed.

Lemma insertRow_oldestFirst (x : EmissionsRow) (l : list EmissionsRow) :
  oldestFirst (map Emissions.year l) ->
  oldestFirst (map Emissions.year (insertRow byYearAsc x l)).
Proof.
  induction l as [| a t IH]; intros Hl; simpl.
  - apply oldestFirst_cons; [apply oldestFirst_nil | intros b []].
  - simpl in Hl. destruct (oldestFirst_inv _ _ Hl) as [Ht Ha].
    destruct (byYearAsc x a) eqn:E; unfold byYearAsc in E; simpl.
    + apply Z.leb_le in E. apply oldestFirst_cons; [exact Hl |].
      intros b [<- | Hb]; [exact E |]. specialize (Ha b Hb). lia.
    + apply Z.leb_gt in E. apply oldestFirst_cons; [now apply IH |].
      intros b Hb. apply in_map_iff in Hb as [e [<- He]].
      apply insertRow_In in He as [-> | He]; [lia |].
      apply Ha. now apply in_map.
Qed.

Lemma sortRows_oldestFirst (l : list EmissionsRow) :
  oldestFirst (map Emissions.year (sortRows byYearAsc l)).
Proof.
  unfold sortRows. induction l as [| a t IH]; simpl.
  - apply oldestFirst_nil.
  - now apply insertRow_oldestFirst.
Qed.

(** Inserting before a last element that the new row does not exceed. *)
Lemma insertRow_snoc (le : EmissionsRow -> EmissionsRow -> bool)
    (x y : EmissionsRow) (l : list EmissionsRow) :
  le x y = true -> insertRow le x (l ++ [y]) = insertRow le x l ++ [y].
Proof.
  intros H. induction l as [| z t IH]; simpl.
  - now rewrite H.
  - destruct (le x z); [reflexivity |]. now rewrite IH.
Qed.

(** Inserting a row that exceeds every element. *)
Lemma insertRow_last (le : EmissionsRow -> EmissionsRow -> bool)
    (x : EmissionsRow) (l : list EmissionsRow) :
  (forall e, In e l -> le x e = false) -> insertRow le x l = l ++ [x].
Proof.
  induction l as [| z t IH]; intros H; simpl; [reflexivity |].
  rewrite (H z (or_introl eq_refl)). rewrite IH; [reflexivity |].
  intros e He. apply H. now right.
Qed.

Lemma insertRow_rev (x : EmissionsRow) (l : list EmissionsRow) :
  newestFirst l ->
  (forall e, In e l -> Emissions.year e <> Emissions.year x) ->
  insertRow byYearAsc x (rev l) = rev (insertRow byYearDesc x l).
Proof.
  induction l as [| y t IH]; intros Hs Hne; [reflexivity |].
  destruct (newestFirst_inv y t Hs) as [Ht Hy].
  pose proof (Hne y (or_introl eq_refl)) as Hxy.
  cbn [rev insertRow]. unfold byYearDesc at 1.
  destruct (Emissions.year y <=? Emissions.year x)%Z eqn:E.
  - apply Z.leb_le in E. cbn [rev]. rewrite <- app_assoc. cbn [app].
    change (rev t ++ [y; x]) with (rev t ++ [y] ++ [x]). rewrite app_assoc.
    apply insertRow_last. intros e He. unfold byYearAsc. apply Z.leb_gt.
    apply in_app_or in He as [He | [<- | []]]; [| lia].
    apply in_rev in He. specialize (Hy e He). lia.
  - apply Z.leb_gt in E. cbn [rev].
    rewrite insertRow_snoc; [| unfold byYearAsc; apply Z.leb_le; lia].
    rewrite IH; [reflexivity | exact Ht |].
    intros e He. apply Hne. now right.
Qed.

Lemma sortRows_rev (l : list EmissionsRow) :
  NoDup (map Emissions.year l) ->
  sortRows byYearAsc l = rev (sortRows byYearDesc l).
Proof.
  unfold sortRows. induction l as [| x t IH]; intros Hnd; [reflexivity |].
  cbn [map] in Hnd. inversion Hnd as [| ? ? Hx Ht]; subst.
  cbn [fold_right]. rewrite (IH Ht). apply insertRow_rev.
  - apply sortRows_newestFirst.
  - intros e He Heq. apply Hx. rewrite <- Heq. apply list_elem_of_In, in_map.
    now apply (sortRows_In byYearDesc).
Qed.

Lemma insertRow_years_NoDup (le : EmissionsRow -> EmissionsRow -> bool)
    (x : EmissionsRow) (l : list EmissionsRow) :
  NoDup (map Emissions.year (x :: l)) ->
  NoDup (map Emissions.year (insertRow le x l)).
Proof.
  induction l as [| a t IH]; intros H; [exact H |].
  cbn [insertRow]. destruct (le x a); [exact H |].
  cbn [map] in *.
  apply NoDup_cons in H as [Hx H]. apply NoDup_cons in H as [Ha Ht].
  apply NoDup_cons. split.
  - intros Hin. apply list_elem_of_In, in_map_iff in Hin as [e [Ee He]].
    apply insertRow_In in He as [-> | He].
    + apply Hx. rewrite Ee. now left.
    + apply Ha. rewrite <- Ee. now apply list_elem_of_In, in_map.
  - apply IH. apply NoDup_cons. split; [| exact Ht].
    intros Hin. apply Hx. now right.
Qed.

Lemma sortRows_years_NoDup (le : EmissionsRow -> EmissionsRow -> bool)
    (l : list EmissionsRow) :
  NoDup (map Emissions.year l) -> NoDup (map Emissions.year (sortRows le l)).
Proof.
  unfold sortRows. induction l as [| x t IH]; intros H; [exact H |].
  cbn [fold_right]. apply insertRow_years_NoDup. cbn [map] in *.
  apply NoDup_cons in H as [Hx Ht]. apply NoDup_cons. split; [| now apply IH].
  intros Hin. apply Hx. apply list_elem_of_In, in_map_iff in Hin as [e [Ee He]].
  rewrite <- Ee. apply list_elem_of_In, in_map. now apply (sortRows_In le).
Qed.

(** X23. The time series of a company.  It has one point per stored row of
    the company, each the projection of such a row, with years in
    non-decreasing order.  When the company's rows carry distinct years
    (the table's uniqueness constraint), the series is the company's
    emission history, which is returned newest first, read backwards. *)
Theorem time_series_reverses_history (db : Database) (nzId : Z) :
  length (getTimeSeries db nzId) = length (rowsOf db nzId)
  /\ (forall p, In p (getTimeSeries db nzId)
                <-> exists e, In e (rowsOf db nzId) /\ p = pointOfRow e)
  /\ oldestFirst (map TimeSeries.year (getTimeSeries db nzId))
  /\ (NoDup (map Emissions.year (rowsOf db nzId)) ->
      getTimeSeries db nzId = map pointOfRow (rev (getCompanyEmissions db nzId None))
      /\ strictlyIncreasing (map TimeSeries.year (getTimeSeries db nzId))).
Proof.
  unfold getTimeSeries, getCompanyEmissions, rowsOf. cbn [truthyZ].
  set (own := List.filter (fun e => (Emissions.nz_id e =? nzId)%Z) (emissions db)).
  assert (Ey : map TimeSeries.year (map pointOfRow (sortRows byYearAsc own))
               = map Emissions.year (sortRows byYearAsc own)).
  { rewrite map_map. reflexivity. }
  split; [| split; [| split]].
  - now rewrite length_map, sortRows_length.
  - intros p. rewrite in_map_iff. split.
    + intros [e [<- He]]. exists e. split; [| reflexivity]. now apply (sortRows_In byYearAsc).
    + intros [e [He ->]]. exists e. split; [reflexivity |].
      now apply (sortRows_In byYearAsc).
  - rewrite Ey. apply sortRows_oldestFirst.
  - intros Hnd. split; [now rewrite (sortRows_rev own Hnd) |].
    rewrite Ey. intros i j a b Hij Ha Hb.
    pose proof (sortRows_oldestFirst own i j a b ltac:(lia) Ha Hb) as Hle.
    assert (a <> b); [| lia]. intros ->.
    pose proof (NoDup_lookup _ i j b (sortRows_years_NoDup byYearAsc own Hnd) Ha Hb).
    lia.
Qed.

Lemma time_series_reverses_history_witness :
  map TimeSeries.year (getTimeSeries Scenarios.history 1) = [2020; 2021; 2022]%Z
  /\ getTimeSeries Scenarios.history 1
     = map pointOfRow (rev (getCompanyEmissions Scenarios.history 1 None)).
Proof.
  split; [reflexivity |].
  apply (time_series_reverses_history Scenarios.history 1).
  vm_compute. repeat constructor; intros H; inversion H; subst;
    repeat match goal with
           | K : _ ∈ _ |- _ => inversion K; clear K; subst
           end.
Defined.

End SeriesProperties.

Section TrendProperties.
Import JS Types Queries Compare Vocabulary Spec JSFacts StatsFacts.
Import Queries Trends Vocabulary.






End TrendProperties.

Section PeerTrendProperties.
Import JS Types Queries Compare Vocabulary Spec JSFacts StatsFacts.
Import Queries Trends PeerTrend Vocabulary.

Lemma strictlyIncreasing_nil : strictlyIncreasing [].
Proof. intros i j ? ? _ Hi. destruct i; discriminate. Qed.





Lemma upTo_In (lo hi a : Z) : In a (upTo lo hi) <-> (lo <= a <= hi)%Z.
Proof.
  unfold upTo. rewrite in_map_iff. split.
  - intros [i [<- Hi]]. apply in_seq in Hi. lia.
  - intros H. exists (Z.to_nat (a - lo)). split; [lia |]. apply in_seq. lia.
Qed.


(** The first numeric value of the loop variable. *)
Lemma loop_points (db : Database) (scope : Scope) (filters : Filters)
    (startYear endYear : option Z) :
  flat_map (pointsOfYear db scope filters) (loopYears startYear endYear)
  = flat_map (fun y => pointsOfYear db scope filters (Some y))
      (upTo (match startYear with Some s => s | None => 1%Z end) (toNumber endYear)).
Proof.
  assert (F : forall ys,
             flat_map (pointsOfYear db scope filters) (map Some ys)
             = flat_map (fun y => pointsOfYear db scope filters (Some y)) ys).
  { induction ys as [| y t IH]; simpl; [reflexivity | now rewrite IH]. }
  unfold loopYears. destruct startYear as [s |]; [apply F |].
  destruct (0 <=? toNumber endYear)%Z eqn:E.
  - cbn [flat_map]. rewrite F. reflexivity.
  - apply Z.leb_gt in E. unfold upTo.
    replace (Z.to_nat (toNumber endYear - 1 + 1)) with 0%nat by lia. reflexivity.
Qed.


Lemma points_In (db : Database) (scope : Scope) (filters : Filters) (ys : list Z)
    (p : PeerTrendDataPoint) :
  In p (flat_map (fun y => pointsOfYear db scope filters (Some y)) ys)
  <-> exists y, In y ys
                /\ valuesOfYear db scope filters (Some y) <> []
                /\ p = pointOf y (sort (valuesOfYear db scope filters (Some y))).
Proof.
  rewrite in_flat_map. split.
  - intros [y [Hy Hp]]. exists y. split; [exact Hy |]. unfold pointsOfYear in Hp.
    destruct (valuesOfYear db scope filters (Some y)) as [| v vs] eqn:E;
      [destruct Hp |].
    cbn [length Nat.eqb] in Hp. destruct Hp as [<- | []].
    split; [discriminate | reflexivity].
  - intros [y (Hy & Hne & ->)]. exists y. split; [exact Hy |]. unfold pointsOfYear.
    destruct (valuesOfYear db scope filters (Some y)) as [| v vs] eqn:E;
      [congruence |].
    left. reflexivity.
Qed.

Lemma ascending_sort (l : list Q) : ascending l -> sort l = l.
Proof.
  induction l as [| x t IH]; intros H; [reflexivity |].
  cbn [sort]. rewrite (IH (ascending_tail x t H)).
  destruct t as [| y t']; [reflexivity |]. cbn [insert].
  assert (L : x <= y) by (apply (ascending_head x (y :: t') 0%nat H); simpl; lia).
  apply Qle_bool_iff in L. now rewrite L.
Qed.


Lemma valuesOfYear_ascending (db : Database) (scope : Scope) (filters : Filters)
    (y : option Z) :
  ascending (valuesOfYear db scope filters y).
Proof.
  destruct y as [y |]; [apply sort_ascending | apply ascending_nil].
Qed.



Lemma getPeerTrend_shape (M : MathLib) (db : Database) (scope : Scope)
    (filters : Filters) (startYear endYear : option Z) :
  let r := getPeerTrend db scope filters startYear endYear in
  dataPoints r
  = flat_map (fun y => pointsOfYear db scope filters (Some y))
      (upTo (match start (yearRange r) with Some s => s | None => 1%Z end)
            (toNumber (end_ (yearRange r))))
  /\ analysis r = analyzeTrend (dataPoints r).
Proof.
  cbv zeta. unfold getPeerTrend, yearRangeQuery.
  destruct (negb (truthyZ startYear) || negb (truthyZ endYear));
    [destruct (map Emissions.year (matching db scope filters)) |];
    cbn [dataPoints analysis yearRange start end_];
    (split; [apply loop_points | reflexivity]).
Qed.





Lemma omap_filter {A B : Type} (h : A -> bool) (f g : A -> option B) (l : list A) :
  (forall x, g x = if h x then f x else None) ->
  omap f (List.filter h l) = omap g l.
Proof.
  intros H. induction l as [| a t IH]; [reflexivity |].
  unfold omap in *. simpl. rewrite (H a).
  destruct (h a); simpl; [destruct (f a) |]; now rewrite IH.
Qed.

Lemma valuesOfYear_peerValues (db : Database) (scope : Scope) (filters : Filters)
    (y : Z) :
  truthyS (sics_sub_sector filters) = false -> y <> 0%Z ->
  valuesOfYear db scope filters (Some y)
  = peerValues db scope
      {| f_jurisdiction := jurisdiction filters;
         f_sics_sector := sics_sector filters;
         f_year := Some y |}.
Proof.
  intros Hsub Hy. unfold valuesOfYear, peerValues, matching. f_equal.
  apply omap_filter. intros e.
  destruct (companies db !! Emissions.nz_id e) as [c |]; [| reflexivity].
  unfold peerWhere, whereClause. cbn [f_jurisdiction f_sics_sector f_year].
  rewrite Hsub, andb_true_r. unfold truthyZ.
  replace (y =? 0)%Z with false by (symmetry; apply Z.eqb_neq; exact Hy).
  cbn [negb default].
  unfold Datatypes.id.
  match goal with |- context [?a && ?b && ?c && (Emissions.year e =? y)%Z] =>
    destruct (a && b && c) end; reflexivity.
Qed.

(** X26. A data point of the peer trend is the peer statistics of its year.
    When no sub-sector filter is set, the point reported for a (non-zero)
    year carries exactly the count, mean, median, minimum, maximum and
    quartiles that [getPeerStatistics] returns for the same scope,
    jurisdiction, sector and year; and for a year inside the reported
    range a point exists exactly when those statistics exist. *)
Theorem peer_trend_point_matches_statistics (M : MathLib) (db : Database)
    (scope : Scope) (filters : Filters) (startYear endYear : option Z) (y : Z) :
  truthyS (sics_sub_sector filters) = false -> y <> 0%Z ->
  let r := getPeerTrend db scope filters startYear endYear in
  let cohort := {| f_jurisdiction := jurisdiction filters;
                   f_sics_sector := sics_sector filters;
                   f_year := Some y |} in
  (forall p, In p (dataPoints r) -> Trends.year p = y ->
             exists st,
               getPeerStatistics db scope cohort = Some st
               /\ Trends.count p = Types.count st
               /\ Trends.mean p = Types.mean st
               /\ Trends.median p = Types.median st
               /\ Trends.min p = Types.min st
               /\ Trends.max p = Types.max st
               /\ Trends.percentile25 p = Types.percentile25 st
               /\ Trends.percentile75 p = Types.percentile75 st)
  /\ ((toNumber (start (yearRange r)) <= y <= toNumber (end_ (yearRange r)))%Z ->
      (getPeerStatistics db scope cohort <> None
       <-> exists p, In p (dataPoints r) /\ Trends.year p = y)).
Proof.
  intros Hsub Hy r cohort.
  destruct (getPeerTrend_shape M db scope filters startYear endYear) as [D _].
  fold r in D. rewrite D.
  pose proof (valuesOfYear_peerValues db scope filters y Hsub Hy) as Ev.
  fold cohort in Ev.
  assert (Hpoint : forall p,
             In p (flat_map (fun y => pointsOfYear db scope filters (Some y))
                     (upTo (match start (yearRange r) with Some s => s | None => 1%Z end)
                           (toNumber (end_ (yearRange r))))) ->
             Trends.year p = y ->
             peerValues db scope cohort <> []
             /\ p = pointOf y (peerValues db scope cohort)).
  { intros p Hin Hyear. apply points_In in Hin as [y' (_ & Hne & ->)].
    cbn [pointOf Trends.year] in Hyear. subst y'.
    rewrite (ascending_sort _ (valuesOfYear_ascending db scope filters (Some y))).
    rewrite Ev in *. split; [exact Hne | reflexivity]. }
  split.
  - intros p Hin Hyear. destruct (Hpoint p Hin Hyear) as [Hne ->].
    exists (statsOfOrdered (peerValues db scope cohort)). split.
    + unfold getPeerStatistics.
      destruct (peerValues db scope cohort); [congruence | reflexivity].
    + repeat split; reflexivity.
  - intros Hrange. split.
    + intros Hst.
      assert (Hne : peerValues db scope cohort <> []).
      { intros E. apply Hst. now apply getPeerStatistics_none. }
      exists (pointOf y (sort (valuesOfYear db scope filters (Some y)))).
      split; [| reflexivity]. apply points_In. exists y.
      split; [| split; [now rewrite Ev | reflexivity]].
      apply upTo_In. destruct (start (yearRange r)); simpl in *; lia.
    + intros [p [Hin Hyear]]. destruct (Hpoint p Hin Hyear) as [Hne _].
      unfold getPeerStatistics.
      destruct (peerValues db scope cohort); [congruence | discriminate].
Qed.

Lemma peer_trend_point_matches_statistics_witness :
  exists p,
    In p (dataPoints (getPeerTrend (M := coarseMath) Scenarios.history scope1
                        Scenarios.energy None None))
    /\ Trends.year p = 2022%Z.
Proof.
  apply (peer_trend_point_matches_statistics coarseMath Scenarios.history scope1
           Scenarios.energy None None 2022 eq_refl ltac:(discriminate)).
  - vm_compute. split; discriminate.
  - vm_compute. discriminate.
Defined.

End PeerTrendProperties.

Section Scope3ComparisonProperties.
Import JS Types Queries Compare Vocabulary Spec JSFacts StatsFacts.
Import Queries Compare Vocabulary.

Lemma fold_Qmax_spec (t : list Q) (x : Q) :
  In (fold_left Qmax t x) (x :: t)
  /\ forall y, In y (x :: t) -> y <= fold_left Qmax t x.
Proof.
  revert x. induction t as [| a t IH]; intros x.
  - simpl. split; [now left |]. intros y [<- | []]. apply Qle_refl.
  - cbn [fold_left]. destruct (IH (Qmax x a)) as [I1 I2].
    assert (Hm : (Qmax x a = x /\ a <= x) \/ (Qmax x a = a /\ x <= a)).
    { unfold Qmax. destruct (Qle_bool x a) eqn:E.
      - right. split; [reflexivity | now apply Qle_bool_iff].
      - left. split; [reflexivity | now apply Qle_bool_false]. }
    split.
    + destruct I1 as [I1 | I1]; [| now right; right].
      rewrite <- I1. destruct Hm as [[-> _] | [-> _]]; [now left | right; now left].
    + intros y Hy.
      assert (Hx : Qmax x a <= fold_left Qmax t (Qmax x a)) by (apply I2; now left).
      destruct Hy as [<- | [<- | Hy]].
      * destruct Hm as [[E _] | [E L]]; rewrite E in *; [exact Hx | lra].
      * destruct Hm as [[E L] | [E _]]; rewrite E in *; [lra | exact Hx].
      * apply I2. now right.
Qed.

Lemma fold_Qmin_spec (t : list Q) (x : Q) :
  In (fold_left Qmin t x) (x :: t)
  /\ forall y, In y (x :: t) -> fold_left Qmin t x <= y.
Proof.
  revert x. induction t as [| a t IH]; intros x.
  - simpl. split; [now left |]. intros y [<- | []]. apply Qle_refl.
  - cbn [fold_left]. destruct (IH (Qmin x a)) as [I1 I2].
    assert (Hm : (Qmin x a = x /\ x <= a) \/ (Qmin x a = a /\ a <= x)).
    { unfold Qmin. destruct (Qle_bool x a) eqn:E.
      - left. split; [reflexivity | now apply Qle_bool_iff].
      - right. split; [reflexivity | now apply Qle_bool_false]. }
    split.
    + destruct I1 as [I1 | I1]; [| now right; right].
      rewrite <- I1. destruct Hm as [[-> _] | [-> _]]; [now left | right; now left].
    + intros y Hy.
      assert (Hx : fold_left Qmin t (Qmin x a) <= Qmin x a) by (apply I2; now left).
      destruct Hy as [<- | [<- | Hy]].
      * destruct Hm as [[E _] | [E L]]; rewrite E in *; [exact Hx | lra].
      * destruct Hm as [[E L] | [E _]]; rewrite E in *; [lra | exact Hx].
      * apply I2. now right.
Qed.

Lemma fold_max_spec (l : list nat) (x : nat) :
  In (fold_left Nat.max l x) (x :: l)
  /\ forall y, In y (x :: l) -> (y <= fold_left Nat.max l x)%nat.
Proof.
  revert x. induction l as [| a t IH]; intros x.
  - simpl. split; [now left |]. intros y [<- | []]. lia.
  - cbn [fold_left]. destruct (IH (Nat.max x a)) as [I1 I2]. split.
    + destruct I1 as [I1 | I1]; [| now right; right].
      rewrite <- I1. destruct (Nat.max_spec x a) as [[_ ->] | [_ ->]];
        [right; now left | now left].
    + intros y Hy.
      assert (Hx : (Nat.max x a <= fold_left Nat.max t (Nat.max x a))%nat)
        by (apply I2; now left).
      destruct Hy as [<- | [<- | Hy]]; [lia | lia | apply I2; now right].
Qed.

Lemma fold_min_spec (l : list nat) (x : nat) :
  In (fold_left Nat.min l x) (x :: l)
  /\ forall y, In y (x :: l) -> (fold_left Nat.min l x <= y)%nat.
Proof.
  revert x. induction l as [| a t IH]; intros x.
  - simpl. split; [now left |]. intros y [<- | []]. lia.
  - cbn [fold_left]. destruct (IH (Nat.min x a)) as [I1 I2]. split.
    + destruct I1 as [I1 | I1]; [| now right; right].
      rewrite <- I1. destruct (Nat.min_spec x a) as [[_ ->] | [_ ->]];
        [now left | right; now left].
    + intros y Hy.
      assert (Hx : (fold_left Nat.min t (Nat.min x a) <= Nat.min x a)%nat)
        by (apply I2; now left).
      destruct Hy as [<- | [<- | Hy]]; [lia | lia | apply I2; now right].
Qed.

Lemma comparedRows_length (db : Database) (nzIds : list Z) (year : option Z) :
  (length (comparedRows db nzIds year) <= length nzIds)%nat.
Proof.
  induction nzIds as [| i t IH]; simpl; [lia |].
  destruct (getCompanyById db i); simpl; lia.
Qed.

Lemma omap_length {A B : Type} (f : A -> option B) (l : list A) :
  (length (omap f l) <= length l)%nat.
Proof.
  unfold omap. induction l as [| a t IH]; simpl; [lia |].
  destruct (f a); simpl; lia.
Qed.

Lemma coverage_count_bound (e : EmissionsRow) :
  (categoriesReported (getScope3CoverageSummary e) <= 15)%nat.
Proof.
  unfold getScope3CoverageSummary. cbn [categoriesReported].
  etransitivity; [apply filter_length_le |]. reflexivity.
Qed.


(** X27. Warnings of the Scope 3 comparison.  Only two kinds of warning
    are produced.  A variance warning carries the smallest and the largest
    positive Scope 3 total among the compared rows, and is raised only when
    the largest is more than ten times the smallest; it is listed among the
    comparability warnings.  A coverage warning carries category counts of
    two compared companies that differ by at least five and do not exceed
    fifteen.  With fewer than two requested companies no warning is
    raised. *)
Theorem scope3_comparison_warnings (db : Database) (nzIds : list Z) (year : option Z) :
  let r := compareCompaniesWithScope3 db nzIds year in
  let total (t : Q) :=
    exists c e, In c (cmp_companies r) /\ cs_emissions c = Some e
                /\ Emissions.scope3_total e = Some t in
  let counted (n : nat) :=
    exists c s, In c (cmp_companies r) /\ scope3Coverage c = Some s
                /\ categoriesReported s = n in
  (forall w, In w (comparabilityWarnings r) ->
             (exists lo hi, w = Scope3Variance lo hi)
             \/ (exists mn mx, w = CategoryCoverageVaries mn mx))
  /\ (forall lo hi,
         In (Scope3Variance lo hi) (comparabilityWarnings r)
         <-> scope3VarianceWarning r = Some (Scope3Variance lo hi))
  /\ (forall lo hi,
         scope3VarianceWarning r = Some (Scope3Variance lo hi) ->
         0 < lo /\ 10 * lo < hi /\ total lo /\ total hi
         /\ forall t c e, In c (cmp_companies r) -> cs_emissions c = Some e ->
                          Emissions.scope3_total e = Some t -> 0 < t ->
                          lo <= t /\ t <= hi)
  /\ (forall mn mx,
         In (CategoryCoverageVaries mn mx) (comparabilityWarnings r) ->
         (mn + 5 <= mx)%nat /\ (mx <= 15)%nat /\ counted mn /\ counted mx)
  /\ ((length nzIds < 2)%nat ->
      scope3VarianceWarning r = None /\ comparabilityWarnings r = []).
Proof.
  intros r total counted. subst r total counted.
  unfold compareCompaniesWithScope3.
  cbn [cmp_companies scope3VarianceWarning comparabilityWarnings].
  set (companies := comparedRows db nzIds year).
  set (ftotal := fun c : ComparedScope3 =>
                   match cs_emissions c with
                   | Some e =>
                       match Emissions.scope3_total e with
                       | Some t => if truthy (Some t) && Qlt_bool 0 t then Some t else None
                       | None => None
                       end
                   | None => None
                   end).
  set (totals := omap ftotal companies).
  set (fcount := fun c : ComparedScope3 =>
                   option_map categoriesReported (scope3Coverage c)).
  set (counts := omap fcount companies).
  set (variance :=
         if (2 <=? length totals)%nat
         then if Qlt_bool 0 (minOf totals) && Qlt_bool 10 (maxOf totals / minOf totals)
              then Some (Scope3Variance (minOf totals) (maxOf totals)) else None
         else None).
  set (coverage :=
         if (2 <=? length counts)%nat
         then if (5 <=? fold_left Nat.max counts 0%nat
                        - fold_left Nat.min (tl counts) (hd 0%nat counts))%nat
              then [CategoryCoverageVaries
                      (fold_left Nat.min (tl counts) (hd 0%nat counts))
                      (fold_left Nat.max counts 0%nat)]
              else []
         else []).
  assert (Hv : forall w, variance = Some w ->
                         w = Scope3Variance (minOf totals) (maxOf totals)).
  { intros w. subst variance. destruct (2 <=? length totals)%nat; [| discriminate].
    destruct (_ && _); [| discriminate]. now intros [= <-]. }
  assert (Hc : forall w, In w coverage ->
                         w = CategoryCoverageVaries
                               (fold_left Nat.min (tl counts) (hd 0%nat counts))
                               (fold_left Nat.max counts 0%nat)).
  { intros w. subst coverage. destruct (2 <=? length counts)%nat; [| intros []].
    destruct (5 <=? _)%nat; [| intros []]. intros [<- | []]. reflexivity. }
  assert (Htot : forall t, In t totals ->
                           0 < t /\ exists c e, In c companies /\ cs_emissions c = Some e
                                                /\ Emissions.scope3_total e = Some t).
  { intros t Ht. apply list_elem_of_In, list_elem_of_omap in Ht as [c [Hin Hf]].
    apply list_elem_of_In in Hin. unfold ftotal in Hf.
    destruct (cs_emissions c) as [e |] eqn:Ee; [| discriminate].
    destruct (Emissions.scope3_total e) as [t' |] eqn:Et; [| discriminate].
    destruct (truthy (Some t') && Qlt_bool 0 t') eqn:B; [| discriminate].
    injection Hf as <-. apply andb_prop in B as [_ B]. apply Qlt_bool_iff in B.
    split; [exact B |]. now exists c, e. }
  assert (Htot' : forall t c e, In c companies -> cs_emissions c = Some e ->
                                Emissions.scope3_total e = Some t -> 0 < t ->
                                In t totals).
  { intros t c e Hin Ee Et Hpos. apply list_elem_of_In, list_elem_of_omap.
    exists c. split; [now apply list_elem_of_In |]. unfold ftotal. rewrite Ee, Et.
    assert (B1 : truthy (Some t) = true) by (apply truthy_some; lra).
    assert (B2 : Qlt_bool 0 t = true) by now apply Qlt_bool_iff.
    now rewrite B1, B2. }
  assert (Hcnt : forall n, In n counts ->
                           (n <= 15)%nat
                           /\ exists c s, In c companies /\ scope3Coverage c = Some s
                                          /\ categoriesReported s = n).
  { intros n Hn. apply list_elem_of_In, list_elem_of_omap in Hn as [c [Hin Hf]].
    apply list_elem_of_In in Hin. unfold fcount in Hf.
    destruct (scope3Coverage c) as [s |] eqn:Es; [| discriminate].
    injection Hf as <-. split; [| now exists c, s].
    assert (Hs : exists e, s = getScope3CoverageSummary e).
    { clear -Hin Es. subst companies.
      induction nzIds as [| i t IH]; simpl in Hin; [destruct Hin |].
      destruct (getCompanyById db i); [| now apply IH].
      destruct Hin as [<- | Hin]; [| now apply IH].
      cbn [scope3Coverage] in Es. destruct (emissionsRowFor db i year) as [e |];
        [| discriminate].
      injection Es as <-. now exists e. }
    destruct Hs as [e ->]. apply coverage_count_bound. }
  split; [| split; [| split; [| split]]].
  - intros w Hw. apply in_app_or in Hw as [Hw | Hw].
    + left. destruct variance as [w' |] eqn:E; [| destruct Hw].
      destruct Hw as [<- | []]. rewrite (Hv w' eq_refl). eauto.
    + right. rewrite (Hc w Hw). eauto.
  - intros lo hi. split.
    + intros Hw. apply in_app_or in Hw as [Hw | Hw].
      * destruct variance as [w' |]; [| destruct Hw].
        destruct Hw as [<- | []]. reflexivity.
      * apply Hc in Hw. discriminate.
    + intros ->. apply in_or_app. left. now left.
  - intros lo hi Hw. pose proof (Hv _ Hw) as E. injection E as -> ->.
    subst variance. destruct (2 <=? length totals)%nat eqn:L; [| discriminate].
    destruct (Qlt_bool 0 (minOf totals) && Qlt_bool 10 (maxOf totals / minOf totals))
      eqn:B; [| discriminate].
    apply andb_prop in B as [B1 B2].
    apply Qlt_bool_iff in B1. apply Qlt_bool_iff in B2.
    destruct totals as [| x t] eqn:Et; [discriminate |].
    cbn [minOf maxOf] in *.
    destruct (fold_Qmin_spec t x) as [N1 N2], (fold_Qmax_spec t x) as [X1 X2].
    split; [exact B1 |]. split.
    { assert (E : fold_left Qmax t x
                  == fold_left Qmax t x / fold_left Qmin t x * fold_left Qmin t x)
        by (field; lra).
      rewrite E. nra. }
    split; [apply (Htot _ N1) |]. split; [apply (Htot _ X1) |].
    intros v c e Hin Ee Ev Hpos. pose proof (Htot' v c e Hin Ee Ev Hpos) as Hin'.
    split; [now apply N2 | now apply X2].
  - intros mn mx Hw. apply in_app_or in Hw as [Hw | Hw].
    { destruct variance as [w' |] eqn:E; [| destruct Hw].
      destruct Hw as [E' | []]. rewrite (Hv w' eq_refl) in E'. discriminate. }
    pose proof (Hc _ Hw) as E. injection E as -> ->.
    subst coverage. destruct (2 <=? length counts)%nat eqn:L; [| destruct Hw].
    destruct (5 <=? _)%nat eqn:B; [| destruct Hw]. apply Nat.leb_le in B.
    destruct counts as [| n t] eqn:Ec; [discriminate |].
    cbn [hd tl] in *.
    destruct (fold_min_spec t n) as [N1 N2].
    destruct (fold_max_spec (n :: t) 0%nat) as [X1 X2].
    assert (X1' : In (fold_left Nat.max (n :: t) 0%nat) (n :: t)).
    { destruct X1 as [X1 | X1]; [| exact X1].
      specialize (X2 n (or_intror (or_introl eq_refl))).
      rewrite <- X1 in X2. assert (n = 0%nat) by lia. subst n.
      rewrite <- X1. now left. }
    destruct (Hcnt _ N1) as [_ C1], (Hcnt _ X1') as [C2 C3].
    repeat split; [lia | exact C2 | exact C1 | exact C3].
  - intros Hlen.
    assert (L1 : (length totals < 2)%nat).
    { pose proof (omap_length ftotal companies).
      pose proof (comparedRows_length db nzIds year). subst totals companies. lia. }
    assert (L2 : (length counts < 2)%nat).
    { pose proof (omap_length fcount companies).
      pose proof (comparedRows_length db nzIds year). subst counts companies. lia. }
    subst variance coverage.
    replace (2 <=? length totals)%nat with false by (symmetry; apply Nat.leb_gt; lia).
    replace (2 <=? length counts)%nat with false by (symmetry; apply Nat.leb_gt; lia).
    split; reflexivity.
Qed.

Lemma scope3_comparison_warnings_witness :
  In (Scope3Variance 20 1000)
     (comparabilityWarnings (compareCompaniesWithScope3 Scenarios.history [1%Z; 2%Z] None)).
Proof.
  apply (scope3_comparison_warnings Scenarios.history [1%Z; 2%Z] None).
  vm_compute. reflexivity.
Defined.

End Scope3ComparisonProperties.

Section PeerProperties.
Import JS Types Queries Compare Vocabulary Spec JSFacts StatsFacts.
Import Types Engine Peers Comparability.






Lemma mapSet_keys (result : list (Z * Q)) (k : Z) (v : Q) :
  map fst (mapSet result k v)
  = if existsb (Z.eqb k) (map fst result) then map fst result
    else map fst result ++ [k].
Proof.
  induction result as [| [k' v'] t IH]; [reflexivity |].
  cbn [mapSet map fst existsb]. rewrite (Z.eqb_sym k k').
  destruct (k' =? k)%Z eqn:E; cbn [orb map fst]; [reflexivity |].
  rewrite IH. destruct (existsb (Z.eqb k) (map fst t)); reflexivity.
Qed.

Lemma mapSet_fresh (result : list (Z * Q)) (k : Z) (v : Q) :
  ~ In k (map fst result) -> mapSet result k v = result ++ [(k, v)].
Proof.
  induction result as [| [k' v'] t IH]; intros H; [reflexivity |].
  cbn [mapSet]. destruct (k' =? k)%Z eqn:E.
  - apply Z.eqb_eq in E. exfalso. apply H. left. exact E.
  - cbn [app]. rewrite IH; [reflexivity |]. intros Hin. apply H. now right.
Qed.

Lemma mapSet_In (result : list (Z * Q)) (k : Z) (v : Q) (k' : Z) (v' : Q) :
  In (k', v') (mapSet result k v) -> (k' = k /\ v' = v) \/ In (k', v') result.
Proof.
  induction result as [| [a b] t IH]; cbn [mapSet].
  - intros [E | []]. injection E as <- <-. now left.
  - destruct (a =? k)%Z eqn:Ek.
    + apply Z.eqb_eq in Ek. intros [E | H].
      * injection E as <- <-. now left.
      * right. now right.
    + intros [E | H]; [right; now left |].
      destruct (IH H) as [L | R]; [now left | right; now right].
Qed.

Lemma existsb_eqb_In (k : Z) (l : list Z) : existsb (Z.eqb k) l = true <-> In k l.
Proof.
  rewrite existsb_exists. split.
  - intros [x [Hx E]]. apply Z.eqb_eq in E. now subst.
  - intros H. exists k. split; [exact H | apply Z.eqb_refl].
Qed.

Lemma NoDup_snoc (l : list Z) (k : Z) : NoDup l -> ~ In k l -> NoDup (l ++ [k]).
Proof.
  intros Hl Hk. apply NoDup_app. split; [exact Hl |]. split.
  - intros x Hx Hx'. apply list_elem_of_In in Hx.
    apply list_elem_of_In in Hx'. destruct Hx' as [<- | []]. contradiction.
  - apply NoDup_singleton.
Qed.

Lemma filterStep_keys (methodology : Scope2Methodology) (acc : list (Z * Q))
    (entry : Z * list EmissionsData) :
  NoDup (map fst acc) ->
  NoDup (map fst (filterStep methodology acc entry))
  /\ (forall k, In k (map fst (filterStep methodology acc entry)) ->
                In k (map fst acc) \/ k = fst entry).
Proof.
  intros Hacc. unfold filterStep. destruct (snd entry) as [| latest rest];
    [split; [exact Hacc | intros; now left] |].
  destruct (scope2Value methodology latest) as [v |];
    [| split; [exact Hacc | intros; now left]].
  rewrite mapSet_keys.
  destruct (existsb (Z.eqb (fst entry)) (map fst acc)) eqn:B;
    [split; [exact Hacc | intros; now left] |].
  split.
  - apply NoDup_snoc; [exact Hacc |]. intros Hin.
    apply existsb_eqb_In in Hin. congruence.
  - intros k Hk. apply in_app_or in Hk as [Hk | [<- | []]]; [now left | now right].
Qed.

Lemma filter_fold (methodology : Scope2Methodology) (l : EmissionsMap)
    (acc : list (Z * Q)) :
  NoDup (map fst acc) ->
  let result := fold_left (filterStep methodology) l acc in
  NoDup (map fst result)
  /\ (forall id v, In (id, v) result ->
                   In (id, v) acc
                   \/ exists latest rest, In (id, latest :: rest) l
                                          /\ fieldOf methodology latest = Some v)
  /\ (NoDup (map fst l) -> (forall k, In k (map fst acc) -> ~ In k (map fst l)) ->
      result
      = acc ++ omap (fun entry =>
                       match snd entry with
                       | [] => None
                       | latest :: _ =>
                           option_map (pair (fst entry)) (fieldOf methodology latest)
                       end) l).
Proof.
  revert acc. induction l as [| [id es] t IH]; intros acc Hacc; cbv zeta.
  - cbn [fold_left]. split; [exact Hacc |]. split; [intros; now left |].
    intros _ _. cbn. now rewrite app_nil_r.
  - cbn [fold_left].
    destruct (filterStep_keys methodology acc (id, es) Hacc) as [K1 K2].
    destruct (IH _ K1) as (I1 & I2 & I3). cbv zeta in I1, I2, I3.
    split; [exact I1 |]. split.
    + intros k v Hin. destruct (I2 k v Hin) as [Hin' | (latest & rest & Hl & Hf)].
      * unfold filterStep in Hin'. cbn [snd fst] in Hin'.
        destruct es as [| latest rest]; [now left |].
        destruct (scope2Value methodology latest) as [w |] eqn:Ew; [| now left].
        destruct (mapSet_In _ _ _ _ _ Hin') as [[-> ->] | Hold]; [| now left].
        right. exists latest, rest. split; [now left |].
        destruct methodology; exact Ew.
      * right. exists latest, rest. split; [now right | exact Hf].
    + intros Hnd Hfresh. cbn [map fst] in Hnd.
      apply NoDup_cons in Hnd as [Hid Hnd].
      assert (Hid' : ~ In id (map fst acc)).
      { intros Hin. apply (Hfresh id Hin). now left. }
      rewrite I3; [| exact Hnd |].
      * unfold filterStep, omap. cbn [list_omap snd fst].
        destruct es as [| latest rest]; [reflexivity |].
        replace (fieldOf methodology latest) with (scope2Value methodology latest)
          by (destruct methodology; reflexivity).
        destruct (scope2Value methodology latest) as [v |]; [| reflexivity].
        cbn [option_map]. rewrite (mapSet_fresh acc id v Hid'), <- app_assoc.
        reflexivity.
      * intros k Hk Hk'. destruct (K2 k Hk) as [Hk2 | ->].
        -- apply (Hfresh k Hk2). now right.
        -- apply Hid. now apply list_elem_of_In.
Qed.

(** X29. Filtering a map of emission histories by Scope 2 variant.  The
    result has distinct keys, and every entry pairs a company of the input
    with the requested variant's value in the first record of its history.
    When the input keys are distinct, as in a map, the result is exactly
    the input read in order, keeping the companies whose first record
    reports the requested variant and dropping those with an empty history
    or without that variant. *)
Theorem scope2_filter_keeps_reporting_companies (emissionsMap : EmissionsMap)
    (methodology : Scope2Methodology) :
  let result := filterByScope2Methodology emissionsMap methodology in
  NoDup (map fst result)
  /\ (forall id v, In (id, v) result ->
                   exists latest rest, In (id, latest :: rest) emissionsMap
                                       /\ fieldOf methodology latest = Some v)
  /\ (NoDup (map fst emissionsMap) ->
      result
      = omap (fun entry =>
                match snd entry with
                | [] => None
                | latest :: _ =>
                    option_map (pair (fst entry)) (fieldOf methodology latest)
                end) emissionsMap).
Proof.
  intros result. subst result. unfold filterByScope2Methodology.
  destruct (filter_fold methodology emissionsMap [] NoDup_nil_2)
    as (H1 & H2 & H3).
  cbv zeta in H1, H2, H3. split; [exact H1 |]. split.
  - intros id v Hin. destruct (H2 id v Hin) as [[] | H]. exact H.
  - intros Hnd. apply (H3 Hnd). intros k [].
Qed.

Lemma scope2_filter_keeps_reporting_companies_witness :
  filterByScope2Methodology Scenarios.peerMap market_based = [(2%Z, 150)].
Proof.
  apply (scope2_filter_keeps_reporting_companies Scenarios.peerMap market_based).
  vm_compute. repeat constructor; intros H; inversion H; subst;
    repeat match goal with
           | K : _ ∈ _ |- _ => inversion K; clear K; subst
           end.
Defined.

End PeerProperties.

Section ServerProperties.
Import JS Types Queries Compare Vocabulary Spec JSFacts StatsFacts.
Import Queries Compare Server.

#[local] Open Scope string_scope.








End ServerProperties.
